(** * OTP authentication service: challenge lifecycle, rate limiting, sessions

    A shallow embedding of the Go sources of the service
    (internal/repository, internal/service, internal/handlers,
    internal/middleware, config, cmd/main.go) together with the properties
    of the specification that were checked against it.

    Conventions.
    - Go [int], [int64] and [time.Duration] are modelled as [Z]; where the
      source multiplies or adds machine integers the 64-bit wrap-around is
      written out with [wrap64].
    - Go's [(value, error)] results are modelled by [result]; an error is
      the text that [err.Error()] would print, because the handlers branch
      on that text.
    - Redis, PostgreSQL, the clock, the pseudo random generator and the
      JWT library are the environment of the program.  They are modelled
      by the record [World] and by the primitive operations of the modules
      [Redis], [PostgresUserRepository] and [Jwt]; every primitive appends
      an [Event] to the world's trace, so that "which store operations
      happened, and in which order" is a statement about that trace.
    - Requests are sequential.  The clock stands still while a request is
      served and moves between requests ([elapse]).
    - Request bodies and tokens are given decoded: the JSON and base64
      layers are not modelled, and a signature is a symbolic term. *)

From Stdlib Require Import ZArith Lia Ascii String List Bool.
From stdpp Require Import base option gmap strings list.

Local Open Scope string_scope.
Local Open Scope list_scope.
Local Open Scope Z_scope.

(* ===================================================================== *)
(** ** Machine integers *)
(* ===================================================================== *)

Definition min_int64 : Z := - 2 ^ 63.
Definition max_int64 : Z := 2 ^ 63 - 1.

(** Two's complement wrap-around of a 64-bit signed integer. *)
Definition wrap64 (z : Z) : Z := (z + 2 ^ 63) mod 2 ^ 64 - 2 ^ 63.

Definition in_int64 (z : Z) : Prop := min_int64 <= z <= max_int64.

(* ===================================================================== *)
(** ** strconv: decimal printing and parsing *)
(* ===================================================================== *)

Module Strconv.

(** The ASCII digits are the bytes 48 to 57. *)
Definition digit_char (d : Z) : ascii :=
  if (0 <=? d) && (d <? 10) then ascii_of_nat (Z.to_nat (48 + d))
  else "9"%char.

Definition digit_val (c : ascii) : option Z :=
  let b := Z.of_nat (nat_of_ascii c) in
  if (48 <=? b) && (b <=? 57) then Some (b - 48) else None.

Definition is_digit (c : ascii) : bool :=
  match digit_val c with Some _ => true | None => false end.

(** Digits of a non-negative number, most significant first, pushed in
    front of [acc].  The fuel bounds the number of digits. *)
Fixpoint fmt_digits (fuel : nat) (n : Z) (acc : string) : string :=
  match fuel with
  | O => acc
  | S f =>
      let acc' := String (digit_char (n mod 10)) acc in
      if n <? 10 then acc' else fmt_digits f (n / 10) acc'
  end.

Definition fmt_nat (n : Z) : string :=
  fmt_digits (S (Z.to_nat (Z.log2 n))) n "".

(** [strconv.FormatInt(n, 10)]. *)
Definition FormatInt (n : Z) : string :=
  if n <? 0 then String "-" (fmt_nat (- n)) else fmt_nat n.

Fixpoint parse_digits (s : string) (acc : Z) : option Z :=
  match s with
  | EmptyString => Some acc
  | String c s' =>
      match digit_val c with
      | Some d => parse_digits s' (10 * acc + d)
      | None => None
      end
  end.

(** [strconv.Atoi]: an optional sign, at least one digit, only digits,
    and a value that fits the machine integer. *)
Definition Atoi (s : string) : option Z :=
  let '(neg, body) :=
    match s with
    | String "-" r => (true, r)
    | String "+" r => (false, r)
    | _ => (false, s)
    end in
  match body with
  | EmptyString => None
  | _ =>
      match parse_digits body 0 with
      | Some n =>
          let v := if neg then - n else n in
          if (min_int64 <=? v) && (v <=? max_int64) then Some v else None
      | None => None
      end
  end.

Fixpoint all_digits (s : string) : bool :=
  match s with
  | EmptyString => true
  | String c s' => is_digit c && all_digits s'
  end.

(** The first byte of a string, if any. *)
Definition first_char (s : string) : option ascii :=
  match s with EmptyString => None | String c _ => Some c end.

(** [utf8.RuneCountInString] on valid UTF-8: the bytes that are not
    continuation bytes (0x80..0xBF). *)
Fixpoint rune_count (s : string) : nat :=
  match s with
  | EmptyString => O
  | String c s' =>
      let b := nat_of_ascii c in
      if Nat.leb 128 b && Nat.leb b 191 then rune_count s'
      else S (rune_count s')
  end.

End Strconv.

(* ===================================================================== *)
(** ** service: code generation (auth_service.go) *)
(* ===================================================================== *)

(** [powInt]: the loop [for i := 0; i < y; i++ { result *= x }]. *)
Fixpoint powInt_loop (iters : nat) (x result : Z) : Z :=
  match iters with
  | O => result
  | S k => powInt_loop k x (wrap64 (result * x))
  end.

Definition powInt (x y : Z) : Z := powInt_loop (Z.to_nat y) x 1.

(** [Int63n] of math/rand: panics ([None]) unless [0 < n]; otherwise the
    accepted 63-bit sample of the generator reduced modulo [n]. *)
Definition Int63n (sample n : Z) : option Z :=
  if n <=? 0 then None else Some (sample mod n).

(** [generateRandomOTP]; [sample] is what the generator seeded with the
    wall clock delivers.  [None] is the panic of [Int63n]. *)
Definition generateRandomOTP (sample length : Z) : option string :=
  let min := wrap64 (1 * powInt 10 (wrap64 (length - 1))) in
  let max := wrap64 (9 * powInt 10 (wrap64 (length - 1))) in
  match Int63n sample (wrap64 (wrap64 (max - min) + 1)) with
  | None => None
  | Some v => Some (Strconv.FormatInt (wrap64 (min + v)))
  end.


(* ===================================================================== *)
(** ** config (config.go) *)
(* ===================================================================== *)

Definition Second : Z := 1000000000.
Definition Minute : Z := 60 * Second.
Definition Hour : Z := 60 * Minute.

Record JWTConfig := { Secret : string; ExpirationHours : Z }.
Record RateLimitConfig := { Count : Z; Time : Z (* in minutes *) }.
Record OTPConfig :=
  { Expiration : Z; Length : Z; RateLimit : RateLimitConfig }.
Record Config := { JWT : JWTConfig; OTP : OTPConfig }.

Definition GetOTPExpiration (c : Config) : Z :=
  wrap64 (Expiration (OTP c) * Second).

Definition GetRateLimitDuration (c : Config) : Z :=
  wrap64 (Time (RateLimit (OTP c)) * Minute).

(* ===================================================================== *)
(** ** models (models.go) and the session token *)
(* ===================================================================== *)

Record User :=
  { ID : string; PhoneNumber : string; CreatedAt : Z; UpdatedAt : Z }.

Inductive ClaimValue := CStr (s : string) | CNum (n : Z).

(** A JWT in decoded form.  The signature is symbolic: it records the
    algorithm and key that produced it and the signing input (header
    algorithm and claims) it covers. *)
Record Signature :=
  { sig_alg : string; sig_key : string;
    sig_header : string; sig_claims : gmap string ClaimValue }.

Record Token :=
  { header_alg : string; claims : gmap string ClaimValue;
    signature : Signature }.

Global Instance ClaimValue_eq_dec : EqDecision ClaimValue.
Proof. solve_decision. Defined.
Global Instance Signature_eq_dec : EqDecision Signature.
Proof. solve_decision. Defined.

(* ===================================================================== *)
(** ** The environment *)
(* ===================================================================== *)

Inductive Event :=
| EvGet (key : string)
| EvSet (key value : string) (expiration : Z)
| EvDel (key : string)
| EvIncr (key : string)
| EvExists (key : string)
| EvFindByPhoneNumber (phoneNumber : string)
| EvCreate (phoneNumber : string)
| EvSign (user_id phoneNumber : string)
| EvPrintOTP (phoneNumber otp : string).

(** Events that are operations of the key-value store. *)
Definition store_event (e : Event) : bool :=
  match e with
  | EvGet _ | EvSet _ _ _ | EvDel _ | EvIncr _ | EvExists _ => true
  | _ => false
  end.

(** A Redis entry: its value and the instant at which it expires. *)
Record entry := Entry { e_val : string; e_exp : option Z }.

(** A fault schedule says, for the next operations of a collaborator in
    order, whether the operation fails and with which error text; beyond
    the end of the schedule operations succeed. *)
Definition faults := list (option string).

Record World :=
  { now : Z;                          (* wall clock, nanoseconds *)
    redis : gmap string entry;
    redis_faults : faults;
    users : list User;                (* the table [users] *)
    db_faults : faults;
    uuid_gen : nat -> string;         (* uuid.New(), call by call *)
    uuid_ctr : nat;
    prng : Z -> Z;                    (* seed |-> accepted Int63 sample *)
    sign_faults : faults;
    trace : list Event }.

Definition log (e : Event) (w : World) : World :=
  {| now := now w; redis := redis w; redis_faults := redis_faults w;
     users := users w; db_faults := db_faults w; uuid_gen := uuid_gen w;
     uuid_ctr := uuid_ctr w; prng := prng w; sign_faults := sign_faults w;
     trace := trace w ++ [e] |}.

Definition with_redis (m : gmap string entry) (w : World) : World :=
  {| now := now w; redis := m; redis_faults := redis_faults w;
     users := users w; db_faults := db_faults w; uuid_gen := uuid_gen w;
     uuid_ctr := uuid_ctr w; prng := prng w; sign_faults := sign_faults w;
     trace := trace w |}.

Definition with_redis_faults (fs : faults) (w : World) : World :=
  {| now := now w; redis := redis w; redis_faults := fs;
     users := users w; db_faults := db_faults w; uuid_gen := uuid_gen w;
     uuid_ctr := uuid_ctr w; prng := prng w; sign_faults := sign_faults w;
     trace := trace w |}.

Definition with_db_faults (fs : faults) (w : World) : World :=
  {| now := now w; redis := redis w; redis_faults := redis_faults w;
     users := users w; db_faults := fs; uuid_gen := uuid_gen w;
     uuid_ctr := uuid_ctr w; prng := prng w; sign_faults := sign_faults w;
     trace := trace w |}.

Definition with_sign_faults (fs : faults) (w : World) : World :=
  {| now := now w; redis := redis w; redis_faults := redis_faults w;
     users := users w; db_faults := db_faults w; uuid_gen := uuid_gen w;
     uuid_ctr := uuid_ctr w; prng := prng w; sign_faults := fs;
     trace := trace w |}.

(** Insert a row. *)
Definition with_new_user (u : User) (w : World) : World :=
  {| now := now w; redis := redis w; redis_faults := redis_faults w;
     users := users w ++ [u]; db_faults := db_faults w;
     uuid_gen := uuid_gen w; uuid_ctr := uuid_ctr w; prng := prng w;
     sign_faults := sign_faults w; trace := trace w |}.

(** [uuid.New()] has been called: the next call is a new draw. *)
Definition uuid_drawn (w : World) : World :=
  {| now := now w; redis := redis w; redis_faults := redis_faults w;
     users := users w; db_faults := db_faults w;
     uuid_gen := uuid_gen w; uuid_ctr := S (uuid_ctr w); prng := prng w;
     sign_faults := sign_faults w; trace := trace w |}.

(** Time passes between two requests. *)
Definition elapse (d : Z) (w : World) : World :=
  {| now := now w + d; redis := redis w; redis_faults := redis_faults w;
     users := users w; db_faults := db_faults w; uuid_gen := uuid_gen w;
     uuid_ctr := uuid_ctr w; prng := prng w; sign_faults := sign_faults w;
     trace := trace w |}.

Definition pop_fault (fs : faults) : option string * faults :=
  match fs with
  | [] => (None, [])
  | f :: fs' => (f, fs')
  end.

(** Go's [(value, error)]: the error is its text. *)
Inductive result (A : Type) := Ok (a : A) | Err (msg : string).
Arguments Ok {A} a.
Arguments Err {A} msg.

(** A call that may panic instead of returning. *)
Inductive outcome (A : Type) := Returns (a : A) | Panics.
Arguments Returns {A} a.
Arguments Panics {A}.

(* ===================================================================== *)
(** ** Redis: the five commands the program issues (go-redis v8) *)
(* ===================================================================== *)

Module Redis.

(** A reply: a value, [redis.Nil], or another error. *)
Inductive reply (A : Type) := Val (a : A) | Nil | Fault (msg : string).
Arguments Val {A} a.
Arguments Nil {A}.
Arguments Fault {A} msg.

Definition live_at (t : Z) (e : entry) : bool :=
  match e_exp e with
  | None => true
  | Some x => t <? x
  end.

(** The entry under [k], unless it has expired. *)
Definition lookup_live (w : World) (k : string) : option entry :=
  match redis w !! k with
  | Some e => if live_at (now w) e then Some e else None
  | None => None
  end.

Definition has_live (w : World) (k : string) : bool :=
  match lookup_live w k with
  | Some _ => true
  | None => false
  end.

(** [Set(ctx, k, v, expiration)]: a positive expiration becomes the
    entry's time to live, [KeepTTL] (-1) keeps the one of a live entry,
    anything else stores the entry without expiry. *)
Definition expiry_for (w : World) (k : string) (expiration : Z)
  : option Z :=
  if 0 <? expiration then Some (now w + expiration)
  else if expiration =? -1 then
    match lookup_live w k with
    | Some e => e_exp e
    | None => None
    end
  else None.

(** What Redis accepts as an integer value: the canonical decimal text
    of a 64-bit number. *)
Definition int_value (s : string) : option Z :=
  match Strconv.Atoi s with
  | Some n => if String.eqb (Strconv.FormatInt n) s then Some n else None
  | None => None
  end.

Definition start (e : Event) (w : World) : option string * World :=
  let w1 := log e w in
  let '(f, fs) := pop_fault (redis_faults w1) in
  (f, with_redis_faults fs w1).

Definition Get (k : string) (w : World) : reply string * World :=
  let '(f, w1) := start (EvGet k) w in
  match f with
  | Some msg => (Fault msg, w1)
  | None =>
      match lookup_live w1 k with
      | Some e => (Val (e_val e), w1)
      | None => (Nil, w1)
      end
  end.

Definition Set_ (k v : string) (expiration : Z) (w : World)
  : reply unit * World :=
  let '(f, w1) := start (EvSet k v expiration) w in
  match f with
  | Some msg => (Fault msg, w1)
  | None =>
      (Val tt,
       with_redis (<[k := Entry v (expiry_for w1 k expiration)]> (redis w1))
         w1)
  end.

Definition Del (k : string) (w : World) : reply Z * World :=
  let '(f, w1) := start (EvDel k) w in
  match f with
  | Some msg => (Fault msg, w1)
  | None =>
      (Val (if has_live w1 k then 1 else 0),
       with_redis (delete k (redis w1)) w1)
  end.

Definition Exists (k : string) (w : World) : reply Z * World :=
  let '(f, w1) := start (EvExists k) w in
  match f with
  | Some msg => (Fault msg, w1)
  | None => (Val (if has_live w1 k then 1 else 0), w1)
  end.

(** [INCR]: an absent key counts from zero and gets no expiry; a live
    one keeps its expiry. *)
Definition Incr (k : string) (w : World) : reply Z * World :=
  let '(f, w1) := start (EvIncr k) w in
  match f with
  | Some msg => (Fault msg, w1)
  | None =>
      match lookup_live w1 k with
      | None =>
          (Val 1, with_redis (<[k := Entry "1" None]> (redis w1)) w1)
      | Some e =>
          match int_value (e_val e) with
          | None =>
              (Fault "ERR value is not an integer or out of range", w1)
          | Some n =>
              if max_int64 <=? n
              then (Fault "ERR increment or decrement would overflow", w1)
              else
                (Val (n + 1),
                 with_redis
                   (<[k := Entry (Strconv.FormatInt (n + 1)) (e_exp e)]>
                      (redis w1)) w1)
          end
      end
  end.

(** [Int] of a string reply: the reply parsed with [strconv.Atoi]. *)
Definition Int (r : reply string) : reply Z :=
  match r with
  | Val s =>
      match Strconv.Atoi s with
      | Some n => Val n
      | None =>
          Fault ("strconv.Atoi: parsing " +:+ s +:+ ": invalid syntax")
      end
  | Nil => Nil
  | Fault msg => Fault msg
  end.

End Redis.

(* ===================================================================== *)
(** ** repository: RedisOTPRepository (otp_repository.go) *)
(* ===================================================================== *)

Module RedisOTPRepository.

Definition otpKeyPrefix : string := "otp:".
Definition rateLimitKeyPrefix : string := "rate_limit:".

Definition StoreOTP (phoneNumber otp : string) (expiration : Z)
    (w : World) : result unit * World :=
  let key := otpKeyPrefix +:+ phoneNumber in
  let '(r, w) := Redis.Set_ key otp expiration w in
  match r with
  | Redis.Fault e => (Err ("error storing OTP: " +:+ e), w)
  | _ => (Ok tt, w)
  end.

Definition GetOTP (phoneNumber : string) (w : World)
    : result string * World :=
  let key := otpKeyPrefix +:+ phoneNumber in
  let '(r, w) := Redis.Get key w in
  match r with
  | Redis.Nil => (Err "OTP not found or expired", w)
  | Redis.Fault e => (Err ("error retrieving OTP: " +:+ e), w)
  | Redis.Val otp => (Ok otp, w)
  end.

Definition DeleteOTP (phoneNumber : string) (w : World)
    : result unit * World :=
  let key := otpKeyPrefix +:+ phoneNumber in
  let '(r, w) := Redis.Del key w in
  match r with
  | Redis.Fault e => (Err ("error deleting OTP: " +:+ e), w)
  | _ => (Ok tt, w)
  end.

(** [true] means: the limit has been exceeded. *)
Definition CheckRateLimit (phoneNumber : string) (limit window : Z)
    (w : World) : result bool * World :=
  let key := rateLimitKeyPrefix +:+ phoneNumber in
  let '(r, w) := Redis.Get key w in
  match Redis.Int r with
  | Redis.Fault e => (Err ("error checking rate limit: " +:+ e), w)
  | Redis.Nil => (Ok (limit <=? 0), w)
  | Redis.Val count => (Ok (limit <=? count), w)
  end.

Definition IncrementRateLimit (phoneNumber : string) (window : Z)
    (w : World) : result unit * World :=
  let key := rateLimitKeyPrefix +:+ phoneNumber in
  let '(r, w) := Redis.Exists key w in
  match r with
  | Redis.Fault e =>
      (Err ("error checking if rate limit key exists: " +:+ e), w)
  | Redis.Nil =>
      (Err ("error checking if rate limit key exists: redis: nil"), w)
  | Redis.Val exists_ =>
      if exists_ =? 0 then
        let '(r, w) := Redis.Set_ key "1" window w in
        match r with
        | Redis.Fault e => (Err ("error setting rate limit: " +:+ e), w)
        | _ => (Ok tt, w)
        end
      else
        let '(r, w) := Redis.Incr key w in
        match r with
        | Redis.Fault e =>
            (Err ("error incrementing rate limit: " +:+ e), w)
        | Redis.Nil =>
            (Err ("error incrementing rate limit: redis: nil"), w)
        | Redis.Val _ => (Ok tt, w)
        end
  end.

End RedisOTPRepository.

(* ===================================================================== *)
(** ** repository: PostgresUserRepository (user_repository.go) *)
(* ===================================================================== *)

Module PostgresUserRepository.

Definition start (e : Event) (w : World) : option string * World :=
  let w1 := log e w in
  let '(f, fs) := pop_fault (db_faults w1) in
  (f, with_db_faults fs w1).

(** [SELECT ... WHERE phone_number = $1] *)
Definition select_by_phone (phoneNumber : string) (us : list User)
  : option User :=
  List.find (fun u => String.eqb (PhoneNumber u) phoneNumber) us.

Definition select_by_id (id : string) (us : list User) : option User :=
  List.find (fun u => String.eqb (ID u) id) us.

Definition FindByPhoneNumber (phoneNumber : string) (w : World)
    : result User * World :=
  let '(f, w) := start (EvFindByPhoneNumber phoneNumber) w in
  match f with
  | Some e => (Err ("error finding user by phone number: " +:+ e), w)
  | None =>
      match select_by_phone phoneNumber (users w) with
      | Some user => (Ok user, w)
      | None =>
          (Err ("error finding user by phone number: "
                +:+ "sql: no rows in result set"), w)
      end
  end.

(** [INSERT INTO users ... RETURNING ...] under the constraints of the
    migration: [id] is the primary key, [phone_number] is
    [VARCHAR(20) UNIQUE]. *)
Definition Create (phoneNumber : string) (w : World)
    : result User * World :=
  let id := uuid_gen w (uuid_ctr w) in
  let '(f, w) := start (EvCreate phoneNumber) (uuid_drawn w) in
  match f with
  | Some e => (Err ("error creating user: " +:+ e), w)
  | None =>
      if Nat.ltb 20 (Strconv.rune_count phoneNumber) then
        (Err ("error creating user: pq: value too long for type "
              +:+ "character varying(20)"), w)
      else
        match select_by_phone phoneNumber (users w),
              select_by_id id (users w) with
        | None, None =>
            let user :=
              {| ID := id; PhoneNumber := phoneNumber;
                 CreatedAt := now w; UpdatedAt := now w |} in
            (Ok user, with_new_user user w)
        | _, _ =>
            (Err ("error creating user: pq: duplicate key value "
                  +:+ "violates unique constraint"), w)
        end
  end.

End PostgresUserRepository.

(* ===================================================================== *)
(** ** The JWT library (golang-jwt v5), as far as the program uses it *)
(* ===================================================================== *)

Module Jwt.

Inductive SigningMethod :=
| SigningMethodHMAC (name : string)
| SigningMethodRSA (name : string)
| SigningMethodRSAPSS (name : string)
| SigningMethodECDSA (name : string)
| SigningMethodEd25519
| SigningMethodNone.

Definition one_of (alg : string) (names : list string) : bool :=
  existsb (String.eqb alg) names.

(** The registry of signing methods, by the header's [alg]. *)
Definition GetSigningMethod (alg : string) : option SigningMethod :=
  if one_of alg ["HS256"; "HS384"; "HS512"] then
    Some (SigningMethodHMAC alg)
  else if one_of alg ["RS256"; "RS384"; "RS512"] then
    Some (SigningMethodRSA alg)
  else if one_of alg ["PS256"; "PS384"; "PS512"] then
    Some (SigningMethodRSAPSS alg)
  else if one_of alg ["ES256"; "ES384"; "ES512"] then
    Some (SigningMethodECDSA alg)
  else if String.eqb alg "EdDSA" then Some SigningMethodEd25519
  else if String.eqb alg "none" then Some SigningMethodNone
  else None.

(** The signature that [alg] with [key] puts on a header and claims. *)
Definition sign (alg key : string) (hdr : string)
    (cl : gmap string ClaimValue) : Signature :=
  {| sig_alg := alg; sig_key := key; sig_header := hdr;
     sig_claims := cl |}.

(** [Method.Verify] with a key of type [[]byte]: only the HMAC family
    takes such a key; the MAC must be the one of the same algorithm and
    key over the token's own header and claims. *)
Definition Verify (m : SigningMethod) (key : string) (t : Token)
  : result unit :=
  match m with
  | SigningMethodHMAC name =>
      if bool_decide
           (signature t = sign name key (header_alg t) (claims t))
      then Ok tt
      else Err "signature is invalid"
  | SigningMethodNone =>
      Err "'none' signature type is not allowed"
  | _ => Err "key is of invalid type"
  end.

(** The registered claims checked by default: [exp] and [nbf]. *)
Definition validate_claims (t_now : Z) (cl : gmap string ClaimValue)
  : result unit :=
  match cl !! "exp" with
  | Some (CStr _) => Err "invalid type for claim: exp is invalid"
  | Some (CNum exp) =>
      if t_now <? exp * Second then
        match cl !! "nbf" with
        | Some (CStr _) => Err "invalid type for claim: nbf is invalid"
        | Some (CNum nbf) =>
            if nbf * Second <=? t_now then Ok tt
            else Err "token is not valid yet"
        | None => Ok tt
        end
      else Err "token is expired"
  | None =>
      match cl !! "nbf" with
      | Some (CStr _) => Err "invalid type for claim: nbf is invalid"
      | Some (CNum nbf) =>
          if nbf * Second <=? t_now then Ok tt
          else Err "token is not valid yet"
      | None => Ok tt
      end
  end.

(** [jwt.Parse(tokenString, keyFunc)] without parser options.  The token
    string is given decoded; [None] is a string that is not three
    base64url segments of JSON.  The result is the token with [Valid]
    set, or the error. *)
Definition Parse (tokenString : option Token)
    (keyFunc : Token -> SigningMethod -> result string) (t_now : Z)
  : result Token :=
  match tokenString with
  | None => Err "token is malformed"
  | Some t =>
      match GetSigningMethod (header_alg t) with
      | None =>
          Err "token is unverifiable: signing method (alg) is unavailable"
      | Some m =>
          match keyFunc t m with
          | Err e =>
              Err ("token is unverifiable: error while executing keyfunc: "
                   +:+ e)
          | Ok key =>
              match Verify m key t with
              | Err e => Err ("token signature is invalid: " +:+ e)
              | Ok _ =>
                  match validate_claims t_now (claims t) with
                  | Err e => Err ("token has invalid claims: " +:+ e)
                  | Ok _ => Ok t
                  end
              end
          end
      end
  end.

(** [NewWithClaims(method, claims).SignedString(key)]. *)
Definition SignedString (alg key : string) (cl : gmap string ClaimValue)
  : Token :=
  {| header_alg := alg; claims := cl; signature := sign alg key alg cl |}.

End Jwt.

(* ===================================================================== *)
(** ** service: AuthService (auth_service.go) *)
(* ===================================================================== *)

Module AuthService.

Import RedisOTPRepository.

Definition GenerateOTP (config : Config) (phoneNumber : string)
    (w : World) : outcome (result string) * World :=
  let '(r, w) :=
    CheckRateLimit phoneNumber (Count (RateLimit (OTP config)))
      (GetRateLimitDuration config) w in
  match r with
  | Err e => (Returns (Err ("error checking rate limit: " +:+ e)), w)
  | Ok true => (Returns (Err "rate limit exceeded"), w)
  | Ok false =>
      match generateRandomOTP (prng w (now w)) (Length (OTP config)) with
      | None => (Panics, w)
      | Some otp =>
          let '(r, w) :=
            StoreOTP phoneNumber otp (GetOTPExpiration config) w in
          match r with
          | Err e => (Returns (Err ("error storing OTP: " +:+ e)), w)
          | Ok _ =>
              let '(r, w) :=
                IncrementRateLimit phoneNumber
                  (GetRateLimitDuration config) w in
              match r with
              | Err e =>
                  (Returns
                     (Err ("error incrementing rate limit: " +:+ e)), w)
              | Ok _ => (Returns (Ok otp), w)
              end
          end
      end
  end.

(** [time.Time.Unix] of an instant in nanoseconds. *)
Definition Unix (t : Z) : Z := t / Second.

Definition generateJWT (config : Config) (user : User) (w : World)
    : result Token * World :=
  let expirationTime :=
    now w + wrap64 (ExpirationHours (JWT config) * Hour) in
  let claims : gmap string ClaimValue :=
    <["user_id" := CStr (ID user)]>
      (<["phone_number" := CStr (PhoneNumber user)]>
         (<["exp" := CNum (Unix expirationTime)]> ∅)) in
  let w := log (EvSign (ID user) (PhoneNumber user)) w in
  let '(f, fs) := pop_fault (sign_faults w) in
  let w := with_sign_faults fs w in
  match f with
  | Some e => (Err e, w)
  | None =>
      (Ok (Jwt.SignedString "HS256" (Secret (JWT config)) claims), w)
  end.

(** Lines 228-244 of [VerifyOTP]: find the user or create it, then sign
    the token. *)
Definition VerifyOTP_login (config : Config) (phoneNumber : string)
    (w : World) : result (Token * User) * World :=
  let '(r, w) := PostgresUserRepository.FindByPhoneNumber phoneNumber w in
  let '(r, w) :=
    match r with
    | Err _ => PostgresUserRepository.Create phoneNumber w
    | Ok user => (Ok user, w)
    end in
  match r with
  | Err e => (Err ("error creating user: " +:+ e), w)
  | Ok user =>
      let '(r, w) := generateJWT config user w in
      match r with
      | Err e => (Err ("error generating JWT: " +:+ e), w)
      | Ok token => (Ok (token, user), w)
      end
  end.

Definition VerifyOTP (config : Config) (phoneNumber otp : string)
    (w : World) : result (Token * User) * World :=
  let '(r, w) := GetOTP phoneNumber w in
  match r with
  | Err e => (Err ("error retrieving OTP: " +:+ e), w)
  | Ok storedOTP =>
      if negb (String.eqb storedOTP otp) then (Err "invalid OTP", w)
      else
        let '(r, w) := DeleteOTP phoneNumber w in
        match r with
        | Err e => (Err ("error deleting OTP: " +:+ e), w)
        | Ok _ => VerifyOTP_login config phoneNumber w
        end
  end.

End AuthService.

(* ===================================================================== *)
(** ** HTTP: requests and responses as the handlers see them (gin) *)
(* ===================================================================== *)

(** A request body: unreadable, not a JSON object of the expected shape,
    or an object whose string fields [phone_number] and [otp] are given
    (an absent field is the empty string). *)
Inductive RequestBody :=
| BodyUnreadable
| BodyNotJSON
| BodyJSON (phone_number otp : string).

(** The [Authorization] header: empty, not of the form ["Bearer <token>"],
    or a bearer token; the token string is given decoded, [None] when it
    does not decode. *)
Inductive AuthorizationHeader :=
| AuthEmpty
| AuthNotBearer
| AuthBearer (tokenString : option Token).

Record Request :=
  { ClientIP : string; Body : RequestBody;
    Authorization : AuthorizationHeader }.

Inductive Payload :=
| ErrorResponse (error : string)
| RequestOTPResponse (message : string)
| VerifyOTPResponse (token : Token) (user : User)
| NoPayload.

Record Response := JSON { status : Z; payload : Payload }.

(** What a middleware does with the chain. *)
Inductive Flow :=
| Next (keys : list (string * string))
| Abort (r : Response).

Definition StatusOK : Z := 200.
Definition StatusBadRequest : Z := 400.
Definition StatusUnauthorized : Z := 401.
Definition StatusTooManyRequests : Z := 429.
Definition StatusInternalServerError : Z := 500.

(* ===================================================================== *)
(** ** middleware: OTPRateLimit (rate_limit_middleware.go) *)
(* ===================================================================== *)

Module RateLimitMiddleware.

(** Lines 121-147 of the closure: the phone-number scope. *)
Definition OTPRateLimit_phone (limit window : Z)
    (phoneBasedLimiting : bool) (phoneKey : string) (w : World)
    : Flow * World :=
  if phoneBasedLimiting then
    let '(r, w) := Redis.Get phoneKey w in
    match Redis.Int r with
    | Redis.Fault _ =>
        (Abort (JSON StatusInternalServerError
                  (ErrorResponse "Error checking rate limit")), w)
    | Redis.Nil =>
        let '(_, w) := Redis.Set_ phoneKey "1" window w in
        (Next [], w)
    | Redis.Val phoneCount =>
        if limit <=? phoneCount then
          (Abort (JSON StatusTooManyRequests
                    (ErrorResponse
                       "Too many OTP requests for this phone number")), w)
        else
          let '(_, w) := Redis.Incr phoneKey w in
          (Next [], w)
    end
  else (Next [], w).

Definition OTPRateLimit (limit window : Z) (req : Request) (w : World)
    : Flow * World :=
  let ipKey := "rate_limit:otp:ip:" +:+ ClientIP req in
  match Body req with
  | BodyUnreadable =>
      (Abort (JSON StatusBadRequest
                (ErrorResponse "Cannot read request body")), w)
  | body =>
      let '(phoneBasedLimiting, phoneKey) :=
        match body with
        | BodyJSON phone_number _ =>
            if negb (String.eqb phone_number "") then
              (true, "rate_limit:otp:phone:" +:+ phone_number)
            else (false, "")
        | _ => (false, "")
        end in
      let '(r, w) := Redis.Get ipKey w in
      match Redis.Int r with
      | Redis.Fault _ =>
          (Abort (JSON StatusInternalServerError
                    (ErrorResponse "Error checking rate limit")), w)
      | Redis.Nil =>
          let '(_, w) := Redis.Set_ ipKey "1" window w in
          OTPRateLimit_phone limit window phoneBasedLimiting phoneKey w
      | Redis.Val ipCount =>
          if wrap64 (limit * 2) <=? ipCount then
            (Abort (JSON StatusTooManyRequests
                      (ErrorResponse "Rate limit exceeded")), w)
          else
            let '(_, w) := Redis.Incr ipKey w in
            OTPRateLimit_phone limit window phoneBasedLimiting phoneKey w
      end
  end.

(** [RateLimit]: the limit by address alone. *)
Definition RateLimit (limit window : Z) (req : Request) (w : World)
    : Flow * World :=
  let key := "rate_limit:ip:" +:+ ClientIP req in
  let '(r, w) := Redis.Get key w in
  match Redis.Int r with
  | Redis.Fault _ =>
      (Abort (JSON StatusInternalServerError
                (ErrorResponse "Error checking rate limit")), w)
  | Redis.Nil =>
      let '(_, w) := Redis.Set_ key "1" window w in
      (Next [], w)
  | Redis.Val val =>
      if limit <=? val then
        (Abort (JSON StatusTooManyRequests
                  (ErrorResponse "Rate limit exceeded")), w)
      else
        let '(_, w) := Redis.Incr key w in
        (Next [], w)
  end.

End RateLimitMiddleware.

(* ===================================================================== *)
(** ** middleware: AuthRequired (auth_middleware.go) *)
(* ===================================================================== *)

Module Uuid.

Definition is_hex (c : ascii) : bool :=
  let b := nat_of_ascii c in
  (Nat.leb 48 b && Nat.leb b 57) || (Nat.leb 97 b && Nat.leb b 102)
  || (Nat.leb 65 b && Nat.leb b 70).

(** [xxxxxxxx-xxxx-xxxx-xxxx-xxxxxxxxxxxx], read from position [i]. *)
Fixpoint canonical_from (i : nat) (s : string) : bool :=
  match s with
  | EmptyString => Nat.eqb i 36
  | String c s' =>
      (if Nat.eqb i 8 || Nat.eqb i 13 || Nat.eqb i 18 || Nat.eqb i 23
       then Ascii.eqb c "-" else is_hex c)
      && canonical_from (S i) s'
  end.

Fixpoint all_hex (s : string) : bool :=
  match s with
  | EmptyString => true
  | String c s' => is_hex c && all_hex s'
  end.

(** [uuid.Parse]: the canonical form, the same after [urn:uuid:] or in
    braces, or 32 hexadecimal digits.  [true] means: no error. *)
Definition Parse (s : string) : bool :=
  match String.length s with
  | 36%nat => canonical_from 0 s
  | 45%nat =>
      String.prefix "urn:uuid:" s && canonical_from 0 (substring 9 36 s)
  | 38%nat =>
      String.prefix "{" s && canonical_from 0 (substring 1 36 s)
  | 32%nat => all_hex s
  | _ => false
  end.

End Uuid.

Module JWTAuthMiddleware.

(** The key function handed to [jwt.Parse]. *)
Definition keyFunc (config : Config) (token : Token)
    (method : Jwt.SigningMethod) : result string :=
  match method with
  | Jwt.SigningMethodHMAC _ => Ok (Secret (JWT config))
  | _ => Err ("unexpected signing method: " +:+ header_alg token)
  end.

Definition unauthorized (msg : string) : Flow :=
  Abort (JSON StatusUnauthorized (ErrorResponse msg)).

Definition AuthRequired (config : Config) (req : Request) (w : World)
    : Flow :=
  match Authorization req with
  | AuthEmpty => unauthorized "Authorization header is required"
  | AuthNotBearer =>
      unauthorized "Authorization header must be 'Bearer <token>'"
  | AuthBearer tokenString =>
      match Jwt.Parse tokenString (keyFunc config) (now w) with
      | Err e => unauthorized ("Invalid token: " +:+ e)
      | Ok token =>
          match claims token !! "user_id" with
          | Some (CStr userIDStr) =>
              if Uuid.Parse userIDStr then
                match claims token !! "phone_number" with
                | Some (CStr phoneNumber) =>
                    Next [("user_id", userIDStr);
                          ("phone_number", phoneNumber)]
                | _ => unauthorized "Invalid token claims"
                end
              else unauthorized "Invalid user ID in token"
          | _ => unauthorized "Invalid token claims"
          end
      end
  end.

End JWTAuthMiddleware.

(* ===================================================================== *)
(** ** handlers: AuthHandler (auth_handler.go) *)
(* ===================================================================== *)

Module Binding.

(** The [numeric] validator: [^[-+]?[0-9]+(?:\.[0-9]+)?$]. *)
Fixpoint drop_digits (s : string) : string :=
  match s with
  | String c s' => if Strconv.is_digit c then drop_digits s' else s
  | EmptyString => s
  end.

Definition starts_with_digit (s : string) : bool :=
  match s with
  | String c _ => Strconv.is_digit c
  | EmptyString => false
  end.

Definition numeric (s : string) : bool :=
  let s1 :=
    match s with
    | String "-" r => r
    | String "+" r => r
    | _ => s
    end in
  starts_with_digit s1 &&
  match drop_digits s1 with
  | EmptyString => true
  | String "." r =>
      starts_with_digit r && String.eqb (drop_digits r) ""
  | _ => false
  end.

Definition field_error (struct_ field tag : string) : string :=
  "Key: '" +:+ struct_ +:+ "." +:+ field
  +:+ "' Error:Field validation for '" +:+ field
  +:+ "' failed on the '" +:+ tag +:+ "' tag".

Definition newline : string := String (ascii_of_nat 10) "".

Fixpoint join_lines (l : list string) : string :=
  match l with
  | [] => ""
  | [x] => x
  | x :: rest => x +:+ newline +:+ join_lines rest
  end.

(** [ShouldBindJSON(&models.RequestOTPRequest{})]: the phone number, or
    the error text. *)
Definition RequestOTPRequest (b : RequestBody) : result string :=
  match b with
  | BodyJSON phone_number _ =>
      if String.eqb phone_number "" then
        Err (field_error "RequestOTPRequest" "PhoneNumber" "required")
      else Ok phone_number
  | BodyNotJSON => Err "invalid character looking for beginning of value"
  | BodyUnreadable => Err "unexpected EOF"
  end.

(** [ShouldBindJSON(&models.VerifyOTPRequest{})] with the tags
    [required] on [PhoneNumber] and [required,len=6,numeric] on [OTP]:
    every field reports its first failing tag. *)
Definition VerifyOTPRequest (b : RequestBody) : result (string * string) :=
  match b with
  | BodyJSON phone_number otp =>
      let e1 :=
        if String.eqb phone_number "" then
          [field_error "VerifyOTPRequest" "PhoneNumber" "required"]
        else [] in
      let e2 :=
        if String.eqb otp "" then
          [field_error "VerifyOTPRequest" "OTP" "required"]
        else if negb (Nat.eqb (Strconv.rune_count otp) 6) then
          [field_error "VerifyOTPRequest" "OTP" "len"]
        else if negb (numeric otp) then
          [field_error "VerifyOTPRequest" "OTP" "numeric"]
        else [] in
      match e1 ++ e2 with
      | [] => Ok (phone_number, otp)
      | errs => Err (join_lines errs)
      end
  | BodyNotJSON => Err "invalid character looking for beginning of value"
  | BodyUnreadable => Err "unexpected EOF"
  end.

End Binding.

Module AuthHandler.

Definition bad_request (msg : string) : Response :=
  JSON StatusBadRequest (ErrorResponse msg).

(** The shape test both handlers apply to the phone number; [true]
    means the handler rejects it. *)
Definition invalid_iranian_format (phoneNumber : string) : bool :=
  negb (String.prefix "+98" phoneNumber
        && Nat.eqb (String.length phoneNumber) 13)
  && negb (String.prefix "98" phoneNumber
           && Nat.eqb (String.length phoneNumber) 12)
  && negb (String.prefix "09" phoneNumber
           && Nat.eqb (String.length phoneNumber) 11).

Definition invalid_format_message : string :=
  "Invalid Iranian phone number format. "
  +:+ "Use +989XXXXXXXXX, 989XXXXXXXXX, or 09XXXXXXXXX".

Definition RequestOTP (config : Config) (req : Request) (w : World)
    : Response * World :=
  match Binding.RequestOTPRequest (Body req) with
  | Err _ => (bad_request "Invalid request format", w)
  | Ok phoneNumber =>
      if String.eqb phoneNumber "" then
        (bad_request "Phone number cannot be empty", w)
      else if invalid_iranian_format phoneNumber then
        (bad_request invalid_format_message, w)
      else
        let '(r, w) := AuthService.GenerateOTP config phoneNumber w in
        match r with
        | Panics => (JSON StatusInternalServerError NoPayload, w)
        | Returns (Err e) =>
            if String.eqb e "rate limit exceeded" then
              (JSON StatusTooManyRequests
                 (ErrorResponse "Rate limit exceeded"), w)
            else
              (JSON StatusInternalServerError
                 (ErrorResponse ("Error generating OTP: " +:+ e)), w)
        | Returns (Ok otp) =>
            let w := log (EvPrintOTP phoneNumber otp) w in
            (JSON StatusOK
               (RequestOTPResponse
                  "OTP sent successfully. Check server logs for the code."),
             w)
        end
  end.

Definition VerifyOTP (config : Config) (req : Request) (w : World)
    : Response * World :=
  match Binding.VerifyOTPRequest (Body req) with
  | Err e =>
      let errorMessage :=
        if String.eqb e
             ("Key: 'VerifyOTPRequest.PhoneNumber' Error:Field validation "
              +:+ "for 'PhoneNumber' failed on the 'iranianMobile' tag")
        then
          "Invalid phone number format. Use Iranian mobile format: "
          +:+ "+989XXXXXXXXX, 09XXXXXXXXX, or 9XXXXXXXXX"
        else if String.eqb e
             ("Key: 'VerifyOTPRequest.OTP' Error:Field validation "
              +:+ "for 'OTP' failed on the 'len' tag")
        then "OTP must be exactly 6 digits"
        else if String.eqb e
             ("Key: 'VerifyOTPRequest.OTP' Error:Field validation "
              +:+ "for 'OTP' failed on the 'numeric' tag")
        then "OTP must contain only numbers"
        else "Invalid request format" in
      (bad_request errorMessage, w)
  | Ok (phoneNumber, otp) =>
      if String.eqb phoneNumber "" then
        (bad_request "Phone number cannot be empty", w)
      else if invalid_iranian_format phoneNumber then
        (bad_request invalid_format_message, w)
      else
        let '(r, w) := AuthService.VerifyOTP config phoneNumber otp w in
        match r with
        | Err e =>
            if String.eqb e "invalid OTP"
               || String.eqb e
                    "error retrieving OTP: OTP not found or expired"
            then
              (JSON StatusUnauthorized
                 (ErrorResponse "Invalid or expired OTP"), w)
            else
              (JSON StatusInternalServerError
                 (ErrorResponse ("Error verifying OTP: " +:+ e)), w)
        | Ok (token, user) =>
            (JSON StatusOK (VerifyOTPResponse token user), w)
        end
  end.

End AuthHandler.

(* ===================================================================== *)
(** ** main: the routes of the [/v1/auth] group (main.go) *)
(* ===================================================================== *)

(** [auth.POST("/request-otp", rateLimitMiddleware.OTPRateLimit(...),
    authHandler.RequestOTP)]: the handler runs only if the middleware calls
    [Next]. *)
Definition request_otp_route (cfg : Config) (req : Request) (w : World)
    : Response * World :=
  let '(flow, w) :=
    RateLimitMiddleware.OTPRateLimit (Count (RateLimit (OTP cfg)))
      (GetRateLimitDuration cfg) req w in
  match flow with
  | Abort r => (r, w)
  | Next _ => AuthHandler.RequestOTP cfg req w
  end.

(** [auth.POST("/verify-otp", authHandler.VerifyOTP)]. *)
Definition verify_otp_route (cfg : Config) (req : Request) (w : World)
    : Response * World :=
  AuthHandler.VerifyOTP cfg req w.

(* ===================================================================== *)
(** ** Vocabulary of the properties *)
(* ===================================================================== *)

(** The world after the bookkeeping of a store operation: the event is
    in the trace and one slot of the fault schedule is used up. *)
Definition redis_done (e : Event) (w : World) : World :=
  with_redis_faults (tl (redis_faults w)) (log e w).

(** The same for an operation of the database. *)
Definition db_done (e : Event) (w : World) : World :=
  with_db_faults (tl (db_faults w)) (log e w).

(** Whether the next operation of a collaborator fails. *)
Definition next_fault (fs : faults) : option string := fst (pop_fault fs).

(** The code of the live challenge of an identity, if there is one. *)
Definition stored_code (w : World) (phoneNumber : string) : option string :=
  e_val <$> Redis.lookup_live w
              (RedisOTPRepository.otpKeyPrefix +:+ phoneNumber).

(** The errors of [VerifyOTP] that the handler answers with "Invalid or
    expired OTP". *)
Definition is_invalid_or_expired (msg : string) : bool :=
  String.eqb msg "invalid OTP"
  || String.eqb msg "error retrieving OTP: OTP not found or expired".

(** The world in which [VerifyOTP] resolves the user: the challenge has
    been fetched and deleted. *)
Definition after_consume (phoneNumber : string) (w : World) : World :=
  let key := RedisOTPRepository.otpKeyPrefix +:+ phoneNumber in
  with_redis (delete key (redis w))
    (redis_done (EvDel key) (redis_done (EvGet key) w)).

(** Two worlds with the same store, clock and store fault schedule. *)
Definition same_store (w w' : World) : Prop :=
  redis w' = redis w /\ now w' = now w /\ redis_faults w' = redis_faults w.

(** The directory can resolve an identity: it has the user, or the insert
    meets the constraints of the table. *)
Definition can_resolve (w : World) (phoneNumber : string) : bool :=
  match PostgresUserRepository.select_by_phone phoneNumber (users w) with
  | Some _ => true
  | None =>
      Nat.leb (Strconv.rune_count phoneNumber) 20
      && match PostgresUserRepository.select_by_id
                 (uuid_gen w (uuid_ctr w)) (users w) with
         | Some _ => false
         | None => true
         end
  end.

(** The key of the counter that [GenerateOTP] keeps for an identity. *)
Definition counter_key (phoneNumber : string) : string :=
  RedisOTPRepository.rateLimitKeyPrefix +:+ phoneNumber.

(** The keys of the two counters of the middleware. *)
Definition ip_key (req : Request) : string :=
  "rate_limit:otp:ip:" +:+ ClientIP req.
Definition phone_key (phoneNumber : string) : string :=
  "rate_limit:otp:phone:" +:+ phoneNumber.

(** The key a store event is about. *)
Definition event_key (e : Event) : option string :=
  match e with
  | EvGet k | EvSet k _ _ | EvDel k | EvIncr k | EvExists k => Some k
  | _ => None
  end.

(** The keys of the middleware for a request: the address counter and,
    for a request that names a phone number, the phone-number counter of
    the middleware. *)
Definition middleware_key (req : Request) (k : string) : Prop :=
  k = ip_key req
  \/ exists p otp, Body req = BodyJSON p otp /\ k = phone_key p.

(** The phone number a request names, as the middleware reads it from the
    body: a non-empty [phone_number] field. *)
Definition named_phone (req : Request) : option string :=
  match Body req with
  | BodyJSON p _ => if String.eqb p "" then None else Some p
  | _ => None
  end.

(** The two operations with which the middleware records a request under
    a counter: the read, then the creation with the window or the
    increment. *)
Definition recorded_under (k : string) (window : Z) (evs : list Event)
    : Prop :=
  evs = [EvGet k; EvSet k "1" window] \/ evs = [EvGet k; EvIncr k].

(** Every event is an operation on a counter of the middleware. *)
Definition on_middleware_keys (req : Request) (evs : list Event) : Prop :=
  Forall (fun e => exists k, event_key e = Some k /\ middleware_key req k)
    evs.

(** The store operations in a trace. *)
Definition store_trace (t : list Event) : list Event :=
  List.filter store_event t.

(** C1 as the specification states it, for one request in one world: the
    request is rejected as invalid and no operation of the store has
    happened. *)
Definition rejected_before_store (cfg : Config) (req : Request) (w : World)
    : Prop :=
  let r := request_otp_route cfg req w in
  status (fst r) = StatusBadRequest
  /\ store_trace (trace (snd r)) = store_trace (trace w)
  /\ redis (snd r) = redis w.

(** Sequential calls of [GenerateOTP] for one identity; before each call
    the given time passes. *)
Fixpoint GenerateOTP_seq (cfg : Config) (phoneNumber : string)
    (delays : list Z) (w : World)
    : list (outcome (result string)) * World :=
  match delays with
  | [] => ([], w)
  | d :: ds =>
      let '(r, w1) := AuthService.GenerateOTP cfg phoneNumber (elapse d w) in
      let '(rs, w2) := GenerateOTP_seq cfg phoneNumber ds w1 in
      (r :: rs, w2)
  end.

Definition admitted (r : outcome (result string)) : bool :=
  match r with
  | Returns (Ok _) => true
  | _ => false
  end.

Definition sum_delays (ds : list Z) : Z := fold_right Z.add 0 ds.

(** The same for whole requests on the route. *)
Fixpoint request_otp_seq (cfg : Config) (req : Request) (delays : list Z)
    (w : World) : list Response * World :=
  match delays with
  | [] => ([], w)
  | d :: ds =>
      let '(r, w1) := request_otp_route cfg req (elapse d w) in
      let '(rs, w2) := request_otp_seq cfg req ds w1 in
      (r :: rs, w2)
  end.

Definition accepted (r : Response) : bool := status r =? StatusOK.

(** The three counters a request for a code meets, all live until [x]:
    the address counter at [a], the phone-number counter of the middleware
    and the counter of the service at [n]; the store works. *)
Definition counters_at (req : Request) (p : string) (w : World)
    (a n x : Z) : Prop :=
  redis_faults w = []
  /\ redis w !! ip_key req = Some (Entry (Strconv.FormatInt a) (Some x))
  /\ redis w !! phone_key p = Some (Entry (Strconv.FormatInt n) (Some x))
  /\ redis w !! counter_key p = Some (Entry (Strconv.FormatInt n) (Some x)).

(** None of the three counters is live. *)
Definition counters_absent (req : Request) (p : string) (w : World) : Prop :=
  Redis.lookup_live w (ip_key req) = None
  /\ Redis.lookup_live w (phone_key p) = None
  /\ Redis.lookup_live w (counter_key p) = None.

(** Sequential requests through [RateLimit]. *)
Fixpoint RateLimit_seq (limit window : Z) (req : Request) (delays : list Z)
    (w : World) : list Flow * World :=
  match delays with
  | [] => ([], w)
  | d :: ds =>
      let '(f, w1) :=
        RateLimitMiddleware.RateLimit limit window req (elapse d w) in
      let '(fs, w2) := RateLimit_seq limit window req ds w1 in
      (f :: fs, w2)
  end.

Definition passes (f : Flow) : bool :=
  match f with
  | Next _ => true
  | Abort _ => false
  end.

(** The key of the counter of [RateLimit]. *)
Definition address_key (req : Request) : string :=
  "rate_limit:ip:" +:+ ClientIP req.

(** What the two responses of the identity scope and of the validation
    look like. *)
Definition invalid_or_expired : Response :=
  JSON StatusUnauthorized (ErrorResponse "Invalid or expired OTP").

Definition too_many_for_phone : Response :=
  JSON StatusTooManyRequests
    (ErrorResponse "Too many OTP requests for this phone number").

(** The identity in a request for a code is malformed when the handler's
    own checks reject it. *)
Definition malformed_identity (req : Request) : bool :=
  match Binding.RequestOTPRequest (Body req) with
  | Err _ => true
  | Ok phoneNumber =>
      String.eqb phoneNumber ""
      || AuthHandler.invalid_iranian_format phoneNumber
  end.

(** Two messages the handlers hold ready. *)
Definition empty_phone_message : string := "Phone number cannot be empty".

Definition iranianMobile_message : string :=
  "Invalid phone number format. Use Iranian mobile format: "
  +:+ "+989XXXXXXXXX, 09XXXXXXXXX, or 9XXXXXXXXX".

(** Sequential attempts at the verification from one address for one
    phone number: each attempt is the time that passes before it and the
    code submitted. *)
Fixpoint verify_otp_seq (cfg : Config) (ip p : string)
    (attempts : list (Z * string)) (w : World) : list Response * World :=
  match attempts with
  | [] => ([], w)
  | (d, c) :: rest =>
      let '(r, w1) :=
        verify_otp_route cfg
          {| ClientIP := ip; Body := BodyJSON p c;
             Authorization := AuthEmpty |} (elapse d w) in
      let '(rs, w2) := verify_otp_seq cfg ip p rest w1 in
      (r :: rs, w2)
  end.

(** An attempt that passes binding with a code other than [s]. *)
Definition wrong_guess (p s : string) (a : Z * string) : Prop :=
  0 <= fst a /\ snd a <> s
  /\ Binding.VerifyOTPRequest (BodyJSON p (snd a)) = Ok (p, snd a).

(* ===================================================================== *)
(** ** Sample data *)
(* ===================================================================== *)

(** The configuration of the documentation: six digits, 120 seconds,
    three requests per ten minutes, tokens for 24 hours. *)
Definition sample_config : Config :=
  {| JWT := {| Secret := "secret"; ExpirationHours := 24 |};
     OTP := {| Expiration := 120; Length := 6;
               RateLimit := {| Count := 3; Time := 10 |} |} |}.

Definition empty_world : World :=
  {| now := 0; redis := ∅; redis_faults := []; users := [];
     db_faults := [];
     uuid_gen := fun _ => "6ba7b810-9dad-41d1-80b4-00c04fd430c8";
     uuid_ctr := 0; prng := fun seed => seed; sign_faults := [];
     trace := [] |}.

Definition sample_phone : string := "09123456789".

(** A world in which the code 123456 is stored for [sample_phone] and
    expires after 120 seconds. *)
Definition world_with_challenge : World :=
  with_redis {[ "otp:09123456789" := Entry "123456" (Some (120 * Second)) ]}
    empty_world.

Definition verify_request (otp : string) : Request :=
  {| ClientIP := "192.0.2.1"; Body := BodyJSON sample_phone otp;
     Authorization := AuthEmpty |}.

Definition otp_request (phone_number : string) : Request :=
  {| ClientIP := "192.0.2.1"; Body := BodyJSON phone_number "";
     Authorization := AuthEmpty |}.

(** The phone-number counter of the middleware has reached the limit of
    [sample_config]. *)
Definition world_phone_limited : World :=
  with_redis
    {[ "rate_limit:otp:phone:09123456789" := Entry "3" (Some (600 * Second)) ]}
    empty_world.

(** The database is down: its next two operations fail. *)
Definition world_db_down : World :=
  with_db_faults [Some "connection refused"; Some "connection refused"]
    world_with_challenge.

Definition sample_claims : gmap string ClaimValue :=
  <["user_id" := CStr "6ba7b810-9dad-41d1-80b4-00c04fd430c8"]>
    (<["phone_number" := CStr sample_phone]>
       (<["exp" := CNum 86400]> ∅)).

(** A token for [sample_claims] signed with HS384 and the secret of
    [sample_config]. *)
Definition hs384_token : Token :=
  Jwt.SignedString "HS384" "secret" sample_claims.

Definition bearer_request (t : Token) : Request :=
  {| ClientIP := "192.0.2.1"; Body := BodyNotJSON;
     Authorization := AuthBearer (Some t) |}.


(* ===================================================================== *)
(** * Properties *)
(* ===================================================================== *)

(** ** Machine integers and decimal text *)

Lemma wrap64_small (z : Z) : in_int64 z -> wrap64 z = z.
Proof.
  unfold in_int64, min_int64, max_int64, wrap64. intros H.
  rewrite Z.mod_small; lia.
Qed.

Lemma wrap64_range (z : Z) : in_int64 (wrap64 z).
Proof.
  unfold in_int64, min_int64, max_int64, wrap64.
  pose proof (Z.mod_pos_bound (z + 2 ^ 63) (2 ^ 64)). lia.
Qed.

Lemma digit_val_digit_char (d : Z) :
  0 <= d < 10 -> Strconv.digit_val (Strconv.digit_char d) = Some d.
Proof.
  intros H.
  assert (d = 0 \/ d = 1 \/ d = 2 \/ d = 3 \/ d = 4 \/ d = 5 \/ d = 6
          \/ d = 7 \/ d = 8 \/ d = 9) as Hd by lia.
  repeat (destruct Hd as [-> | Hd]; [reflexivity |]). subst. reflexivity.
Qed.

Lemma is_digit_digit_char (d : Z) :
  Strconv.is_digit (Strconv.digit_char d) = true.
Proof.
  unfold Strconv.is_digit.
  destruct ((0 <=? d) && (d <? 10)) eqn:Hd.
  - apply andb_true_iff in Hd as [H0 H9].
    apply Z.leb_le in H0. apply Z.ltb_lt in H9.
    rewrite digit_val_digit_char by lia. reflexivity.
  - unfold Strconv.digit_char. rewrite Hd. reflexivity.
Qed.

(** Reading back the digits that were printed gives the number. *)
Lemma parse_fmt_digits (fuel : nat) :
  forall (n : Z) (acc : string),
    0 <= n < 2 ^ Z.of_nat fuel ->
    Strconv.parse_digits (Strconv.fmt_digits fuel n acc) 0
    = Strconv.parse_digits acc n.
Proof.
  induction fuel as [| f IH]; intros n acc Hn.
  - simpl in *. replace n with 0 by lia. reflexivity.
  - cbn [Strconv.fmt_digits].
    assert (Hmod : 0 <= n mod 10 < 10) by (apply Z.mod_pos_bound; lia).
    destruct (n <? 10) eqn:Hlt.
    + apply Z.ltb_lt in Hlt. rewrite Z.mod_small by lia.
      cbn [Strconv.parse_digits]. rewrite digit_val_digit_char by lia.
      f_equal.
    + apply Z.ltb_ge in Hlt.
      rewrite IH.
      * cbn [Strconv.parse_digits]. rewrite digit_val_digit_char by lia.
        f_equal. pose proof (Z.div_mod n 10). lia.
      * split; [apply Z.div_pos; lia |].
        apply Z.div_lt_upper_bound; [lia |].
        rewrite Nat2Z.inj_succ, Z.pow_succ_r in Hn by lia. lia.
Qed.

Lemma fuel_enough (n : Z) :
  0 <= n -> n < 2 ^ Z.of_nat (S (Z.to_nat (Z.log2 n))).
Proof.
  intros Hn. rewrite Nat2Z.inj_succ, Z2Nat.id by apply Z.log2_nonneg.
  destruct (Z.eq_dec n 0) as [-> | Hne]; [reflexivity |].
  apply Z.log2_spec. lia.
Qed.

Lemma parse_fmt_nat (n : Z) :
  0 <= n -> Strconv.parse_digits (Strconv.fmt_nat n) 0 = Some n.
Proof.
  intros Hn. unfold Strconv.fmt_nat.
  rewrite parse_fmt_digits by (split; [lia | apply fuel_enough; lia]).
  reflexivity.
Qed.

(** The printed number starts with a digit. *)
Lemma fmt_digits_head (fuel : nat) :
  forall (n : Z) (acc : string),
    exists c rest,
      Strconv.fmt_digits (S fuel) n acc = String c rest
      /\ Strconv.is_digit c = true.
Proof.
  induction fuel as [| f IH]; intros n acc.
  - cbn. destruct (n <? 10); eexists _, _;
      (split; [reflexivity | apply is_digit_digit_char]).
  - change (Strconv.fmt_digits (S (S f)) n acc)
      with (let acc' := String (Strconv.digit_char (n mod 10)) acc in
            if n <? 10 then acc'
            else Strconv.fmt_digits (S f) (n / 10) acc').
    cbv zeta. destruct (n <? 10).
    + eexists _, _. split; [reflexivity | apply is_digit_digit_char].
    + apply IH.
Qed.

Lemma Atoi_unsigned (c : ascii) (rest : string) :
  Strconv.is_digit c = true ->
  Strconv.Atoi (String c rest)
  = match Strconv.parse_digits (String c rest) 0 with
    | Some n =>
        if (min_int64 <=? n) && (n <=? max_int64) then Some n else None
    | None => None
    end.
Proof.
  intros Hc.
  destruct c as [[] [] [] [] [] [] [] []]; try discriminate Hc; reflexivity.
Qed.

(** [Atoi] reads back what [FormatInt] printed. *)
Lemma Atoi_FormatInt (n : Z) :
  in_int64 n -> Strconv.Atoi (Strconv.FormatInt n) = Some n.
Proof.
  intros [Hlo Hhi]. unfold Strconv.FormatInt.
  destruct (n <? 0) eqn:Hneg.
  - apply Z.ltb_lt in Hneg.
    destruct (fmt_digits_head (Z.to_nat (Z.log2 (- n))) (- n) "")
      as (c & rest & Heq & Hc).
    pose proof (parse_fmt_nat (- n) ltac:(lia)) as Hp.
    unfold Strconv.fmt_nat in *. rewrite Heq in *.
    unfold Strconv.Atoi. rewrite Hp.
    replace (- - n) with n by lia.
    assert ((min_int64 <=? n) && (n <=? max_int64) = true) as ->
        by (apply andb_true_iff; split; apply Z.leb_le; lia).
    reflexivity.
  - apply Z.ltb_ge in Hneg.
    destruct (fmt_digits_head (Z.to_nat (Z.log2 n)) n "")
      as (c & rest & Heq & Hc).
    pose proof (parse_fmt_nat n ltac:(lia)) as Hp.
    unfold Strconv.fmt_nat in *. rewrite Heq in *.
    rewrite Atoi_unsigned by exact Hc. rewrite Hp.
    assert ((min_int64 <=? n) && (n <=? max_int64) = true) as ->
        by (apply andb_true_iff; split; apply Z.leb_le; lia).
    reflexivity.
Qed.

Lemma FormatInt_inj (a b : Z) :
  in_int64 a -> in_int64 b ->
  Strconv.FormatInt a = Strconv.FormatInt b -> a = b.
Proof.
  intros Ha Hb Heq.
  pose proof (Atoi_FormatInt a Ha) as H1.
  rewrite Heq, (Atoi_FormatInt b Hb) in H1. congruence.
Qed.

Lemma int_value_FormatInt (n : Z) :
  in_int64 n -> Redis.int_value (Strconv.FormatInt n) = Some n.
Proof.
  intros Hn. unfold Redis.int_value.
  rewrite Atoi_FormatInt by exact Hn. rewrite String.eqb_refl. reflexivity.
Qed.

(** ** Code generation *)

Lemma fmt_digits_length (k : nat) :
  forall (fuel : nat) (n : Z) (acc : string),
    10 ^ Z.of_nat k <= n < 10 ^ Z.of_nat (S k) -> (k < fuel)%nat ->
    String.length (Strconv.fmt_digits fuel n acc)
    = S (k + String.length acc).
Proof.
  induction k as [| k IH]; intros fuel n acc Hn Hf;
    (destruct fuel as [| f]; [lia |]); cbn [Strconv.fmt_digits].
  - change (10 ^ Z.of_nat 0) with 1 in Hn.
    change (10 ^ Z.of_nat 1) with 10 in Hn.
    assert ((n <? 10) = true) as -> by (apply Z.ltb_lt; lia). reflexivity.
  - rewrite (Nat2Z.inj_succ (S k)), Z.pow_succ_r in Hn by lia.
    rewrite (Nat2Z.inj_succ k) in Hn.
    rewrite Z.pow_succ_r in Hn by lia.
    assert (0 < 10 ^ Z.of_nat k) by (apply Z.pow_pos_nonneg; lia).
    assert ((n <? 10) = false) as -> by (apply Z.ltb_ge; lia).
    rewrite IH.
    + cbn [String.length]. lia.
    + rewrite (Nat2Z.inj_succ k), Z.pow_succ_r by lia. split.
      * apply Z.div_le_lower_bound; lia.
      * apply Z.div_lt_upper_bound; lia.
    + lia.
Qed.

Lemma fmt_digits_all_digits (fuel : nat) :
  forall (n : Z) (acc : string),
    Strconv.all_digits acc = true ->
    Strconv.all_digits (Strconv.fmt_digits fuel n acc) = true.
Proof.
  induction fuel as [| f IH]; intros n acc Hacc; cbn [Strconv.fmt_digits].
  - exact Hacc.
  - assert (Strconv.all_digits
              (String (Strconv.digit_char (n mod 10)) acc) = true) as Hd
        by (cbn [Strconv.all_digits]; rewrite is_digit_digit_char; exact Hacc).
    destruct (n <? 10); [exact Hd | apply IH, Hd].
Qed.

Lemma fmt_digits_leading (fuel : nat) :
  forall (n : Z) (acc : string),
    1 <= n < 2 ^ Z.of_nat fuel ->
    exists d, 1 <= d < 10 /\
      Strconv.first_char (Strconv.fmt_digits fuel n acc)
      = Some (Strconv.digit_char d).
Proof.
  induction fuel as [| f IH]; intros n acc Hn.
  - change (2 ^ Z.of_nat 0) with 1 in Hn. lia.
  - cbn [Strconv.fmt_digits]. destruct (n <? 10) eqn:Hlt.
    + apply Z.ltb_lt in Hlt. exists n. rewrite Z.mod_small by lia.
      split; [lia | reflexivity].
    + apply Z.ltb_ge in Hlt. apply IH. split.
      * apply Z.div_le_lower_bound; lia.
      * apply Z.div_lt_upper_bound; [lia |].
        rewrite Nat2Z.inj_succ, Z.pow_succ_r in Hn by lia. lia.
Qed.

Lemma digit_char_nonzero (d : Z) :
  1 <= d < 10 -> Strconv.digit_char d <> "0"%char.
Proof.
  intros H.
  assert (d = 1 \/ d = 2 \/ d = 3 \/ d = 4 \/ d = 5 \/ d = 6
          \/ d = 7 \/ d = 8 \/ d = 9) as Hd by lia.
  repeat (destruct Hd as [-> | Hd]; [discriminate |]). subst. discriminate.
Qed.

Lemma powInt_loop_exact (k : nat) :
  forall r : Z,
    0 <= r -> r * 10 ^ Z.of_nat k <= max_int64 ->
    powInt_loop k 10 r = r * 10 ^ Z.of_nat k.
Proof.
  induction k as [| k IH]; intros r Hr Hmax.
  - cbn [powInt_loop]. change (10 ^ Z.of_nat 0) with 1. lia.
  - cbn [powInt_loop]. rewrite Nat2Z.inj_succ, Z.pow_succ_r in * by lia.
    assert (0 < 10 ^ Z.of_nat k) by (apply Z.pow_pos_nonneg; lia).
    rewrite wrap64_small by (unfold in_int64, min_int64, max_int64 in *; nia).
    rewrite IH by nia. lia.
Qed.

Lemma powInt_10 (y : Z) : 0 <= y <= 18 -> powInt 10 y = 10 ^ y.
Proof.
  intros Hy. unfold powInt. rewrite powInt_loop_exact.
  - rewrite Z2Nat.id by lia. lia.
  - lia.
  - rewrite Z2Nat.id by lia.
    assert (10 ^ y <= 10 ^ 18) by (apply Z.pow_le_mono_r; lia).
    unfold max_int64. lia.
Qed.

(** For code lengths 1 to 19 nothing wraps: the code is the decimal text
    of a number between [10^(L-1)] and [9 * 10^(L-1)], both included, and
    the draw [sample mod (8 * 10^(L-1) + 1)] selects it. *)
Lemma generateRandomOTP_value (sample length : Z) :
  1 <= length <= 19 ->
  generateRandomOTP sample length
  = Some (Strconv.FormatInt
            (10 ^ (length - 1) + sample mod (8 * 10 ^ (length - 1) + 1))).
Proof.
  intros HL. unfold generateRandomOTP, Int63n.
  assert (Hp : 0 < 10 ^ (length - 1)) by (apply Z.pow_pos_nonneg; lia).
  assert (Hq : 10 ^ (length - 1) <= 10 ^ 18)
    by (apply Z.pow_le_mono_r; lia).
  change (10 ^ 18) with 1000000000000000000 in Hq.
  rewrite (wrap64_small (length - 1))
    by (unfold in_int64, min_int64, max_int64; lia).
  rewrite powInt_10 by lia.
  rewrite (wrap64_small (1 * _))
    by (unfold in_int64, min_int64, max_int64; lia).
  rewrite (wrap64_small (9 * _))
    by (unfold in_int64, min_int64, max_int64; lia).
  rewrite (wrap64_small (_ - _))
    by (unfold in_int64, min_int64, max_int64; lia).
  rewrite (wrap64_small (_ - _ + 1))
    by (unfold in_int64, min_int64, max_int64; lia).
  assert ((8 * 10 ^ (length - 1) + 1 <=? 0) = false) as Hn
      by (apply Z.leb_gt; lia).
  replace (9 * 10 ^ (length - 1) - 1 * 10 ^ (length - 1) + 1)
    with (8 * 10 ^ (length - 1) + 1) by lia.
  rewrite Hn.
  pose proof (Z.mod_pos_bound sample (8 * 10 ^ (length - 1) + 1)
                ltac:(lia)) as Hv.
  rewrite wrap64_small
    by (unfold in_int64, min_int64, max_int64; lia).
  do 2 f_equal. lia.
Qed.

(** X2.  The shape of a code: for a length from 1 to 19 the generator
    returns a code of exactly that many decimal digits whose first digit is
    not 0. *)
Lemma generateRandomOTP_shape (sample length : Z) :
  1 <= length <= 19 ->
  exists otp d,
    generateRandomOTP sample length = Some otp
    /\ String.length otp = Z.to_nat length
    /\ Strconv.all_digits otp = true
    /\ 1 <= d < 10
    /\ Strconv.first_char otp = Some (Strconv.digit_char d).
Proof.
  intros HL. rewrite generateRandomOTP_value by exact HL.
  set (p := 10 ^ (length - 1)).
  assert (Hp : 0 < p) by (apply Z.pow_pos_nonneg; lia).
  pose proof (Z.mod_pos_bound sample (8 * p + 1) ltac:(lia)) as Hv.
  set (v := p + sample mod (8 * p + 1)) in *.
  assert (Hv' : p <= v <= 9 * p) by (unfold v; lia).
  assert (Hk : Z.of_nat (Z.to_nat (length - 1)) = length - 1)
    by (apply Z2Nat.id; lia).
  assert (Hlog : length - 1 <= Z.log2 v).
  { rewrite <- (Z.log2_pow2 (length - 1)) by lia.
    apply Z.log2_le_mono.
    assert (2 ^ (length - 1) <= 10 ^ (length - 1))
      by (apply Z.pow_le_mono_l; lia).
    fold p in H. lia. }
  unfold Strconv.FormatInt.
  assert ((v <? 0) = false) as -> by (apply Z.ltb_ge; lia).
  destruct (fmt_digits_leading (S (Z.to_nat (Z.log2 v))) v "")
    as (d & Hd & Hfirst).
  { split; [lia | apply fuel_enough; lia]. }
  exists (Strconv.fmt_nat v), d. repeat split; try lia; try exact Hfirst.
  - unfold Strconv.fmt_nat.
    rewrite (fmt_digits_length (Z.to_nat (length - 1))).
    + cbn [String.length]. lia.
    + rewrite Nat2Z.inj_succ, Hk, Z.pow_succ_r by lia. fold p. lia.
    + lia.
  - apply fmt_digits_all_digits. reflexivity.
Qed.

(** Within its range the code is determined by the draw, and distinct
    draws give distinct codes: a uniform draw is a uniform code on the
    range [10^(L-1) .. 9 * 10^(L-1)]. *)
Lemma generateRandomOTP_inj (s1 s2 length : Z) :
  1 <= length <= 19 ->
  generateRandomOTP s1 length = generateRandomOTP s2 length ->
  s1 mod (8 * 10 ^ (length - 1) + 1) = s2 mod (8 * 10 ^ (length - 1) + 1).
Proof.
  intros HL. rewrite !generateRandomOTP_value by exact HL.
  assert (Hp : 0 < 10 ^ (length - 1)) by (apply Z.pow_pos_nonneg; lia).
  assert (Hq : 10 ^ (length - 1) <= 10 ^ 18)
    by (apply Z.pow_le_mono_r; lia).
  change (10 ^ 18) with 1000000000000000000 in Hq.
  pose proof (Z.mod_pos_bound s1 (8 * 10 ^ (length - 1) + 1) ltac:(lia)).
  pose proof (Z.mod_pos_bound s2 (8 * 10 ^ (length - 1) + 1) ltac:(lia)).
  intros Heq. injection Heq as Heq.
  apply FormatInt_inj in Heq;
    unfold in_int64, min_int64, max_int64; lia.
Qed.

(** C2 (the code departs from the claim).  With the default code length 6
    the text ["999999"] is a six-digit numeric string whose leading digit
    is not zero, yet no draw of the generator makes [generateRandomOTP]
    return it: the upper bound of the draw is [9 * 10^(L-1)], not
    [10^L - 1]. *)
Theorem generateRandomOTP_skips_999999 :
  String.length "999999" = 6%nat
  /\ Strconv.all_digits "999999" = true
  /\ Strconv.first_char "999999" = Some "9"%char
  /\ forall sample : Z, generateRandomOTP sample 6 <> Some "999999".
Proof.
  repeat split. intros sample.
  rewrite generateRandomOTP_value by lia.
  change (10 ^ (6 - 1)) with 100000.
  pose proof (Z.mod_pos_bound sample (8 * 100000 + 1) ltac:(lia)) as Hv.
  intros Heq. injection Heq as Heq.
  change "999999" with (Strconv.FormatInt 999999) in Heq.
  apply FormatInt_inj in Heq;
    unfold in_int64, min_int64, max_int64; lia.
Qed.

(** ** The store primitives when the operation does not fail *)

Lemma pop_fault_eq (fs : faults) : pop_fault fs = (next_fault fs, tl fs).
Proof. destruct fs; reflexivity. Qed.

Lemma start_eq (e : Event) (w : World) :
  Redis.start e w = (next_fault (redis_faults w), redis_done e w).
Proof.
  unfold Redis.start, redis_done. cbn [redis_faults log].
  rewrite pop_fault_eq. reflexivity.
Qed.

Lemma Get_ok (k : string) (w : World) :
  next_fault (redis_faults w) = None ->
  Redis.Get k w
  = (match Redis.lookup_live w k with
     | Some e => Redis.Val (e_val e)
     | None => Redis.Nil
     end, redis_done (EvGet k) w).
Proof.
  intros H. unfold Redis.Get. rewrite start_eq, H.
  change (Redis.lookup_live (redis_done (EvGet k) w) k)
    with (Redis.lookup_live w k).
  destruct (Redis.lookup_live w k); reflexivity.
Qed.

Lemma Get_fault (k : string) (w : World) (msg : string) :
  next_fault (redis_faults w) = Some msg ->
  Redis.Get k w = (Redis.Fault msg, redis_done (EvGet k) w).
Proof. intros H. unfold Redis.Get. rewrite start_eq, H. reflexivity. Qed.

Lemma Set_ok (k v : string) (x : Z) (w : World) :
  next_fault (redis_faults w) = None ->
  Redis.Set_ k v x w
  = (Redis.Val tt,
     with_redis (<[k := Entry v (Redis.expiry_for w k x)]> (redis w))
       (redis_done (EvSet k v x) w)).
Proof. intros H. unfold Redis.Set_. rewrite start_eq, H. reflexivity. Qed.

Lemma Del_ok (k : string) (w : World) :
  next_fault (redis_faults w) = None ->
  Redis.Del k w
  = (Redis.Val (if Redis.has_live w k then 1 else 0),
     with_redis (delete k (redis w)) (redis_done (EvDel k) w)).
Proof. intros H. unfold Redis.Del. rewrite start_eq, H. reflexivity. Qed.

Lemma Exists_ok (k : string) (w : World) :
  next_fault (redis_faults w) = None ->
  Redis.Exists k w
  = (Redis.Val (if Redis.has_live w k then 1 else 0),
     redis_done (EvExists k) w).
Proof. intros H. unfold Redis.Exists. rewrite start_eq, H. reflexivity. Qed.

Lemma Incr_ok (k : string) (w : World) (e : entry) (n : Z) :
  next_fault (redis_faults w) = None ->
  Redis.lookup_live w k = Some e ->
  Redis.int_value (e_val e) = Some n -> n < max_int64 ->
  Redis.Incr k w
  = (Redis.Val (n + 1),
     with_redis
       (<[k := Entry (Strconv.FormatInt (n + 1)) (e_exp e)]> (redis w))
       (redis_done (EvIncr k) w)).
Proof.
  intros H Hl Hv Hn. unfold Redis.Incr. rewrite start_eq, H.
  change (Redis.lookup_live (redis_done (EvIncr k) w) k)
    with (Redis.lookup_live w k).
  rewrite Hl, Hv.
  assert ((max_int64 <=? n) = false) as -> by (apply Z.leb_gt; lia).
  reflexivity.
Qed.

(** A key that has just been deleted is not there, at any later time. *)
Lemma lookup_live_deleted (k : string) (w : World) (m : gmap string entry) :
  redis w = delete k m -> Redis.lookup_live w k = None.
Proof.
  intros H. unfold Redis.lookup_live. rewrite H, lookup_delete_eq.
  reflexivity.
Qed.

(** ** Verification of a code *)

Lemma GetOTP_ok (p : string) (w : World) :
  next_fault (redis_faults w) = None ->
  RedisOTPRepository.GetOTP p w
  = (match stored_code w p with
     | Some c => Ok c
     | None => Err "OTP not found or expired"
     end,
     redis_done (EvGet (RedisOTPRepository.otpKeyPrefix +:+ p)) w).
Proof.
  intros H. unfold RedisOTPRepository.GetOTP, stored_code.
  rewrite Get_ok by exact H.
  destruct (Redis.lookup_live w _); reflexivity.
Qed.

Lemma DeleteOTP_ok (p : string) (w : World) :
  next_fault (redis_faults w) = None ->
  RedisOTPRepository.DeleteOTP p w
  = (Ok tt,
     with_redis (delete (RedisOTPRepository.otpKeyPrefix +:+ p) (redis w))
       (redis_done (EvDel (RedisOTPRepository.otpKeyPrefix +:+ p)) w)).
Proof.
  intros H. unfold RedisOTPRepository.DeleteOTP.
  rewrite Del_ok by exact H. reflexivity.
Qed.

Lemma VerifyOTP_absent (cfg : Config) (p c : string) (w : World) :
  next_fault (redis_faults w) = None ->
  stored_code w p = None ->
  AuthService.VerifyOTP cfg p c w
  = (Err "error retrieving OTP: OTP not found or expired",
     redis_done (EvGet (RedisOTPRepository.otpKeyPrefix +:+ p)) w).
Proof.
  intros H Hs. unfold AuthService.VerifyOTP.
  rewrite GetOTP_ok by exact H. rewrite Hs. reflexivity.
Qed.

Lemma VerifyOTP_mismatch (cfg : Config) (p c s : string) (w : World) :
  next_fault (redis_faults w) = None ->
  stored_code w p = Some s -> s <> c ->
  AuthService.VerifyOTP cfg p c w
  = (Err "invalid OTP",
     redis_done (EvGet (RedisOTPRepository.otpKeyPrefix +:+ p)) w).
Proof.
  intros H Hs Hne. unfold AuthService.VerifyOTP.
  rewrite GetOTP_ok by exact H. rewrite Hs.
  apply String.eqb_neq in Hne. rewrite Hne. reflexivity.
Qed.

Lemma VerifyOTP_match (cfg : Config) (p c : string) (w : World) :
  next_fault (redis_faults w) = None ->
  next_fault (tl (redis_faults w)) = None ->
  stored_code w p = Some c ->
  AuthService.VerifyOTP cfg p c w
  = AuthService.VerifyOTP_login cfg p (after_consume p w).
Proof.
  intros H1 H2 Hs. unfold AuthService.VerifyOTP.
  rewrite GetOTP_ok by exact H1. rewrite Hs, String.eqb_refl.
  cbn [negb]. rewrite DeleteOTP_ok by exact H2. reflexivity.
Qed.

(** Resolving the user and signing never touch the store or the clock. *)
Lemma FindByPhoneNumber_world (p : string) (w : World) :
  snd (PostgresUserRepository.FindByPhoneNumber p w)
  = with_db_faults (tl (db_faults w)) (log (EvFindByPhoneNumber p) w).
Proof.
  unfold PostgresUserRepository.FindByPhoneNumber,
    PostgresUserRepository.start.
  cbn [db_faults log]. rewrite pop_fault_eq.
  destruct (next_fault (db_faults w)); [reflexivity |].
  destruct (PostgresUserRepository.select_by_phone _ _); reflexivity.
Qed.

Lemma Create_world (p : string) (w : World) :
  let w' := snd (PostgresUserRepository.Create p w) in
  same_store w w' /\ trace w' = trace w ++ [EvCreate p]
  /\ sign_faults w' = sign_faults w.
Proof.
  unfold PostgresUserRepository.Create, PostgresUserRepository.start,
    same_store.
  cbn [db_faults log uuid_drawn]. rewrite pop_fault_eq.
  destruct (next_fault (db_faults w)); [cbn; auto |].
  destruct (Nat.ltb 20 _); [cbn; auto |].
  destruct (PostgresUserRepository.select_by_phone _ _); [cbn; auto |].
  destruct (PostgresUserRepository.select_by_id _ _); cbn; auto.
Qed.

Lemma generateJWT_world (cfg : Config) (u : User) (w : World) :
  snd (AuthService.generateJWT cfg u w)
  = with_sign_faults (tl (sign_faults w))
      (log (EvSign (ID u) (PhoneNumber u)) w).
Proof.
  unfold AuthService.generateJWT. cbn [sign_faults log].
  rewrite pop_fault_eq. destruct (next_fault (sign_faults w)); reflexivity.
Qed.

Lemma VerifyOTP_login_frame (cfg : Config) (p : string) (w : World) :
  let w' := snd (AuthService.VerifyOTP_login cfg p w) in
  same_store w w'
  /\ exists rest,
       trace w' = trace w ++ EvFindByPhoneNumber p :: rest
       /\ Forall (fun e => store_event e = false) rest
       /\ (forall msg,
             fst (PostgresUserRepository.FindByPhoneNumber p w) = Err msg ->
             exists rest', rest = EvCreate p :: rest').
Proof.
  unfold AuthService.VerifyOTP_login.
  pose proof (FindByPhoneNumber_world p w) as Hf.
  destruct (PostgresUserRepository.FindByPhoneNumber p w) as [r w1].
  cbn [fst snd] in *. subst w1.
  set (w1 := with_db_faults _ _).
  destruct r as [user | e].
  - pose proof (generateJWT_world cfg user w1) as Hj.
    destruct (AuthService.generateJWT cfg user w1) as [r w2].
    cbn [snd] in Hj. subst w2.
    assert (Hgoal :
      same_store w (with_sign_faults (tl (sign_faults w1))
                      (log (EvSign (ID user) (PhoneNumber user)) w1))
      /\ exists rest,
           trace (with_sign_faults (tl (sign_faults w1))
                    (log (EvSign (ID user) (PhoneNumber user)) w1))
           = trace w ++ EvFindByPhoneNumber p :: rest
           /\ Forall (fun e => store_event e = false) rest
           /\ (forall msg, @Ok User user = Err msg ->
                 exists rest', rest = EvCreate p :: rest')).
    { split; [repeat split |].
      exists [EvSign (ID user) (PhoneNumber user)].
      split; [cbn; rewrite <- app_assoc; reflexivity |].
      split; [repeat constructor | discriminate]. }
    destruct r; exact Hgoal.
  - pose proof (Create_world p w1) as Hc.
    destruct (PostgresUserRepository.Create p w1) as [r w2].
    cbn [snd] in Hc. destruct Hc as ((Hr & Hn & Hrf) & Ht & Hs).
    destruct r as [user | e'].
    + pose proof (generateJWT_world cfg user w2) as Hj.
      destruct (AuthService.generateJWT cfg user w2) as [r w3].
      cbn [snd] in Hj. subst w3.
      assert (Hgoal :
        same_store w (with_sign_faults (tl (sign_faults w2))
                        (log (EvSign (ID user) (PhoneNumber user)) w2))
        /\ exists rest,
             trace (with_sign_faults (tl (sign_faults w2))
                      (log (EvSign (ID user) (PhoneNumber user)) w2))
             = trace w ++ EvFindByPhoneNumber p :: rest
             /\ Forall (fun e => store_event e = false) rest
             /\ (forall msg, @Err User e = Err msg ->
                   exists rest', rest = EvCreate p :: rest')).
      { split; [repeat split; cbn; assumption |].
        exists [EvCreate p; EvSign (ID user) (PhoneNumber user)].
        split; [cbn; rewrite Ht; cbn; rewrite <- !app_assoc; reflexivity |].
        split; [repeat constructor | intros; eexists; reflexivity]. }
      destruct r; exact Hgoal.
    + cbn [fst snd]. split; [repeat split; assumption |].
      exists [EvCreate p].
      split; [rewrite Ht; cbn; rewrite <- !app_assoc; reflexivity |].
      split; [repeat constructor | intros; eexists; reflexivity].
Qed.

Lemma FindByPhoneNumber_ok (p : string) (w : World) :
  next_fault (db_faults w) = None ->
  PostgresUserRepository.FindByPhoneNumber p w
  = (match PostgresUserRepository.select_by_phone p (users w) with
     | Some user => Ok user
     | None =>
         Err ("error finding user by phone number: "
              +:+ "sql: no rows in result set")
     end, db_done (EvFindByPhoneNumber p) w).
Proof.
  intros H.
  unfold PostgresUserRepository.FindByPhoneNumber,
    PostgresUserRepository.start.
  cbn [db_faults log]. rewrite pop_fault_eq, H.
  change (users (with_db_faults _ _)) with (users w).
  destruct (PostgresUserRepository.select_by_phone p (users w)); reflexivity.
Qed.

Lemma Create_ok (p : string) (w : World) :
  next_fault (db_faults w) = None ->
  (Strconv.rune_count p <= 20)%nat ->
  PostgresUserRepository.select_by_phone p (users w) = None ->
  PostgresUserRepository.select_by_id (uuid_gen w (uuid_ctr w)) (users w)
  = None ->
  let user :=
    {| ID := uuid_gen w (uuid_ctr w); PhoneNumber := p;
       CreatedAt := now w; UpdatedAt := now w |} in
  PostgresUserRepository.Create p w
  = (Ok user, with_new_user user (db_done (EvCreate p) (uuid_drawn w))).
Proof.
  intros H Hlen Hp Hid.
  unfold PostgresUserRepository.Create, PostgresUserRepository.start.
  cbn [db_faults log uuid_drawn]. rewrite pop_fault_eq, H.
  change (users (with_db_faults _ _)) with (users w).
  change (now (with_db_faults _ _)) with (now w).
  assert (Nat.ltb 20 (Strconv.rune_count p) = false) as ->
      by (apply Nat.ltb_ge; exact Hlen).
  rewrite Hp, Hid. reflexivity.
Qed.

Lemma generateJWT_ok (cfg : Config) (user : User) (w : World) :
  next_fault (sign_faults w) = None ->
  exists token : Token,
    fst (AuthService.generateJWT cfg user w) = Ok token.
Proof.
  intros H. unfold AuthService.generateJWT. cbn [sign_faults log].
  rewrite pop_fault_eq, H. eexists. reflexivity.
Qed.

Lemma VerifyOTP_login_ok (cfg : Config) (p : string) (w : World) :
  db_faults w = [] -> sign_faults w = [] -> can_resolve w p = true ->
  exists token user,
    fst (AuthService.VerifyOTP_login cfg p w) = Ok (token, user).
Proof.
  intros Hdb Hsg Hres. unfold AuthService.VerifyOTP_login, can_resolve in *.
  rewrite FindByPhoneNumber_ok by (rewrite Hdb; reflexivity).
  destruct (PostgresUserRepository.select_by_phone p (users w))
    as [u |] eqn:Hsel.
  - destruct (generateJWT_ok cfg u (db_done (EvFindByPhoneNumber p) w))
      as (token & Htok); [cbn; rewrite Hsg; reflexivity |].
    destruct (AuthService.generateJWT cfg u _) as [r w2].
    cbn [fst] in Htok. subst r. eexists _, _. reflexivity.
  - apply andb_true_iff in Hres as [Hlen Hid].
    apply Nat.leb_le in Hlen.
    destruct (PostgresUserRepository.select_by_id _ (users w)) eqn:Hsid;
      [discriminate |].
    rewrite Create_ok;
      [| cbn; rewrite Hdb; reflexivity | exact Hlen | exact Hsel
       | exact Hsid].
    cbv zeta.
    match goal with
    | |- context [AuthService.generateJWT cfg ?u ?w1] =>
        destruct (generateJWT_ok cfg u w1) as (token & Htok);
          [cbn; rewrite Hsg; reflexivity |];
        destruct (AuthService.generateJWT cfg u w1) as [r w2]
    end.
    cbn [fst] in Htok. subst r. eexists _, _. reflexivity.
Qed.

(** A successful verification has deleted the challenge. *)
Lemma VerifyOTP_Ok_consumed (cfg : Config) (p c : string) (w : World)
    (x : Token * User) :
  fst (AuthService.VerifyOTP cfg p c w) = Ok x ->
  forall d,
    stored_code (elapse d (snd (AuthService.VerifyOTP cfg p c w))) p = None.
Proof.
  unfold AuthService.VerifyOTP, RedisOTPRepository.GetOTP,
    RedisOTPRepository.DeleteOTP, Redis.Get, Redis.Del.
  rewrite start_eq.
  destruct (next_fault (redis_faults w)); [discriminate |].
  destruct (Redis.lookup_live _ _) as [e |]; [| discriminate].
  destruct (negb _); [discriminate |].
  rewrite start_eq.
  destruct (next_fault _); [discriminate |].
  intros _ d.
  match goal with
  | |- context [AuthService.VerifyOTP_login cfg p ?w1] =>
      destruct (VerifyOTP_login_frame cfg p w1) as ((Hr & _ & _) & _)
  end.
  unfold stored_code. erewrite lookup_live_deleted; [reflexivity |].
  cbn [redis elapse]. rewrite Hr. reflexivity.
Qed.

Lemma invalid_iranian_format_nonempty (p : string) :
  AuthHandler.invalid_iranian_format p = false -> String.eqb p "" = false.
Proof. destruct p; [discriminate | reflexivity]. Qed.

(** C6.  A request to verify a code that passes the format checks gets the
    same response, 401 "Invalid or expired OTP", when no challenge is
    stored for the identity (absent or expired) and when a challenge is
    stored whose code differs from the submitted one. *)
Theorem verify_absent_and_wrong_code_same_response
    (cfg : Config) (req : Request) (p c : string) (w : World) :
  Binding.VerifyOTPRequest (Body req) = Ok (p, c) ->
  AuthHandler.invalid_iranian_format p = false ->
  next_fault (redis_faults w) = None ->
  (stored_code w p = None ->
   fst (verify_otp_route cfg req w) = invalid_or_expired)
  /\ (forall s : string,
        stored_code w p = Some s -> s <> c ->
        fst (verify_otp_route cfg req w) = invalid_or_expired).
Proof.
  intros Hbind Hfmt Hnf.
  unfold verify_otp_route, AuthHandler.VerifyOTP.
  rewrite Hbind, (invalid_iranian_format_nonempty p Hfmt), Hfmt.
  split.
  - intros Hs. rewrite VerifyOTP_absent by assumption. reflexivity.
  - intros s Hs Hne. rewrite (VerifyOTP_mismatch cfg p c s) by assumption.
    reflexivity.
Qed.

(** C7.  A verification with a code that differs from the stored one
    fails with "invalid OTP" and only reads the store: the store is
    unchanged, so at any later instant at which the challenge has not
    expired it is still there, and the correct code then verifies (a token
    is returned when the store, the directory and the signer work). *)
Theorem wrong_code_leaves_challenge
    (cfg : Config) (p c s : string) (w : World) :
  next_fault (redis_faults w) = None ->
  stored_code w p = Some s -> s <> c ->
  let w' := snd (AuthService.VerifyOTP cfg p c w) in
  fst (AuthService.VerifyOTP cfg p c w) = Err "invalid OTP"
  /\ redis w' = redis w
  /\ trace w' = trace w ++ [EvGet (RedisOTPRepository.otpKeyPrefix +:+ p)]
  /\ forall d : Z,
       stored_code (elapse d w) p = Some s ->
       stored_code (elapse d w') p = Some s
       /\ (redis_faults w' = [] -> db_faults w' = [] ->
           sign_faults w' = [] -> can_resolve w' p = true ->
           exists token user,
             fst (AuthService.VerifyOTP cfg p s (elapse d w'))
             = Ok (token, user)).
Proof.
  intros Hnf Hs Hne. cbv zeta.
  rewrite (VerifyOTP_mismatch cfg p c s) by assumption. cbn [fst snd].
  split; [reflexivity |]. split; [reflexivity |]. split; [reflexivity |].
  intros d Hlive. split; [exact Hlive |].
  intros Hrf Hdb Hsg Hres.
  rewrite VerifyOTP_match.
  - apply VerifyOTP_login_ok; assumption.
  - cbn [redis_faults elapse]. rewrite Hrf. reflexivity.
  - cbn [redis_faults elapse]. rewrite Hrf. reflexivity.
  - exact Hlive.
Qed.

(** C8.  After a request to verify a code has been answered with a token,
    the same request repeated at any later time is answered with 401
    "Invalid or expired OTP". *)
Theorem verified_code_is_single_use
    (cfg : Config) (req : Request) (w : World) (token : Token) (user : User)
    (d : Z) :
  fst (verify_otp_route cfg req w)
  = JSON StatusOK (VerifyOTPResponse token user) ->
  next_fault (redis_faults (snd (verify_otp_route cfg req w))) = None ->
  fst (verify_otp_route cfg req (elapse d (snd (verify_otp_route cfg req w))))
  = invalid_or_expired.
Proof.
  unfold verify_otp_route, AuthHandler.VerifyOTP.
  destruct (Binding.VerifyOTPRequest (Body req)) as [[p c] | e];
    [| discriminate].
  destruct (String.eqb p ""); [discriminate |].
  destruct (AuthHandler.invalid_iranian_format p); [discriminate |].
  pose proof (VerifyOTP_Ok_consumed cfg p c w) as Hc.
  destruct (AuthService.VerifyOTP cfg p c w) as [[[tok u] | e] w1].
  - cbn [fst snd] in *. intros _ Hnf.
    rewrite VerifyOTP_absent.
    + reflexivity.
    + exact Hnf.
    + apply (Hc _ eq_refl).
  - cbn [fst]. destruct (_ || _); discriminate.
Qed.

Lemma VerifyOTP_login_create_fails
    (cfg : Config) (p : string) (w : World) (e1 e2 : string) :
  fst (PostgresUserRepository.FindByPhoneNumber p w) = Err e1 ->
  fst (PostgresUserRepository.Create p
         (snd (PostgresUserRepository.FindByPhoneNumber p w))) = Err e2 ->
  fst (AuthService.VerifyOTP_login cfg p w)
  = Err ("error creating user: " +:+ e2).
Proof.
  unfold AuthService.VerifyOTP_login.
  destruct (PostgresUserRepository.FindByPhoneNumber p w) as [r w1].
  cbn [fst snd]. intros ->.
  destruct (PostgresUserRepository.Create p w1) as [r2 w2].
  cbn [fst]. intros ->. reflexivity.
Qed.

Lemma generateJWT_fails (cfg : Config) (user : User) (w : World) (e : string) :
  next_fault (sign_faults w) = Some e ->
  fst (AuthService.generateJWT cfg user w) = Err e.
Proof.
  intros H. unfold AuthService.generateJWT. cbn [sign_faults log].
  rewrite pop_fault_eq, H. reflexivity.
Qed.

Lemma VerifyOTP_login_sign_fails
    (cfg : Config) (p : string) (w : World) (e : string) :
  next_fault (sign_faults w) = Some e ->
  fst (AuthService.VerifyOTP_login cfg p w)
  = Err ("error generating JWT: " +:+ e)
  \/ exists e' : string,
       fst (AuthService.VerifyOTP_login cfg p w)
       = Err ("error creating user: " +:+ e').
Proof.
  intros Hsg. unfold AuthService.VerifyOTP_login.
  pose proof (FindByPhoneNumber_world p w) as Hf.
  destruct (PostgresUserRepository.FindByPhoneNumber p w) as [r w1].
  cbn [snd] in Hf.
  assert (Hsg1 : next_fault (sign_faults w1) = Some e)
    by (subst w1; exact Hsg).
  destruct r as [user | e1].
  - pose proof (generateJWT_fails cfg user w1 e Hsg1) as Hj.
    destruct (AuthService.generateJWT cfg user w1) as [r2 w2].
    cbn [fst] in Hj. subst r2. left. reflexivity.
  - pose proof (Create_world p w1) as (_ & _ & Hs).
    destruct (PostgresUserRepository.Create p w1) as [r2 w2].
    cbn [snd] in Hs. destruct r2 as [user | e2].
    + pose proof (generateJWT_fails cfg user w2 e
                    ltac:(rewrite Hs; exact Hsg1)) as Hj.
      destruct (AuthService.generateJWT cfg user w2) as [r3 w3].
      cbn [fst] in Hj. subst r3. left. reflexivity.
    + right. eexists. reflexivity.
Qed.

(** C9.  When the submitted code matches the stored one, the challenge is
    deleted before the user is looked up, and nothing touches the store
    afterwards: whatever the outcome, the challenge is gone.  If the
    creation of the user fails, or the signing of the token does, the call
    returns an error; and after an error a retry with the same code is
    answered as invalid or expired. *)
Theorem challenge_consumed_before_login
    (cfg : Config) (p c : string) (w : World) :
  next_fault (redis_faults w) = None ->
  next_fault (tl (redis_faults w)) = None ->
  stored_code w p = Some c ->
  let key := RedisOTPRepository.otpKeyPrefix +:+ p in
  let r := fst (AuthService.VerifyOTP cfg p c w) in
  let w' := snd (AuthService.VerifyOTP cfg p c w) in
  let w1 := after_consume p w in
  (exists rest : list Event,
     trace w'
     = trace w ++ EvGet key :: EvDel key :: EvFindByPhoneNumber p :: rest
     /\ Forall (fun e => store_event e = false) rest)
  /\ (forall d : Z, stored_code (elapse d w') p = None)
  /\ (forall e1 e2 : string,
        fst (PostgresUserRepository.FindByPhoneNumber p w1) = Err e1 ->
        fst (PostgresUserRepository.Create p
               (snd (PostgresUserRepository.FindByPhoneNumber p w1)))
        = Err e2 ->
        r = Err ("error creating user: " +:+ e2))
  /\ (forall e : string,
        next_fault (sign_faults w) = Some e ->
        r = Err ("error generating JWT: " +:+ e)
        \/ exists e' : string, r = Err ("error creating user: " +:+ e'))
  /\ (forall msg : string,
        r = Err msg ->
        forall d : Z,
          next_fault (redis_faults w') = None ->
          exists msg' : string,
            fst (AuthService.VerifyOTP cfg p c (elapse d w')) = Err msg'
            /\ is_invalid_or_expired msg' = true).
Proof.
  intros H1 H2 Hs. cbv zeta.
  rewrite VerifyOTP_match by assumption.
  destruct (VerifyOTP_login_frame cfg p (after_consume p w))
    as ((Hr & Hn & Hrf) & rest & Ht & Hrest & _).
  assert (Hgone : forall d,
             stored_code
               (elapse d (snd (AuthService.VerifyOTP_login cfg p
                                 (after_consume p w)))) p = None).
  { intros d. unfold stored_code.
    erewrite lookup_live_deleted; [reflexivity |].
    cbn [redis elapse]. rewrite Hr. reflexivity. }
  split; [| split; [| split; [| split]]].
  - exists rest. split; [| exact Hrest].
    rewrite Ht. cbn. rewrite <- !app_assoc. reflexivity.
  - exact Hgone.
  - intros e1 e2. apply VerifyOTP_login_create_fails.
  - intros e Hsg. apply VerifyOTP_login_sign_fails. exact Hsg.
  - intros msg _ d Hnf.
    eexists. rewrite VerifyOTP_absent; [split; reflexivity | | apply Hgone].
    exact Hnf.
Qed.

(** C10.  When the submitted code has matched and the challenge has been
    deleted, every error of the lookup by phone number, whatever its
    text, is followed by an attempt to create the user; in particular a
    failure of the database during the lookup is. *)
Theorem lookup_error_leads_to_create
    (cfg : Config) (p c : string) (w : World) :
  next_fault (redis_faults w) = None ->
  next_fault (tl (redis_faults w)) = None ->
  stored_code w p = Some c ->
  let key := RedisOTPRepository.otpKeyPrefix +:+ p in
  let w' := snd (AuthService.VerifyOTP cfg p c w) in
  (forall msg : string,
     fst (PostgresUserRepository.FindByPhoneNumber p (after_consume p w))
     = Err msg ->
     exists rest : list Event,
       trace w'
       = trace w
         ++ EvGet key :: EvDel key :: EvFindByPhoneNumber p
            :: EvCreate p :: rest)
  /\ (forall failure : string,
        next_fault (db_faults w) = Some failure ->
        fst (PostgresUserRepository.FindByPhoneNumber p (after_consume p w))
        = Err ("error finding user by phone number: " +:+ failure)).
Proof.
  intros H1 H2 Hs. cbv zeta. split.
  - intros msg Hfind.
    rewrite VerifyOTP_match by assumption.
    destruct (VerifyOTP_login_frame cfg p (after_consume p w))
      as (_ & rest & Ht & _ & Hcreate).
    destruct (Hcreate msg Hfind) as (rest' & ->).
    exists rest'. rewrite Ht. cbn. rewrite <- !app_assoc. reflexivity.
  - intros failure Hf.
    unfold PostgresUserRepository.FindByPhoneNumber,
      PostgresUserRepository.start.
    cbn [db_faults log after_consume with_redis redis_done with_redis_faults].
    rewrite pop_fault_eq, Hf. reflexivity.
Qed.

Lemma verify_absent_and_wrong_code_same_response_witness :
  fst (verify_otp_route sample_config (verify_request "123456") empty_world)
  = invalid_or_expired
  /\ fst (verify_otp_route sample_config (verify_request "654321")
            world_with_challenge)
     = invalid_or_expired.
Proof.
  split.
  - apply (verify_absent_and_wrong_code_same_response sample_config
             (verify_request "123456") sample_phone "123456" empty_world);
      reflexivity.
  - apply (verify_absent_and_wrong_code_same_response sample_config
             (verify_request "654321") sample_phone "654321"
             world_with_challenge) with (s := "123456");
      [reflexivity | reflexivity | reflexivity | vm_compute; reflexivity
      | discriminate].
Defined.

Lemma wrong_code_leaves_challenge_witness :
  fst (AuthService.VerifyOTP sample_config sample_phone "654321"
         world_with_challenge) = Err "invalid OTP"
  /\ exists token user,
       fst (AuthService.VerifyOTP sample_config sample_phone "123456"
              (elapse (60 * Second)
                 (snd (AuthService.VerifyOTP sample_config sample_phone
                         "654321" world_with_challenge))))
       = Ok (token, user).
Proof.
  destruct (wrong_code_leaves_challenge sample_config sample_phone
              "654321" "123456" world_with_challenge)
    as (Herr & _ & _ & Hlater);
    [reflexivity | vm_compute; reflexivity | discriminate |].
  split; [exact Herr |].
  destruct (Hlater (60 * Second)) as (_ & Hok);
    [vm_compute; reflexivity |].
  apply Hok; vm_compute; reflexivity.
Defined.

(** ** The counter of [GenerateOTP] *)

Lemma otp_key_not_counter_key (p : string) :
  RedisOTPRepository.otpKeyPrefix +:+ p <> counter_key p.
Proof. discriminate. Qed.

Lemma lookup_live_Some (w : World) (k v : string) (x : Z) :
  redis w !! k = Some (Entry v (Some x)) -> now w < x ->
  Redis.lookup_live w k = Some (Entry v (Some x)).
Proof.
  intros H Hx. unfold Redis.lookup_live, Redis.live_at. rewrite H.
  cbn [e_exp]. assert ((now w <? x) = true) as -> by (apply Z.ltb_lt; lia).
  reflexivity.
Qed.

Lemma lookup_live_expired (w : World) (k v : string) (x : Z) :
  redis w !! k = Some (Entry v (Some x)) -> x <= now w ->
  Redis.lookup_live w k = None.
Proof.
  intros H Hx. unfold Redis.lookup_live, Redis.live_at. rewrite H.
  cbn [e_exp]. assert ((now w <? x) = false) as -> by (apply Z.ltb_ge; lia).
  reflexivity.
Qed.

Lemma generateRandomOTP_returns (sample length : Z) :
  1 <= length <= 19 -> exists otp, generateRandomOTP sample length = Some otp.
Proof. intros H. rewrite generateRandomOTP_value by exact H. eauto. Qed.

(** The first request of a window: no live counter. *)
Lemma GenerateOTP_fresh (cfg : Config) (p : string) (w : World) :
  redis_faults w = [] ->
  Redis.lookup_live w (counter_key p) = None ->
  1 <= Count (RateLimit (OTP cfg)) ->
  0 < GetRateLimitDuration cfg ->
  1 <= Length (OTP cfg) <= 19 ->
  exists otp w',
    AuthService.GenerateOTP cfg p w = (Returns (Ok otp), w')
    /\ now w' = now w /\ redis_faults w' = []
    /\ redis w' !! counter_key p
       = Some (Entry "1" (Some (now w + GetRateLimitDuration cfg))).
Proof.
  intros Hrf Hc Hlim Hwin Hlen.
  destruct (generateRandomOTP_returns (prng w (now w)) _ Hlen)
    as (otp & Hotp).
  unfold AuthService.GenerateOTP, RedisOTPRepository.CheckRateLimit,
    RedisOTPRepository.StoreOTP, RedisOTPRepository.IncrementRateLimit.
  fold (counter_key p).
  rewrite Get_ok by (rewrite Hrf; reflexivity). rewrite Hc.
  cbn [Redis.Int].
  assert ((Count (RateLimit (OTP cfg)) <=? 0) = false) as ->
      by (apply Z.leb_gt; lia).
  change (prng (redis_done _ w)) with (prng w).
  change (now (redis_done _ w)) with (now w).
  rewrite Hotp.
  rewrite Set_ok by (cbn; rewrite Hrf; reflexivity).
  rewrite Exists_ok by (cbn; rewrite Hrf; reflexivity).
  match goal with
  | |- context [Redis.has_live ?w1 (counter_key p)] =>
      assert (Redis.has_live w1 (counter_key p) = false) as ->
  end.
  { unfold Redis.has_live, Redis.lookup_live. cbn [redis with_redis redis_done
      with_redis_faults log now].
    rewrite lookup_insert_ne by apply otp_key_not_counter_key.
    unfold Redis.lookup_live in Hc.
    destruct (redis w !! counter_key p) as [e |]; [| reflexivity].
    destruct (Redis.live_at (now w) e); [discriminate | reflexivity]. }
  cbn [Z.eqb].
  rewrite Set_ok by (cbn; rewrite Hrf; reflexivity).
  eexists _, _. split; [reflexivity |].
  split; [reflexivity |].
  split; [cbn; rewrite Hrf; reflexivity |].
  cbn [redis with_redis]. rewrite lookup_insert_eq.
  unfold Redis.expiry_for.
  assert ((0 <? GetRateLimitDuration cfg) = true) as ->
      by (apply Z.ltb_lt; lia).
  reflexivity.
Qed.

(** A later request of the window: the counter is live and below the
    limit. *)
Lemma GenerateOTP_below (cfg : Config) (p : string) (w : World) (n x : Z) :
  redis_faults w = [] ->
  redis w !! counter_key p = Some (Entry (Strconv.FormatInt n) (Some x)) ->
  now w < x ->
  0 <= n < Count (RateLimit (OTP cfg)) ->
  Count (RateLimit (OTP cfg)) <= max_int64 ->
  1 <= Length (OTP cfg) <= 19 ->
  exists otp w',
    AuthService.GenerateOTP cfg p w = (Returns (Ok otp), w')
    /\ now w' = now w /\ redis_faults w' = []
    /\ redis w' !! counter_key p
       = Some (Entry (Strconv.FormatInt (n + 1)) (Some x)).
Proof.
  intros Hrf Hc Hx Hn Hmax Hlen.
  assert (Hin : in_int64 n)
    by (unfold in_int64, min_int64, max_int64 in *; lia).
  destruct (generateRandomOTP_returns (prng w (now w)) _ Hlen)
    as (otp & Hotp).
  unfold AuthService.GenerateOTP, RedisOTPRepository.CheckRateLimit,
    RedisOTPRepository.StoreOTP, RedisOTPRepository.IncrementRateLimit.
  fold (counter_key p).
  rewrite Get_ok by (rewrite Hrf; reflexivity).
  rewrite (lookup_live_Some w _ _ x Hc Hx).
  cbn [Redis.Int e_val]. rewrite Atoi_FormatInt by exact Hin.
  assert ((Count (RateLimit (OTP cfg)) <=? n) = false) as ->
      by (apply Z.leb_gt; lia).
  change (prng (redis_done _ w)) with (prng w).
  change (now (redis_done _ w)) with (now w).
  rewrite Hotp.
  rewrite Set_ok by (cbn; rewrite Hrf; reflexivity).
  rewrite Exists_ok by (cbn; rewrite Hrf; reflexivity).
  match goal with
  | |- context [Redis.has_live ?w1 (counter_key p)] =>
      assert (Hl1 : Redis.lookup_live w1 (counter_key p)
                  = Some (Entry (Strconv.FormatInt n) (Some x)))
  end.
  { apply lookup_live_Some; [| exact Hx].
    cbn [redis with_redis].
    rewrite lookup_insert_ne by apply otp_key_not_counter_key. exact Hc. }
  unfold Redis.has_live at 1. rewrite Hl1. cbn [Z.eqb].
  erewrite Incr_ok;
    [| cbn; rewrite Hrf; reflexivity
     | apply Hl1
     | cbn [e_val]; apply int_value_FormatInt; exact Hin
     | lia ].
  eexists _, _. split; [reflexivity |].
  split; [reflexivity |].
  split; [cbn; rewrite Hrf; reflexivity |].
  cbn [redis with_redis e_exp]. rewrite lookup_insert_eq. reflexivity.
Qed.

(** A request when the counter has reached the limit: refused, and the
    store is left as it was. *)
Lemma GenerateOTP_at_limit (cfg : Config) (p : string) (w : World)
    (n x : Z) :
  redis_faults w = [] ->
  redis w !! counter_key p = Some (Entry (Strconv.FormatInt n) (Some x)) ->
  now w < x ->
  Count (RateLimit (OTP cfg)) <= n -> in_int64 n ->
  AuthService.GenerateOTP cfg p w
  = (Returns (Err "rate limit exceeded"),
     redis_done (EvGet (counter_key p)) w).
Proof.
  intros Hrf Hc Hx Hn Hin.
  unfold AuthService.GenerateOTP, RedisOTPRepository.CheckRateLimit.
  fold (counter_key p).
  rewrite Get_ok by (rewrite Hrf; reflexivity).
  rewrite (lookup_live_Some w _ _ x Hc Hx).
  cbn [Redis.Int e_val]. rewrite Atoi_FormatInt by exact Hin.
  assert ((Count (RateLimit (OTP cfg)) <=? n) = true) as ->
      by (apply Z.leb_le; lia).
  reflexivity.
Qed.

(** Requests in sequence while the counter stays below the limit and the
    window has not elapsed: all are admitted, and the counter counts
    them. *)
Lemma GenerateOTP_seq_below (cfg : Config) (p : string) (ds : list Z) :
  forall (w : World) (n x : Z),
    redis_faults w = [] ->
    redis w !! counter_key p = Some (Entry (Strconv.FormatInt n) (Some x)) ->
    Forall (fun d => 0 <= d) ds ->
    now w + sum_delays ds < x ->
    0 <= n -> n + Z.of_nat (length ds) <= Count (RateLimit (OTP cfg)) ->
    Count (RateLimit (OTP cfg)) <= max_int64 ->
    1 <= Length (OTP cfg) <= 19 ->
    let rs := fst (GenerateOTP_seq cfg p ds w) in
    let w' := snd (GenerateOTP_seq cfg p ds w) in
    forallb admitted rs = true /\ length rs = length ds
    /\ redis_faults w' = [] /\ now w' = now w + sum_delays ds
    /\ redis w' !! counter_key p
       = Some (Entry (Strconv.FormatInt (n + Z.of_nat (length ds)))
                 (Some x)).
Proof.
  induction ds as [| d ds IH]; intros w n x Hrf Hc Hds Hx Hn Hlim Hmax Hlen.
  - cbn. rewrite !Z.add_0_r. repeat split; assumption.
  - cbn [GenerateOTP_seq]. inversion Hds as [| d' ds' Hd Hds']; subst.
    cbn [sum_delays fold_right] in Hx. fold (sum_delays ds) in Hx.
    assert (Hsum : 0 <= sum_delays ds).
    { clear -Hds'. induction Hds' as [| y l Hy _ IHl]; cbn; [lia |].
      fold (sum_delays l). lia. }
    cbn [length] in Hlim. rewrite Nat2Z.inj_succ in Hlim.
    destruct (GenerateOTP_below cfg p (elapse d w) n x)
      as (otp & w1 & Hgen & Hnow & Hrf1 & Hc1);
      try assumption; [cbn [now elapse]; lia | lia |].
    rewrite Hgen.
    specialize (IH w1 (n + 1) x Hrf1 Hc1 Hds').
    destruct (GenerateOTP_seq cfg p ds w1) as [rs w2].
    cbn [fst snd] in *.
    destruct IH as (Hall & Hlenrs & Hrf2 & Hnow2 & Hc2);
      try assumption; try lia.
    { rewrite Hnow. cbn [now elapse]. lia. }
    repeat split.
    + exact Hall.
    + cbn [length]. congruence.
    + exact Hrf2.
    + rewrite Hnow2, Hnow. cbn [now elapse sum_delays fold_right].
      fold (sum_delays ds). lia.
    + rewrite Hc2. do 3 f_equal. cbn [length]. lia.
Qed.

(** C4.  One identity, sequential requests: starting without a live
    counter, the first [limit] requests of the window are admitted, the
    next request in the same window is refused with "rate limit exceeded",
    and a request made once the window has elapsed is admitted again, the
    counter being set anew to 1 with a full window to live. *)
Theorem rate_limit_window
    (cfg : Config) (p : string) (w : World) (ds : list Z)
    (d_over d_next : Z) :
  let limit := Count (RateLimit (OTP cfg)) in
  let window := GetRateLimitDuration cfg in
  1 <= limit <= max_int64 -> 0 < window ->
  1 <= Length (OTP cfg) <= 19 ->
  redis_faults w = [] ->
  Redis.lookup_live w (counter_key p) = None ->
  Z.of_nat (length ds) = limit - 1 ->
  Forall (fun d => 0 <= d) ds -> 0 <= d_over ->
  sum_delays ds + d_over < window ->
  window <= sum_delays ds + d_over + d_next ->
  let first := GenerateOTP_seq cfg p (0 :: ds) w in
  let over := AuthService.GenerateOTP cfg p (elapse d_over (snd first)) in
  let next := AuthService.GenerateOTP cfg p (elapse d_next (snd over)) in
  Z.of_nat (length (fst first)) = limit
  /\ forallb admitted (fst first) = true
  /\ fst over = Returns (Err "rate limit exceeded")
  /\ admitted (fst next) = true
  /\ redis (snd next) !! counter_key p
     = Some (Entry "1" (Some (now (snd next) + window))).
Proof.
  intros limit window Hlim Hwin Hlen Hrf Hfresh Hcount Hds Hover Hin Hout.
  cbn [GenerateOTP_seq].
  destruct (GenerateOTP_fresh cfg p (elapse 0 w))
    as (otp & w1 & Hgen & Hnow1 & Hrf1 & Hc1); try assumption; try lia.
  { unfold Redis.lookup_live in *. cbn [redis now elapse].
    rewrite Z.add_0_r. exact Hfresh. }
  cbn [now elapse] in Hnow1, Hc1. rewrite Z.add_0_r in Hnow1, Hc1.
  rewrite Hgen.
  change "1" with (Strconv.FormatInt 1) in Hc1.
  pose proof (GenerateOTP_seq_below cfg p ds w1 1 (now w + window)
                Hrf1 Hc1 Hds) as Hseq.
  destruct (GenerateOTP_seq cfg p ds w1) as [rs w2].
  cbn [fst snd] in Hseq |- *.
  destruct Hseq as (Hall & Hlenrs & Hrf2 & Hnow2 & Hc2);
    try assumption; try (fold limit; lia).
  replace (1 + Z.of_nat (length ds)) with limit in Hc2 by lia.
  rewrite (GenerateOTP_at_limit cfg p (elapse d_over w2) limit
             (now w + window));
    try assumption;
    [| cbn [now elapse]; lia | fold limit; lia
     | unfold in_int64, min_int64, max_int64 in *; lia ].
  cbn [fst snd].
  destruct (GenerateOTP_fresh cfg p
              (elapse d_next
                 (redis_done (EvGet (counter_key p)) (elapse d_over w2))))
    as (otp' & w3 & Hgen' & Hnow3 & Hrf3 & Hc3);
    try assumption; try (fold limit; lia).
  { cbn. rewrite Hrf2. reflexivity. }
  { eapply lookup_live_expired; [exact Hc2 |]. cbn [now elapse redis_done
      with_redis_faults log]. lia. }
  rewrite Hgen'. cbn [fst snd admitted].
  repeat split.
  - cbn [length]. rewrite Hlenrs. lia.
  - exact Hall.
  - rewrite Hc3, Hnow3. reflexivity.
Qed.

Lemma rate_limit_window_witness :
  let first :=
    GenerateOTP_seq sample_config sample_phone [0; Second; Second]
      empty_world in
  let over :=
    AuthService.GenerateOTP sample_config sample_phone
      (elapse Second (snd first)) in
  let next :=
    AuthService.GenerateOTP sample_config sample_phone
      (elapse (600 * Second) (snd over)) in
  Z.of_nat (length (fst first)) = 3
  /\ forallb admitted (fst first) = true
  /\ fst over = Returns (Err "rate limit exceeded")
  /\ admitted (fst next) = true
  /\ redis (snd next) !! counter_key sample_phone
     = Some (Entry "1"
               (Some (now (snd next) + GetRateLimitDuration sample_config))).
Proof.
  apply (rate_limit_window sample_config sample_phone empty_world
           [Second; Second] Second (600 * Second));
    try (vm_compute; intuition congruence).
  repeat constructor; discriminate.
Defined.

(** ** The rate-limit middleware of the request for a code *)

Lemma Get_world (k : string) (w : World) :
  snd (Redis.Get k w) = redis_done (EvGet k) w.
Proof.
  unfold Redis.Get. rewrite start_eq.
  destruct (next_fault _); [reflexivity |].
  destruct (Redis.lookup_live _ _); reflexivity.
Qed.

Lemma Set_trace (k v : string) (x : Z) (w : World) :
  trace (snd (Redis.Set_ k v x w)) = trace w ++ [EvSet k v x].
Proof.
  unfold Redis.Set_. rewrite start_eq.
  destruct (next_fault _); reflexivity.
Qed.

Lemma Incr_trace (k : string) (w : World) :
  trace (snd (Redis.Incr k w)) = trace w ++ [EvIncr k].
Proof.
  unfold Redis.Incr. rewrite start_eq.
  destruct (next_fault _); [reflexivity |].
  destruct (Redis.lookup_live _ _) as [e |]; [| reflexivity].
  destruct (Redis.int_value _); [| reflexivity].
  destruct (_ <=? _); reflexivity.
Qed.

Lemma Set_other (k v : string) (x : Z) (w : World) (k' : string) :
  k <> k' -> redis (snd (Redis.Set_ k v x w)) !! k' = redis w !! k'.
Proof.
  intros Hne. unfold Redis.Set_. rewrite start_eq.
  destruct (next_fault _); [reflexivity |].
  cbn [snd redis with_redis]. rewrite lookup_insert_ne by exact Hne.
  reflexivity.
Qed.

Lemma Incr_other (k : string) (w : World) (k' : string) :
  k <> k' -> redis (snd (Redis.Incr k w)) !! k' = redis w !! k'.
Proof.
  intros Hne. unfold Redis.Incr. rewrite start_eq.
  destruct (next_fault _); [reflexivity |].
  destruct (Redis.lookup_live _ _) as [e |].
  - destruct (Redis.int_value _); [| reflexivity].
    destruct (_ <=? _); [reflexivity |].
    cbn [snd redis with_redis]. rewrite lookup_insert_ne by exact Hne.
    reflexivity.
  - cbn [snd redis with_redis]. rewrite lookup_insert_ne by exact Hne.
    reflexivity.
Qed.

Lemma int_value_Atoi (s : string) (n : Z) :
  Redis.int_value s = Some n -> Strconv.Atoi s = Some n.
Proof.
  unfold Redis.int_value. destruct (Strconv.Atoi s) as [m |]; [| discriminate].
  destruct (String.eqb _ _); [tauto | discriminate].
Qed.

Lemma ip_key_not_phone_key (req : Request) (p : string) :
  ip_key req <> phone_key p.
Proof. discriminate. Qed.

(** The identity scope refuses only after it has read its own counter,
    and it writes nothing. *)
Lemma OTPRateLimit_phone_denied
    (limit window : Z) (b : bool) (phoneKey : string) (w : World) :
  fst (RateLimitMiddleware.OTPRateLimit_phone limit window b phoneKey w)
  = Abort too_many_for_phone ->
  b = true
  /\ snd (RateLimitMiddleware.OTPRateLimit_phone limit window b phoneKey w)
     = redis_done (EvGet phoneKey) w.
Proof.
  unfold RateLimitMiddleware.OTPRateLimit_phone.
  destruct b; [| discriminate].
  pose proof (Get_world phoneKey w) as Hw.
  destruct (Redis.Get phoneKey w) as [r w1]. cbn [snd] in Hw. subst w1.
  destruct (Redis.Int r) as [phoneCount | | msg].
  - destruct (limit <=? phoneCount).
    + intros _. split; reflexivity.
    + destruct (Redis.Incr _ _). discriminate.
  - destruct (Redis.Set_ _ _ _ _). discriminate.
  - discriminate.
Qed.

(** C5.  When the middleware refuses a request for a code because of the
    phone-number counter, it has before that read the address counter and
    recorded the request there (set to 1 or incremented), and nothing
    follows the read of the phone-number counter: the address record is
    not taken back.  With a working store the address counter is 1, or one
    more than it was, and the phone-number counter is as it was. *)
Theorem identity_denial_keeps_address_record
    (limit window : Z) (req : Request) (w : World) :
  let w' := snd (RateLimitMiddleware.OTPRateLimit limit window req w) in
  fst (RateLimitMiddleware.OTPRateLimit limit window req w)
  = Abort too_many_for_phone ->
  exists (p otp : string) (record : Event),
    Body req = BodyJSON p otp
    /\ (record = EvSet (ip_key req) "1" window
        \/ record = EvIncr (ip_key req))
    /\ trace w'
       = trace w ++ [EvGet (ip_key req); record; EvGet (phone_key p)]
    /\ redis w' !! phone_key p = redis w !! phone_key p
    /\ (redis_faults w = [] ->
        (Redis.lookup_live w (ip_key req) = None ->
         redis w' !! ip_key req
         = Some (Entry "1" (Redis.expiry_for w (ip_key req) window)))
        /\ (forall (e : entry) (n : Z),
              Redis.lookup_live w (ip_key req) = Some e ->
              Redis.int_value (e_val e) = Some n ->
              redis w' !! ip_key req
              = Some (Entry (Strconv.FormatInt (n + 1)) (e_exp e)))).
Proof.
  cbv zeta. unfold RateLimitMiddleware.OTPRateLimit. fold (ip_key req).
  destruct (Body req) as [| | p otp] eqn:Hbody; [discriminate | |].
  - (* not JSON: the phone scope is skipped *)
    destruct (Redis.Get (ip_key req) w) as [r w1].
    destruct (Redis.Int r) as [ipCount | | msg]; [| | discriminate].
    + destruct (_ <=? _); [discriminate |].
      destruct (Redis.Incr _ _) as [? w2]. intros H.
      apply OTPRateLimit_phone_denied in H as [H _]. discriminate.
    + destruct (Redis.Set_ _ _ _ _) as [? w2]. intros H.
      apply OTPRateLimit_phone_denied in H as [H _]. discriminate.
  - destruct (negb (String.eqb p "")) eqn:Hp.
    2:{ destruct (Redis.Get (ip_key req) w) as [r w1].
        destruct (Redis.Int r) as [ipCount | | msg]; [| | discriminate].
        + destruct (_ <=? _); [discriminate |].
          destruct (Redis.Incr _ _) as [? w2]. intros H.
          apply OTPRateLimit_phone_denied in H as [H _]. discriminate.
        + destruct (Redis.Set_ _ _ _ _) as [? w2]. intros H.
          apply OTPRateLimit_phone_denied in H as [H _]. discriminate. }
    fold (phone_key p).
    pose proof (Get_world (ip_key req) w) as Hw.
    pose proof (Get_ok (ip_key req) w) as Hget.
    destruct (Redis.Get (ip_key req) w) as [r w1]. cbn [snd] in Hw. subst w1.
    destruct (Redis.Int r) as [ipCount | | msg] eqn:Hint; [| | discriminate].
    + (* the address counter exists *)
      destruct (wrap64 (limit * 2) <=? ipCount) eqn:Hcmp; [discriminate |].
      pose proof (Incr_trace (ip_key req) (redis_done (EvGet (ip_key req)) w))
        as Htr.
      pose proof (Incr_ok (ip_key req) (redis_done (EvGet (ip_key req)) w))
        as Hincr.
      pose proof (Incr_other (ip_key req)
                    (redis_done (EvGet (ip_key req)) w) (phone_key p)
                    (ip_key_not_phone_key req p)) as Hoth.
      destruct (Redis.Incr _ _) as [ri w2]. cbn [snd] in Htr, Hoth.
      intros H. apply OTPRateLimit_phone_denied in H as [_ H]. rewrite H.
      exists p, otp, (EvIncr (ip_key req)).
      split; [reflexivity |]. split; [right; reflexivity |].
      split; [cbn; rewrite Htr; cbn; rewrite <- !app_assoc; reflexivity |].
      split.
      * exact Hoth.
      * intros Hrf. specialize (Hget ltac:(rewrite Hrf; reflexivity)).
        injection Hget as Hr. subst r.
        destruct (Redis.lookup_live w (ip_key req)) as [e0 |] eqn:Hlive;
          [| discriminate Hint].
        split; [discriminate |].
        intros e n He Hn. injection He as <-.
        cbn [Redis.Int] in Hint.
        rewrite (int_value_Atoi _ _ Hn) in Hint. injection Hint as <-.
        apply Z.leb_gt in Hcmp.
        pose proof (wrap64_range (limit * 2)) as [_ Hmax].
        specialize (Hincr e0 n ltac:(cbn; rewrite Hrf; reflexivity)
                      Hlive Hn ltac:(lia)).
        injection Hincr as _ ->.
        cbn [redis redis_done with_redis with_redis_faults log].
        rewrite lookup_insert_eq. reflexivity.
    + (* no address counter: it is created *)
      pose proof (Set_trace (ip_key req) "1" window
                    (redis_done (EvGet (ip_key req)) w)) as Htr.
      pose proof (Set_ok (ip_key req) "1" window
                    (redis_done (EvGet (ip_key req)) w)) as Hset.
      pose proof (Set_other (ip_key req) "1" window
                    (redis_done (EvGet (ip_key req)) w) (phone_key p)
                    (ip_key_not_phone_key req p)) as Hoth.
      destruct (Redis.Set_ _ _ _ _) as [rs w2]. cbn [snd] in Htr, Hoth.
      intros H. apply OTPRateLimit_phone_denied in H as [_ H]. rewrite H.
      exists p, otp, (EvSet (ip_key req) "1" window).
      split; [reflexivity |]. split; [left; reflexivity |].
      split; [cbn; rewrite Htr; cbn; rewrite <- !app_assoc; reflexivity |].
      split; [exact Hoth |].
      intros Hrf. specialize (Hget ltac:(rewrite Hrf; reflexivity)).
      injection Hget as Hr. subst r.
      destruct (Redis.lookup_live w (ip_key req)) as [e0 |] eqn:Hlive.
      { cbn [Redis.Int] in Hint.
        destruct (Strconv.Atoi (e_val e0)); discriminate Hint. }
      split; [| discriminate].
      intros _.
      specialize (Hset ltac:(cbn; rewrite Hrf; reflexivity)).
      injection Hset as _ ->.
      cbn [redis redis_done with_redis with_redis_faults log].
      rewrite lookup_insert_eq. reflexivity.
Qed.

Lemma identity_denial_keeps_address_record_witness :
  let req := otp_request sample_phone in
  let w' :=
    snd (RateLimitMiddleware.OTPRateLimit 3 (600 * Second) req
           world_phone_limited) in
  fst (RateLimitMiddleware.OTPRateLimit 3 (600 * Second) req
         world_phone_limited) = Abort too_many_for_phone
  /\ exists (p otp : string) (record : Event),
       Body req = BodyJSON p otp
       /\ (record = EvSet (ip_key req) "1" (600 * Second)
           \/ record = EvIncr (ip_key req))
       /\ trace w'
          = trace world_phone_limited
            ++ [EvGet (ip_key req); record; EvGet (phone_key p)]
       /\ redis w' !! phone_key p = redis world_phone_limited !! phone_key p
       /\ (redis_faults world_phone_limited = [] ->
           (Redis.lookup_live world_phone_limited (ip_key req) = None ->
            redis w' !! ip_key req
            = Some (Entry "1"
                      (Redis.expiry_for world_phone_limited (ip_key req)
                         (600 * Second))))
           /\ (forall (e : entry) (n : Z),
                 Redis.lookup_live world_phone_limited (ip_key req)
                 = Some e ->
                 Redis.int_value (e_val e) = Some n ->
                 redis w' !! ip_key req
                 = Some (Entry (Strconv.FormatInt (n + 1)) (e_exp e)))).
Proof.
  split; [vm_compute; reflexivity |].
  apply (identity_denial_keeps_address_record 3 (600 * Second)
           (otp_request sample_phone) world_phone_limited).
  vm_compute. reflexivity.
Defined.

Lemma verified_code_is_single_use_witness :
  (exists token user,
     fst (verify_otp_route sample_config (verify_request "123456")
            world_with_challenge)
     = JSON StatusOK (VerifyOTPResponse token user))
  /\ fst (verify_otp_route sample_config (verify_request "123456")
            (elapse Second
               (snd (verify_otp_route sample_config (verify_request "123456")
                       world_with_challenge))))
     = invalid_or_expired.
Proof.
  assert (H : exists token user,
             fst (verify_otp_route sample_config (verify_request "123456")
                    world_with_challenge)
             = JSON StatusOK (VerifyOTPResponse token user))
    by (vm_compute; eexists _, _; reflexivity).
  split; [exact H |].
  destruct H as (token & user & H).
  apply (verified_code_is_single_use sample_config (verify_request "123456")
           world_with_challenge token user Second H).
  vm_compute. reflexivity.
Defined.

Lemma challenge_consumed_before_login_witness :
  fst (AuthService.VerifyOTP sample_config sample_phone "123456"
         world_db_down)
  = Err ("error creating user: error creating user: connection refused")
  /\ (forall d : Z,
        stored_code
          (elapse d
             (snd (AuthService.VerifyOTP sample_config sample_phone "123456"
                     world_db_down))) sample_phone = None)
  /\ exists msg' : string,
       fst (AuthService.VerifyOTP sample_config sample_phone "123456"
              (elapse Second
                 (snd (AuthService.VerifyOTP sample_config sample_phone
                         "123456" world_db_down))))
       = Err msg'
       /\ is_invalid_or_expired msg' = true.
Proof.
  destruct (challenge_consumed_before_login sample_config sample_phone
              "123456" world_db_down)
    as (_ & Hgone & _ & _ & Hretry);
    [reflexivity | reflexivity | vm_compute; reflexivity |].
  split; [vm_compute; reflexivity |]. split; [exact Hgone |].
  apply (Hretry
           "error creating user: error creating user: connection refused");
    vm_compute; reflexivity.
Defined.

Lemma lookup_error_leads_to_create_witness :
  exists rest : list Event,
    trace (snd (AuthService.VerifyOTP sample_config sample_phone "123456"
                  world_db_down))
    = trace world_db_down
      ++ EvGet "otp:09123456789" :: EvDel "otp:09123456789"
         :: EvFindByPhoneNumber sample_phone :: EvCreate sample_phone :: rest.
Proof.
  destruct (lookup_error_leads_to_create sample_config sample_phone
              "123456" world_db_down)
    as (Hcreate & Hdown);
    [reflexivity | reflexivity | vm_compute; reflexivity |].
  apply (Hcreate
           ("error finding user by phone number: " +:+ "connection refused")).
  apply Hdown. reflexivity.
Defined.

(** ** Validation and the store *)

(** The handler rejects a malformed identity without any effect. *)
Lemma RequestOTP_malformed (cfg : Config) (req : Request) (w : World) :
  malformed_identity req = true ->
  snd (AuthHandler.RequestOTP cfg req w) = w
  /\ status (fst (AuthHandler.RequestOTP cfg req w)) = StatusBadRequest.
Proof.
  unfold malformed_identity, AuthHandler.RequestOTP.
  destruct (Binding.RequestOTPRequest (Body req)) as [phoneNumber | e].
  - destruct (String.eqb phoneNumber ""); [split; reflexivity |].
    cbn [orb]. intros ->. split; reflexivity.
  - split; reflexivity.
Qed.

(** The events of the phone-number scope are about its key. *)
Lemma OTPRateLimit_phone_events
    (limit window : Z) (b : bool) (phoneKey : string) (w : World) :
  exists evs : list Event,
    trace (snd (RateLimitMiddleware.OTPRateLimit_phone limit window b
                  phoneKey w)) = trace w ++ evs
    /\ Forall (fun e => event_key e = Some phoneKey) evs.
Proof.
  unfold RateLimitMiddleware.OTPRateLimit_phone.
  destruct b; [| exists []; split; [symmetry; apply app_nil_r | constructor]].
  pose proof (Get_world phoneKey w) as Hw.
  destruct (Redis.Get phoneKey w) as [r w1]. cbn [snd] in Hw. subst w1.
  destruct (Redis.Int r) as [phoneCount | | msg].
  - destruct (limit <=? phoneCount).
    + exists [EvGet phoneKey]. split; [reflexivity | repeat constructor].
    + pose proof (Incr_trace phoneKey (redis_done (EvGet phoneKey) w)) as Ht.
      destruct (Redis.Incr _ _) as [? w2]. cbn [snd] in *.
      exists [EvGet phoneKey; EvIncr phoneKey].
      split; [rewrite Ht; cbn; rewrite <- app_assoc; reflexivity
             | repeat constructor].
  - pose proof (Set_trace phoneKey "1" window
                  (redis_done (EvGet phoneKey) w)) as Ht.
    destruct (Redis.Set_ _ _ _ _) as [? w2]. cbn [snd] in *.
    exists [EvGet phoneKey; EvSet phoneKey "1" window].
    split; [rewrite Ht; cbn; rewrite <- app_assoc; reflexivity
           | repeat constructor].
  - exists [EvGet phoneKey]. split; [reflexivity | repeat constructor].
Qed.

(** The store operations of the middleware are about its two counters. *)
Lemma OTPRateLimit_events (limit window : Z) (req : Request) (w : World) :
  exists evs : list Event,
    trace (snd (RateLimitMiddleware.OTPRateLimit limit window req w))
    = trace w ++ evs
    /\ Forall (fun e => exists k, event_key e = Some k
                                  /\ middleware_key req k) evs.
Proof.
  unfold RateLimitMiddleware.OTPRateLimit. fold (ip_key req).
  destruct (Body req) as [| | p otp] eqn:Hbody.
  - exists []. split; [symmetry; apply app_nil_r | constructor].
  - pose proof (Get_world (ip_key req) w) as Hw.
    destruct (Redis.Get (ip_key req) w) as [r w1]. cbn [snd] in Hw. subst w1.
    assert (Hip : forall e, event_key e = Some (ip_key req) ->
              exists k, event_key e = Some k /\ middleware_key req k)
      by (intros e He; exists (ip_key req); split; [exact He | left; reflexivity]).
    unfold RateLimitMiddleware.OTPRateLimit_phone.
    destruct (Redis.Int r) as [ipCount | | msg].
    + destruct (_ <=? _).
      * exists [EvGet (ip_key req)].
        split; [reflexivity | repeat constructor; apply Hip; reflexivity].
      * pose proof (Incr_trace (ip_key req)
                      (redis_done (EvGet (ip_key req)) w)) as Ht.
        destruct (Redis.Incr _ _) as [? w2]. cbn [snd] in *.
        exists [EvGet (ip_key req); EvIncr (ip_key req)].
        split; [rewrite Ht; cbn; rewrite <- app_assoc; reflexivity
               | repeat constructor; apply Hip; reflexivity].
    + pose proof (Set_trace (ip_key req) "1" window
                    (redis_done (EvGet (ip_key req)) w)) as Ht.
      destruct (Redis.Set_ _ _ _ _) as [? w2]. cbn [snd] in *.
      exists [EvGet (ip_key req); EvSet (ip_key req) "1" window].
      split; [rewrite Ht; cbn; rewrite <- app_assoc; reflexivity
             | repeat constructor; apply Hip; reflexivity].
    + exists [EvGet (ip_key req)].
      split; [reflexivity | repeat constructor; apply Hip; reflexivity].
  - set (scope := if negb (String.eqb p "")
                  then (true, "rate_limit:otp:phone:" +:+ p)
                  else (false, "")).
    assert (Hscope : fst scope = false \/ snd scope = phone_key p)
      by (unfold scope; destruct (negb _); [right | left]; reflexivity).
    destruct scope as [b phoneKey]. cbn [fst snd] in Hscope.
    assert (Hip : forall e, event_key e = Some (ip_key req) ->
              exists k, event_key e = Some k /\ middleware_key req k)
      by (intros e He; exists (ip_key req); split; [exact He | left; reflexivity]).
    assert (Hph : forall w0, exists evs : list Event,
              trace (snd (RateLimitMiddleware.OTPRateLimit_phone limit window
                            b phoneKey w0)) = trace w0 ++ evs
              /\ Forall (fun e => exists k, event_key e = Some k
                                            /\ middleware_key req k) evs).
    { intros w0. destruct Hscope as [-> | ->].
      - exists []. split; [symmetry; apply app_nil_r | constructor].
      - destruct (OTPRateLimit_phone_events limit window b (phone_key p) w0)
          as (evs & Ht & Hall).
        exists evs. split; [exact Ht |].
        eapply Forall_impl; [exact Hall |]. intros e He.
        exists (phone_key p). split; [exact He |].
        right. exists p, otp. split; [exact Hbody | reflexivity]. }
    pose proof (Get_world (ip_key req) w) as Hw.
    destruct (Redis.Get (ip_key req) w) as [r w1]. cbn [snd] in Hw. subst w1.
    destruct (Redis.Int r) as [ipCount | | msg].
    + destruct (_ <=? _).
      * exists [EvGet (ip_key req)].
        split; [reflexivity | repeat constructor; apply Hip; reflexivity].
      * pose proof (Incr_trace (ip_key req)
                      (redis_done (EvGet (ip_key req)) w)) as Ht.
        destruct (Redis.Incr _ _) as [? w2]. cbn [snd] in *.
        destruct (Hph w2) as (evs & Ht2 & Hall).
        exists (EvGet (ip_key req) :: EvIncr (ip_key req) :: evs).
        split; [rewrite Ht2, Ht; cbn; rewrite <- !app_assoc; reflexivity |].
        repeat (constructor; [apply Hip; reflexivity |]). exact Hall.
    + pose proof (Set_trace (ip_key req) "1" window
                    (redis_done (EvGet (ip_key req)) w)) as Ht.
      destruct (Redis.Set_ _ _ _ _) as [? w2]. cbn [snd] in *.
      destruct (Hph w2) as (evs & Ht2 & Hall).
      exists (EvGet (ip_key req) :: EvSet (ip_key req) "1" window :: evs).
      split; [rewrite Ht2, Ht; cbn; rewrite <- !app_assoc; reflexivity |].
      repeat (constructor; [apply Hip; reflexivity |]). exact Hall.
    + exists [EvGet (ip_key req)].
      split; [reflexivity | repeat constructor; apply Hip; reflexivity].
Qed.

(** An unreadable body is answered before the store is reached. *)
Lemma OTPRateLimit_unreadable
    (limit window : Z) (req : Request) (w : World) :
  Body req = BodyUnreadable ->
  RateLimitMiddleware.OTPRateLimit limit window req w
  = (Abort (JSON StatusBadRequest (ErrorResponse "Cannot read request body")),
     w).
Proof.
  intros H. unfold RateLimitMiddleware.OTPRateLimit. rewrite H. reflexivity.
Qed.

(** With a readable body the first thing the middleware does is to read
    the address counter. *)
Lemma OTPRateLimit_phone_extends
    (limit window : Z) (b : bool) (k : string) (w : World) :
  exists evs : list Event,
    trace (snd (RateLimitMiddleware.OTPRateLimit_phone limit window b k w))
    = trace w ++ evs.
Proof.
  destruct (OTPRateLimit_phone_events limit window b k w) as (evs & H & _).
  exists evs. exact H.
Qed.

Lemma OTPRateLimit_first_read
    (limit window : Z) (req : Request) (w : World) :
  Body req <> BodyUnreadable ->
  exists evs : list Event,
    trace (snd (RateLimitMiddleware.OTPRateLimit limit window req w))
    = trace w ++ EvGet (ip_key req) :: evs.
Proof.
  intros Hbody. unfold RateLimitMiddleware.OTPRateLimit. fold (ip_key req).
  assert (Hgen : forall b k,
    exists evs : list Event,
      trace (snd (let '(r, w0) := Redis.Get (ip_key req) w in
                  match Redis.Int r with
                  | Redis.Fault _ =>
                      (Abort (JSON StatusInternalServerError
                                (ErrorResponse "Error checking rate limit")),
                       w0)
                  | Redis.Nil =>
                      let '(_, w1) :=
                        Redis.Set_ (ip_key req) "1" window w0 in
                      RateLimitMiddleware.OTPRateLimit_phone
                        limit window b k w1
                  | Redis.Val ipCount =>
                      if wrap64 (limit * 2) <=? ipCount then
                        (Abort (JSON StatusTooManyRequests
                                  (ErrorResponse "Rate limit exceeded")), w0)
                      else
                        let '(_, w1) := Redis.Incr (ip_key req) w0 in
                        RateLimitMiddleware.OTPRateLimit_phone
                          limit window b k w1
                  end))
      = trace w ++ EvGet (ip_key req) :: evs).
  { intros b k.
    pose proof (Get_world (ip_key req) w) as Hw.
    destruct (Redis.Get (ip_key req) w) as [r w1]. cbn [snd] in Hw. subst w1.
    destruct (Redis.Int r) as [ipCount | | msg].
    - destruct (_ <=? _); [exists []; reflexivity |].
      pose proof (Incr_trace (ip_key req)
                    (redis_done (EvGet (ip_key req)) w)) as Ht.
      destruct (Redis.Incr _ _) as [? w2]. cbn [snd] in Ht.
      destruct (OTPRateLimit_phone_extends limit window b k w2)
        as (evs & He).
      exists (EvIncr (ip_key req) :: evs). rewrite He, Ht. cbn.
      rewrite <- !app_assoc. reflexivity.
    - pose proof (Set_trace (ip_key req) "1" window
                    (redis_done (EvGet (ip_key req)) w)) as Ht.
      destruct (Redis.Set_ _ _ _ _) as [? w2]. cbn [snd] in Ht.
      destruct (OTPRateLimit_phone_extends limit window b k w2)
        as (evs & He).
      exists (EvSet (ip_key req) "1" window :: evs). rewrite He, Ht. cbn.
      rewrite <- !app_assoc. reflexivity.
    - exists []. reflexivity. }
  destruct (Body req) as [| | p otp]; [congruence | apply Hgen |].
  destruct (negb (String.eqb p "")); apply Hgen.
Qed.

(** What the phone-number scope has done when it lets a request
    through. *)
Lemma OTPRateLimit_phone_Next
    (limit window : Z) (b : bool) (k : string) (w : World)
    (keys : list (string * string)) :
  fst (RateLimitMiddleware.OTPRateLimit_phone limit window b k w)
  = Next keys ->
  exists evs : list Event,
    trace (snd (RateLimitMiddleware.OTPRateLimit_phone limit window b k w))
    = trace w ++ evs
    /\ if b then recorded_under k window evs else evs = [].
Proof.
  unfold RateLimitMiddleware.OTPRateLimit_phone.
  destruct b; [| intros _; exists []; split;
                   [symmetry; apply app_nil_r | reflexivity]].
  pose proof (Get_world k w) as Hw.
  destruct (Redis.Get k w) as [r w1]. cbn [snd] in Hw. subst w1.
  destruct (Redis.Int r) as [phoneCount | | msg].
  - destruct (limit <=? phoneCount); [discriminate |].
    pose proof (Incr_trace k (redis_done (EvGet k) w)) as Ht.
    destruct (Redis.Incr _ _) as [? w2]. cbn [snd] in *. intros _.
    exists [EvGet k; EvIncr k].
    split; [rewrite Ht; cbn; rewrite <- app_assoc; reflexivity
           | right; reflexivity].
  - pose proof (Set_trace k "1" window (redis_done (EvGet k) w)) as Ht.
    destruct (Redis.Set_ _ _ _ _) as [? w2]. cbn [snd] in *. intros _.
    exists [EvGet k; EvSet k "1" window].
    split; [rewrite Ht; cbn; rewrite <- app_assoc; reflexivity
           | left; reflexivity].
  - discriminate.
Qed.

(** What the middleware has done when it lets a request through: it has
    recorded the request under the address counter and, if the body names
    a phone number, under the phone-number counter, in this order, and
    nothing else. *)
Lemma OTPRateLimit_Next
    (limit window : Z) (req : Request) (w : World)
    (keys : list (string * string)) :
  fst (RateLimitMiddleware.OTPRateLimit limit window req w) = Next keys ->
  exists ip_evs phone_evs : list Event,
    trace (snd (RateLimitMiddleware.OTPRateLimit limit window req w))
    = trace w ++ ip_evs ++ phone_evs
    /\ recorded_under (ip_key req) window ip_evs
    /\ match named_phone req with
       | Some p => recorded_under (phone_key p) window phone_evs
       | None => phone_evs = []
       end.
Proof.
  unfold RateLimitMiddleware.OTPRateLimit, named_phone. fold (ip_key req).
  assert (Hgen : forall b k,
    fst (let '(r, w0) := Redis.Get (ip_key req) w in
         match Redis.Int r with
         | Redis.Fault _ =>
             (Abort (JSON StatusInternalServerError
                       (ErrorResponse "Error checking rate limit")), w0)
         | Redis.Nil =>
             let '(_, w1) := Redis.Set_ (ip_key req) "1" window w0 in
             RateLimitMiddleware.OTPRateLimit_phone limit window b k w1
         | Redis.Val ipCount =>
             if wrap64 (limit * 2) <=? ipCount then
               (Abort (JSON StatusTooManyRequests
                         (ErrorResponse "Rate limit exceeded")), w0)
             else
               let '(_, w1) := Redis.Incr (ip_key req) w0 in
               RateLimitMiddleware.OTPRateLimit_phone limit window b k w1
         end) = Next keys ->
    exists ip_evs phone_evs : list Event,
      trace (snd (let '(r, w0) := Redis.Get (ip_key req) w in
                  match Redis.Int r with
                  | Redis.Fault _ =>
                      (Abort (JSON StatusInternalServerError
                                (ErrorResponse "Error checking rate limit")),
                       w0)
                  | Redis.Nil =>
                      let '(_, w1) :=
                        Redis.Set_ (ip_key req) "1" window w0 in
                      RateLimitMiddleware.OTPRateLimit_phone
                        limit window b k w1
                  | Redis.Val ipCount =>
                      if wrap64 (limit * 2) <=? ipCount then
                        (Abort (JSON StatusTooManyRequests
                                  (ErrorResponse "Rate limit exceeded")), w0)
                      else
                        let '(_, w1) := Redis.Incr (ip_key req) w0 in
                        RateLimitMiddleware.OTPRateLimit_phone
                          limit window b k w1
                  end))
      = trace w ++ ip_evs ++ phone_evs
      /\ recorded_under (ip_key req) window ip_evs
      /\ if b then recorded_under k window phone_evs else phone_evs = []).
  { intros b k.
    pose proof (Get_world (ip_key req) w) as Hw.
    destruct (Redis.Get (ip_key req) w) as [r w1]. cbn [snd] in Hw. subst w1.
    destruct (Redis.Int r) as [ipCount | | msg].
    - destruct (_ <=? _); [discriminate |].
      pose proof (Incr_trace (ip_key req)
                    (redis_done (EvGet (ip_key req)) w)) as Ht.
      destruct (Redis.Incr _ _) as [? w2]. cbn [snd] in Ht. intros Hn.
      destruct (OTPRateLimit_phone_Next limit window b k w2 keys Hn)
        as (evs & He & Hrec).
      exists [EvGet (ip_key req); EvIncr (ip_key req)], evs.
      split; [| split; [right; reflexivity | exact Hrec]].
      rewrite He, Ht. cbn. rewrite <- !app_assoc. reflexivity.
    - pose proof (Set_trace (ip_key req) "1" window
                    (redis_done (EvGet (ip_key req)) w)) as Ht.
      destruct (Redis.Set_ _ _ _ _) as [? w2]. cbn [snd] in Ht. intros Hn.
      destruct (OTPRateLimit_phone_Next limit window b k w2 keys Hn)
        as (evs & He & Hrec).
      exists [EvGet (ip_key req); EvSet (ip_key req) "1" window], evs.
      split; [| split; [left; reflexivity | exact Hrec]].
      rewrite He, Ht. cbn. rewrite <- !app_assoc. reflexivity.
    - discriminate. }
  destruct (Body req) as [| | p otp].
  - discriminate.
  - apply (Hgen false "").
  - destruct (String.eqb p ""); cbn [negb].
    + apply (Hgen false "").
    + apply (Hgen true ("rate_limit:otp:phone:" +:+ p)).
Qed.

(** With a readable body, a request the middleware stops is answered 429
    or 500. *)
Lemma OTPRateLimit_Abort_readable
    (limit window : Z) (req : Request) (w : World) (r : Response) :
  Body req <> BodyUnreadable ->
  fst (RateLimitMiddleware.OTPRateLimit limit window req w) = Abort r ->
  status r = StatusTooManyRequests \/ status r = StatusInternalServerError.
Proof.
  intros Hbody.
  unfold RateLimitMiddleware.OTPRateLimit,
    RateLimitMiddleware.OTPRateLimit_phone.
  destruct (Body req) as [| | p otp]; [congruence | |].
  - destruct (Redis.Get _ w) as [r0 w1].
    destruct (Redis.Int r0) as [ipCount | | msg].
    + destruct (_ <=? _); [intros H; injection H as <-; left; reflexivity |].
      destruct (Redis.Incr _ _). discriminate.
    + destruct (Redis.Set_ _ _ _ _). discriminate.
    + intros H; injection H as <-; right; reflexivity.
  - destruct (negb _).
    all: destruct (Redis.Get _ w) as [r0 w1].
    all: destruct (Redis.Int r0) as [ipCount | | msg];
      [ destruct (_ <=? _);
          [intros H; injection H as <-; left; reflexivity |];
        destruct (Redis.Incr _ _) as [? w2]
      | destruct (Redis.Set_ _ _ _ _) as [? w2]
      | intros H; injection H as <-; right; reflexivity ].
    all: try discriminate.
    all: destruct (Redis.Get _ w2) as [reply1 w3];
      destruct (Redis.Int reply1) as [phoneCount | | msg'];
      [ destruct (_ <=? _);
          [intros H; injection H as <-; left; reflexivity |];
        destruct (Redis.Incr _ _); discriminate
      | destruct (Redis.Set_ _ _ _ _); discriminate
      | intros H; injection H as <-; right; reflexivity ].
Qed.

(** C1 (as the code has it).  A request for a code whose identity is
    malformed meets the rate-limit middleware before the validation of the
    handler.  If the body cannot be read, the middleware answers 400 and
    nothing has happened.  Otherwise the middleware first reads the
    address counter, and everything done for the request is an operation
    on the address counter or on the phone-number counter of the
    middleware.  If the middleware lets the request through, it has read
    and then created or incremented the address counter and, when the body
    names a phone number, has then read and created or incremented the
    phone-number counter of the middleware, and nothing else; the handler
    then answers 400 and changes nothing itself, so the service is not
    reached.  If the middleware stops the request, its answer is the
    answer of the route, 429 or 500 when the body was readable. *)
Theorem malformed_identity_rejected_after_middleware
    (cfg : Config) (req : Request) (w : World) :
  malformed_identity req = true ->
  let limit := Count (RateLimit (OTP cfg)) in
  let window := GetRateLimitDuration cfg in
  let mw := RateLimitMiddleware.OTPRateLimit limit window req w in
  let r := request_otp_route cfg req w in
  snd r = snd mw
  /\ (Body req = BodyUnreadable ->
      r = (JSON StatusBadRequest (ErrorResponse "Cannot read request body"),
           w))
  /\ (Body req <> BodyUnreadable ->
      exists evs : list Event,
        trace (snd r) = trace w ++ EvGet (ip_key req) :: evs
        /\ on_middleware_keys req evs)
  /\ (forall keys, fst mw = Next keys ->
      status (fst r) = StatusBadRequest
      /\ exists ip_evs phone_evs : list Event,
           trace (snd r) = trace w ++ ip_evs ++ phone_evs
           /\ recorded_under (ip_key req) window ip_evs
           /\ match named_phone req with
              | Some p => recorded_under (phone_key p) window phone_evs
              | None => phone_evs = []
              end)
  /\ (forall resp, fst mw = Abort resp ->
      fst r = resp
      /\ (Body req <> BodyUnreadable ->
          status resp = StatusTooManyRequests
          \/ status resp = StatusInternalServerError)).
Proof.
  intros Hbad. cbv zeta.
  set (limit := Count (RateLimit (OTP cfg))).
  set (window := GetRateLimitDuration cfg).
  assert (Hw : snd (request_otp_route cfg req w)
               = snd (RateLimitMiddleware.OTPRateLimit limit window req w)).
  { unfold request_otp_route. fold limit window.
    destruct (RateLimitMiddleware.OTPRateLimit limit window req w)
      as [[keys | r] w1]; [| reflexivity].
    apply (RequestOTP_malformed cfg req w1 Hbad). }
  split; [exact Hw |]. split; [| split; [| split]].
  - intros Hbody. unfold request_otp_route. fold limit window.
    rewrite (OTPRateLimit_unreadable limit window req w Hbody). reflexivity.
  - intros Hbody. rewrite Hw.
    destruct (OTPRateLimit_first_read limit window req w Hbody)
      as (evs & Ht).
    exists evs. split; [exact Ht |].
    destruct (OTPRateLimit_events limit window req w) as (evs0 & Ht0 & Hall).
    rewrite Ht in Ht0. apply app_inv_head in Ht0. subst evs0.
    unfold on_middleware_keys. exact (Forall_inv_tail Hall).
  - intros keys Hnext. split.
    + unfold request_otp_route. fold limit window.
      destruct (RateLimitMiddleware.OTPRateLimit limit window req w)
        as [flow w1]. cbn [fst] in Hnext. subst flow.
      apply (RequestOTP_malformed cfg req w1 Hbad).
    + rewrite Hw. exact (OTPRateLimit_Next limit window req w keys Hnext).
  - intros resp Habort. split.
    + unfold request_otp_route. fold limit window.
      destruct (RateLimitMiddleware.OTPRateLimit limit window req w)
        as [flow w1]. cbn [fst] in Habort. subst flow. reflexivity.
    + intros Hbody.
      exact (OTPRateLimit_Abort_readable limit window req w resp Hbody Habort).
Qed.

Lemma malformed_identity_rejected_after_middleware_witness :
  let req := otp_request "12345" in
  let mw :=
    RateLimitMiddleware.OTPRateLimit (Count (RateLimit (OTP sample_config)))
      (GetRateLimitDuration sample_config) req empty_world in
  let r := request_otp_route sample_config req empty_world in
  malformed_identity req = true
  /\ snd r = snd mw
  /\ status (fst r) = StatusBadRequest
  /\ exists ip_evs phone_evs : list Event,
       trace (snd r) = trace empty_world ++ ip_evs ++ phone_evs
       /\ recorded_under (ip_key req) (GetRateLimitDuration sample_config)
            ip_evs
       /\ recorded_under (phone_key "12345")
            (GetRateLimitDuration sample_config) phone_evs.
Proof.
  destruct (malformed_identity_rejected_after_middleware sample_config
              (otp_request "12345") empty_world)
    as (Hw & _ & _ & Hnext & _); [reflexivity |].
  split; [reflexivity |]. split; [exact Hw |].
  apply (Hnext []). vm_compute. reflexivity.
Defined.

(** C1 (as the specification states it) fails: the phone number "12345"
    is malformed and the request is answered with 400, but before that
    the middleware has read and created the address counter and the
    phone-number counter. *)
Lemma malformed_request_reaches_store :
  malformed_identity (otp_request "12345") = true
  /\ fst (request_otp_route sample_config (otp_request "12345") empty_world)
     = JSON StatusBadRequest
         (ErrorResponse AuthHandler.invalid_format_message)
  /\ store_trace
       (trace (snd (request_otp_route sample_config (otp_request "12345")
                      empty_world)))
     = [EvGet "rate_limit:otp:ip:192.0.2.1";
        EvSet "rate_limit:otp:ip:192.0.2.1" "1" (600 * Second);
        EvGet "rate_limit:otp:phone:12345";
        EvSet "rate_limit:otp:phone:12345" "1" (600 * Second)]
  /\ ~ rejected_before_store sample_config (otp_request "12345") empty_world.
Proof.
  split; [reflexivity |]. split; [vm_compute; reflexivity |].
  split; [vm_compute; reflexivity |].
  intros (_ & Ht & _). vm_compute in Ht. discriminate Ht.
Qed.

(** ** Verification of a session token *)

Lemma GetSigningMethod_hmac (alg : string) :
  Jwt.one_of alg ["HS256"; "HS384"; "HS512"] = true ->
  Jwt.GetSigningMethod alg = Some (Jwt.SigningMethodHMAC alg).
Proof. intros H. unfold Jwt.GetSigningMethod. rewrite H. reflexivity. Qed.

Lemma GetSigningMethod_other (alg : string) :
  Jwt.one_of alg ["HS256"; "HS384"; "HS512"] = false ->
  match Jwt.GetSigningMethod alg with
  | Some (Jwt.SigningMethodHMAC _) => False
  | _ => True
  end.
Proof.
  intros H. unfold Jwt.GetSigningMethod. rewrite H.
  repeat match goal with
         | |- context [if ?b then _ else _] => destruct b
         end; exact I.
Qed.

(** C3 (as the code has it).  The key function accepts the whole HMAC
    family.  A token whose algorithm is not HS256, HS384 or HS512 is
    answered with 401 "Invalid token: ...", whatever its signature; a
    token of one of the three algorithms that carries the MAC of that
    algorithm under the configured secret passes the signature check, and
    is judged by its claims alone. *)
Theorem token_outside_hmac_family_rejected
    (cfg : Config) (req : Request) (w : World) (t : Token) :
  Authorization req = AuthBearer (Some t) ->
  (Jwt.one_of (header_alg t) ["HS256"; "HS384"; "HS512"] = false ->
   exists msg : string,
     JWTAuthMiddleware.AuthRequired cfg req w
     = JWTAuthMiddleware.unauthorized ("Invalid token: " +:+ msg))
  /\ (Jwt.one_of (header_alg t) ["HS256"; "HS384"; "HS512"] = true ->
      signature t
      = Jwt.sign (header_alg t) (Secret (JWT cfg)) (header_alg t) (claims t) ->
      Jwt.Parse (Some t) (JWTAuthMiddleware.keyFunc cfg) (now w)
      = match Jwt.validate_claims (now w) (claims t) with
        | Ok _ => Ok t
        | Err e => Err ("token has invalid claims: " +:+ e)
        end).
Proof.
  intros Hauth. split.
  - intros Hout. unfold JWTAuthMiddleware.AuthRequired. rewrite Hauth.
    unfold Jwt.Parse.
    pose proof (GetSigningMethod_other _ Hout) as Hm.
    destruct (Jwt.GetSigningMethod (header_alg t)) as [m |];
      [| eexists; reflexivity].
    destruct m; try contradiction; eexists; reflexivity.
  - intros Hin Hsig. unfold Jwt.Parse.
    rewrite (GetSigningMethod_hmac _ Hin).
    cbn [JWTAuthMiddleware.keyFunc Jwt.Verify].
    rewrite bool_decide_eq_true_2 by exact Hsig.
    destruct (Jwt.validate_claims (now w) (claims t)); reflexivity.
Qed.

Lemma token_outside_hmac_family_rejected_witness :
  let t := Jwt.SignedString "RS256" "secret" sample_claims in
  exists msg : string,
    JWTAuthMiddleware.AuthRequired sample_config (bearer_request t)
      empty_world
    = JWTAuthMiddleware.unauthorized ("Invalid token: " +:+ msg).
Proof.
  destruct (token_outside_hmac_family_rejected sample_config
              (bearer_request (Jwt.SignedString "RS256" "secret"
                                 sample_claims))
              empty_world
              (Jwt.SignedString "RS256" "secret" sample_claims) eq_refl)
    as (Hout & _).
  apply Hout. reflexivity.
Defined.

(** C3 (as the specification states it) fails: a token signed with HS384,
    not with HS256, under the configured secret is accepted. *)
Lemma hs384_token_accepted :
  header_alg hs384_token = "HS384"
  /\ signature hs384_token
     = Jwt.sign "HS384" (Secret (JWT sample_config)) "HS384"
         (claims hs384_token)
  /\ JWTAuthMiddleware.AuthRequired sample_config
       (bearer_request hs384_token) empty_world
     = Next [("user_id", "6ba7b810-9dad-41d1-80b4-00c04fd430c8");
             ("phone_number", sample_phone)].
Proof. repeat split; vm_compute; reflexivity. Qed.

(** ** The whole route of the request for a code *)

Lemma valid_format_first_char (p : string) :
  AuthHandler.invalid_iranian_format p = false ->
  exists c rest, p = String c rest /\ c <> "o"%char.
Proof.
  destruct p as [| c rest]; [discriminate |]. intros H.
  exists c, rest. split; [reflexivity |]. intros ->. discriminate H.
Qed.

Lemma counter_key_not_ip_key (p : string) (req : Request) :
  AuthHandler.invalid_iranian_format p = false ->
  counter_key p <> ip_key req.
Proof.
  intros H. destruct (valid_format_first_char p H) as (c & rest & -> & Hc).
  intros Heq. injection Heq as Heq _. apply Hc. exact Heq.
Qed.

Lemma counter_key_not_phone_key (p p' : string) :
  AuthHandler.invalid_iranian_format p = false ->
  counter_key p <> phone_key p'.
Proof.
  intros H. destruct (valid_format_first_char p H) as (c & rest & -> & Hc).
  intros Heq. injection Heq as Heq _. apply Hc. exact Heq.
Qed.

Lemma otp_key_not_ip_key (p : string) (req : Request) :
  RedisOTPRepository.otpKeyPrefix +:+ p <> ip_key req.
Proof. discriminate. Qed.

Lemma otp_key_not_phone_key (p p' : string) :
  RedisOTPRepository.otpKeyPrefix +:+ p <> phone_key p'.
Proof. discriminate. Qed.

Lemma CheckRateLimit_world (p : string) (limit window : Z) (w : World) :
  snd (RedisOTPRepository.CheckRateLimit p limit window w)
  = redis_done (EvGet (counter_key p)) w.
Proof.
  unfold RedisOTPRepository.CheckRateLimit. fold (counter_key p).
  pose proof (Get_world (counter_key p) w) as Hw.
  destruct (Redis.Get (counter_key p) w) as [r w1]. cbn [snd] in Hw. subst w1.
  destruct (Redis.Int r); reflexivity.
Qed.

Lemma StoreOTP_other (p otp : string) (x : Z) (w : World) (k : string) :
  RedisOTPRepository.otpKeyPrefix +:+ p <> k ->
  redis (snd (RedisOTPRepository.StoreOTP p otp x w)) !! k = redis w !! k.
Proof.
  intros Hne. unfold RedisOTPRepository.StoreOTP.
  pose proof (Set_other _ otp x w k Hne) as H.
  destruct (Redis.Set_ _ otp x w) as [r w1]. cbn [snd] in H.
  destruct r; exact H.
Qed.

Lemma Exists_world (k : string) (w : World) :
  snd (Redis.Exists k w) = redis_done (EvExists k) w.
Proof.
  unfold Redis.Exists. rewrite start_eq.
  destruct (next_fault _); reflexivity.
Qed.

Lemma IncrementRateLimit_other (p : string) (x : Z) (w : World) (k : string) :
  counter_key p <> k ->
  redis (snd (RedisOTPRepository.IncrementRateLimit p x w)) !! k
  = redis w !! k.
Proof.
  intros Hne. unfold RedisOTPRepository.IncrementRateLimit.
  fold (counter_key p).
  pose proof (Exists_world (counter_key p) w) as Hw.
  destruct (Redis.Exists (counter_key p) w) as [r w1].
  cbn [snd] in Hw. subst w1.
  destruct r as [n | | msg]; try reflexivity.
  destruct (n =? 0).
  - pose proof (Set_other (counter_key p) "1" x
                  (redis_done (EvExists (counter_key p)) w) k Hne) as H.
    destruct (Redis.Set_ _ _ _ _) as [r w1]. cbn [snd] in H.
    destruct r; exact H.
  - pose proof (Incr_other (counter_key p)
                  (redis_done (EvExists (counter_key p)) w) k Hne) as H.
    destruct (Redis.Incr _ _) as [r w1]. cbn [snd] in H.
    destruct r; exact H.
Qed.

(** What [GenerateOTP] leaves alone: every key but the challenge and the
    counter of the identity. *)
Lemma GenerateOTP_other (cfg : Config) (p : string) (w : World) (k : string) :
  RedisOTPRepository.otpKeyPrefix +:+ p <> k -> counter_key p <> k ->
  redis (snd (AuthService.GenerateOTP cfg p w)) !! k = redis w !! k.
Proof.
  intros Hotp Hcnt. unfold AuthService.GenerateOTP.
  pose proof (CheckRateLimit_world p (Count (RateLimit (OTP cfg)))
                (GetRateLimitDuration cfg) w) as Hw.
  destruct (RedisOTPRepository.CheckRateLimit p _ _ w) as [r w1].
  cbn [snd] in Hw. subst w1.
  destruct r as [[|] | e]; try reflexivity.
  destruct (generateRandomOTP _ _) as [otp |]; [| reflexivity].
  pose proof (StoreOTP_other p otp (GetOTPExpiration cfg)
                (redis_done (EvGet (counter_key p)) w) k Hotp) as H1.
  destruct (RedisOTPRepository.StoreOTP p otp _ _) as [r1 w1].
  cbn [snd] in H1. destruct r1; [| exact H1].
  pose proof (IncrementRateLimit_other p (GetRateLimitDuration cfg) w1 k Hcnt)
    as H2.
  destruct (RedisOTPRepository.IncrementRateLimit p _ w1) as [r2 w2].
  cbn [snd] in H2. destruct r2; cbn [snd]; rewrite H2; exact H1.
Qed.

(** The middleware on a request that names the phone number [p], with a
    working store. *)
Section Middleware.

Variables (limit window : Z) (req : Request) (p otp : string) (w : World).
Hypothesis Hbody : Body req = BodyJSON p otp.
Hypothesis Hp : String.eqb p "" = false.
Hypothesis Hrf : redis_faults w = [].

Lemma OTPRateLimit_fresh :
  Redis.lookup_live w (ip_key req) = None ->
  Redis.lookup_live w (phone_key p) = None ->
  exists w',
    RateLimitMiddleware.OTPRateLimit limit window req w = (Next [], w')
    /\ now w' = now w /\ redis_faults w' = []
    /\ redis w'
       = <[phone_key p := Entry "1" (Redis.expiry_for w (phone_key p) window)]>
           (<[ip_key req := Entry "1" (Redis.expiry_for w (ip_key req) window)]>
              (redis w)).
Proof.
  intros Hip Hph.
  unfold RateLimitMiddleware.OTPRateLimit,
    RateLimitMiddleware.OTPRateLimit_phone.
  fold (ip_key req). rewrite Hbody, Hp. cbn [negb]. fold (phone_key p).
  rewrite Get_ok by (rewrite Hrf; reflexivity). rewrite Hip.
  cbn [Redis.Int].
  rewrite Set_ok by (cbn; rewrite Hrf; reflexivity).
  rewrite Get_ok by (cbn; rewrite Hrf; reflexivity).
  match goal with
  | |- context [Redis.lookup_live ?w1 (phone_key p)] =>
      assert (Redis.lookup_live w1 (phone_key p) = None) as ->
  end.
  { unfold Redis.lookup_live in *. cbn [redis with_redis now redis_done
      with_redis_faults log].
    rewrite lookup_insert_ne by apply ip_key_not_phone_key. exact Hph. }
  cbn [Redis.Int].
  rewrite Set_ok by (cbn; rewrite Hrf; reflexivity).
  eexists. split; [reflexivity |]. split; [reflexivity |].
  split; [cbn; rewrite Hrf; reflexivity |].
  cbn [redis with_redis]. f_equal. f_equal.
  unfold Redis.expiry_for, Redis.lookup_live.
  cbn [redis with_redis now redis_done with_redis_faults log].
  rewrite lookup_insert_ne by apply ip_key_not_phone_key. reflexivity.
Qed.

Lemma OTPRateLimit_below (a b xa xb : Z) :
  redis w !! ip_key req = Some (Entry (Strconv.FormatInt a) (Some xa)) ->
  redis w !! phone_key p = Some (Entry (Strconv.FormatInt b) (Some xb)) ->
  now w < xa -> now w < xb ->
  0 <= a < wrap64 (limit * 2) -> 0 <= b < limit -> limit <= max_int64 ->
  exists w',
    RateLimitMiddleware.OTPRateLimit limit window req w = (Next [], w')
    /\ now w' = now w /\ redis_faults w' = []
    /\ redis w'
       = <[phone_key p := Entry (Strconv.FormatInt (b + 1)) (Some xb)]>
           (<[ip_key req := Entry (Strconv.FormatInt (a + 1)) (Some xa)]>
              (redis w)).
Proof.
  intros Hip Hph Hxa Hxb Ha Hb Hmax.
  pose proof (wrap64_range (limit * 2)) as [_ Hwr].
  assert (Hina : in_int64 a)
    by (unfold in_int64, min_int64, max_int64 in *; lia).
  assert (Hinb : in_int64 b)
    by (unfold in_int64, min_int64, max_int64 in *; lia).
  unfold RateLimitMiddleware.OTPRateLimit,
    RateLimitMiddleware.OTPRateLimit_phone.
  fold (ip_key req). rewrite Hbody, Hp. cbn [negb]. fold (phone_key p).
  rewrite Get_ok by (rewrite Hrf; reflexivity).
  rewrite (lookup_live_Some w _ _ xa Hip Hxa).
  cbn [Redis.Int e_val]. rewrite Atoi_FormatInt by exact Hina.
  assert ((wrap64 (limit * 2) <=? a) = false) as ->
      by (apply Z.leb_gt; lia).
  erewrite Incr_ok;
    [| cbn; rewrite Hrf; reflexivity
     | eapply lookup_live_Some; [exact Hip | exact Hxa]
     | cbn [e_val]; apply int_value_FormatInt; exact Hina
     | lia ].
  rewrite Get_ok by (cbn; rewrite Hrf; reflexivity).
  match goal with
  | |- context [Redis.lookup_live ?w1 (phone_key p)] =>
      assert (Hl : Redis.lookup_live w1 (phone_key p)
                   = Some (Entry (Strconv.FormatInt b) (Some xb)))
  end.
  { apply lookup_live_Some; [| exact Hxb]. cbn [redis with_redis].
    rewrite lookup_insert_ne by apply ip_key_not_phone_key. exact Hph. }
  rewrite Hl. cbn [Redis.Int e_val]. rewrite Atoi_FormatInt by exact Hinb.
  assert ((limit <=? b) = false) as -> by (apply Z.leb_gt; lia).
  erewrite Incr_ok;
    [| cbn; rewrite Hrf; reflexivity
     | exact Hl
     | cbn [e_val]; apply int_value_FormatInt; exact Hinb
     | lia ].
  eexists. split; [reflexivity |]. split; [reflexivity |].
  split; [cbn; rewrite Hrf; reflexivity | reflexivity].
Qed.

Lemma OTPRateLimit_denied (a b xa xb : Z) :
  redis w !! ip_key req = Some (Entry (Strconv.FormatInt a) (Some xa)) ->
  redis w !! phone_key p = Some (Entry (Strconv.FormatInt b) (Some xb)) ->
  now w < xa -> now w < xb ->
  0 <= a < wrap64 (limit * 2) -> limit <= b -> in_int64 b ->
  exists w',
    RateLimitMiddleware.OTPRateLimit limit window req w
    = (Abort too_many_for_phone, w')
    /\ now w' = now w /\ redis_faults w' = []
    /\ redis w'
       = <[ip_key req := Entry (Strconv.FormatInt (a + 1)) (Some xa)]>
           (redis w).
Proof.
  intros Hip Hph Hxa Hxb Ha Hb Hinb.
  pose proof (wrap64_range (limit * 2)) as [_ Hwr].
  assert (Hina : in_int64 a)
    by (unfold in_int64, min_int64, max_int64 in *; lia).
  unfold RateLimitMiddleware.OTPRateLimit,
    RateLimitMiddleware.OTPRateLimit_phone.
  fold (ip_key req). rewrite Hbody, Hp. cbn [negb]. fold (phone_key p).
  rewrite Get_ok by (rewrite Hrf; reflexivity).
  rewrite (lookup_live_Some w _ _ xa Hip Hxa).
  cbn [Redis.Int e_val]. rewrite Atoi_FormatInt by exact Hina.
  assert ((wrap64 (limit * 2) <=? a) = false) as ->
      by (apply Z.leb_gt; lia).
  erewrite Incr_ok;
    [| cbn; rewrite Hrf; reflexivity
     | eapply lookup_live_Some; [exact Hip | exact Hxa]
     | cbn [e_val]; apply int_value_FormatInt; exact Hina
     | lia ].
  rewrite Get_ok by (cbn; rewrite Hrf; reflexivity).
  match goal with
  | |- context [Redis.lookup_live ?w1 (phone_key p)] =>
      assert (Hl : Redis.lookup_live w1 (phone_key p)
                   = Some (Entry (Strconv.FormatInt b) (Some xb)))
  end.
  { apply lookup_live_Some; [| exact Hxb]. cbn [redis with_redis].
    rewrite lookup_insert_ne by apply ip_key_not_phone_key. exact Hph. }
  rewrite Hl. cbn [Redis.Int e_val]. rewrite Atoi_FormatInt by exact Hinb.
  assert ((limit <=? b) = true) as -> by (apply Z.leb_le; lia).
  eexists. split; [reflexivity |]. split; [reflexivity |].
  split; [cbn; rewrite Hrf; reflexivity | reflexivity].
Qed.

End Middleware.

Lemma RequestOTP_valid (cfg : Config) (req : Request) (p otp : string)
    (w : World) :
  Body req = BodyJSON p otp ->
  AuthHandler.invalid_iranian_format p = false ->
  AuthHandler.RequestOTP cfg req w
  = (let '(r, w1) := AuthService.GenerateOTP cfg p w in
     match r with
     | Panics => (JSON StatusInternalServerError NoPayload, w1)
     | Returns (Err e) =>
         if String.eqb e "rate limit exceeded" then
           (JSON StatusTooManyRequests
              (ErrorResponse "Rate limit exceeded"), w1)
         else
           (JSON StatusInternalServerError
              (ErrorResponse ("Error generating OTP: " +:+ e)), w1)
     | Returns (Ok code) =>
         (JSON StatusOK
            (RequestOTPResponse
               "OTP sent successfully. Check server logs for the code."),
          log (EvPrintOTP p code) w1)
     end).
Proof.
  intros Hbody Hfmt. unfold AuthHandler.RequestOTP.
  rewrite Hbody. cbn [Binding.RequestOTPRequest].
  rewrite (invalid_iranian_format_nonempty p Hfmt). cbv iota.
  rewrite (invalid_iranian_format_nonempty p Hfmt), Hfmt. reflexivity.
Qed.

Section Route.

Variables (cfg : Config) (req : Request) (p otp : string).
Hypothesis Hbody : Body req = BodyJSON p otp.
Hypothesis Hfmt : AuthHandler.invalid_iranian_format p = false.

Let limit := Count (RateLimit (OTP cfg)).
Let window := GetRateLimitDuration cfg.

Hypothesis Hlimit : 1 <= limit.
Hypothesis Hdouble : limit * 2 <= max_int64.
Hypothesis Hwindow : 0 < window.
Hypothesis Hlength : 1 <= Length (OTP cfg) <= 19.

Lemma expiry_for_window (w : World) (k : string) :
  Redis.expiry_for w k window = Some (now w + window).
Proof.
  unfold Redis.expiry_for.
  assert ((0 <? window) = true) as -> by (apply Z.ltb_lt; exact Hwindow).
  reflexivity.
Qed.

Lemma wrap_double : wrap64 (limit * 2) = limit * 2.
Proof.
  apply wrap64_small. unfold in_int64, min_int64, max_int64 in *. lia.
Qed.

Lemma route_fresh (w : World) :
  redis_faults w = [] -> counters_absent req p w ->
  exists w',
    request_otp_route cfg req w = (fst (request_otp_route cfg req w), w')
    /\ accepted (fst (request_otp_route cfg req w)) = true
    /\ now w' = now w
    /\ counters_at req p w' 1 1 (now w + window).
Proof.
  intros Hrf (Hip & Hph & Hcnt).
  unfold request_otp_route. fold limit window.
  destruct (OTPRateLimit_fresh limit window req p otp w Hbody
              (invalid_iranian_format_nonempty p Hfmt) Hrf Hip Hph)
    as (w1 & Hmw & Hnow1 & Hrf1 & Hredis1).
  rewrite Hmw, (RequestOTP_valid cfg req p otp w1 Hbody Hfmt).
  rewrite !expiry_for_window in Hredis1.
  destruct (GenerateOTP_fresh cfg p w1)
    as (code & w2 & Hgen & Hnow2 & Hrf2 & Hc2); try assumption.
  { unfold Redis.lookup_live in *. rewrite Hredis1, Hnow1.
    rewrite !lookup_insert_ne
      by (apply not_eq_sym;
          first [apply counter_key_not_phone_key
                | apply counter_key_not_ip_key]; exact Hfmt).
    exact Hcnt. }
  pose proof (GenerateOTP_other cfg p w1 (ip_key req)
                (otp_key_not_ip_key p req)
                (counter_key_not_ip_key p req Hfmt)) as Hoip.
  pose proof (GenerateOTP_other cfg p w1 (phone_key p)
                (otp_key_not_phone_key p p)
                (counter_key_not_phone_key p p Hfmt)) as Hoph.
  rewrite Hgen in *. cbn [fst snd] in *.
  eexists. split; [reflexivity |]. split; [reflexivity |].
  split; [cbn [now log]; congruence |].
  unfold counters_at. cbn [redis redis_faults log].
  split; [exact Hrf2 |].
  rewrite Hoip, Hoph, Hc2, Hredis1, Hnow1.
  rewrite lookup_insert_ne by (apply not_eq_sym, ip_key_not_phone_key).
  rewrite !lookup_insert_eq. repeat split; reflexivity.
Qed.

Lemma route_below (w : World) (a n x : Z) :
  counters_at req p w a n x -> now w < x ->
  0 <= a < limit * 2 -> 0 <= n < limit ->
  exists w',
    request_otp_route cfg req w = (fst (request_otp_route cfg req w), w')
    /\ accepted (fst (request_otp_route cfg req w)) = true
    /\ now w' = now w
    /\ counters_at req p w' (a + 1) (n + 1) x.
Proof.
  intros (Hrf & Hip & Hph & Hcnt) Hx Ha Hn.
  assert (Hmax : limit <= max_int64) by lia.
  unfold request_otp_route. fold limit window.
  destruct (OTPRateLimit_below limit window req p otp w Hbody
              (invalid_iranian_format_nonempty p Hfmt) Hrf a n x x)
    as (w1 & Hmw & Hnow1 & Hrf1 & Hredis1);
    try assumption; [rewrite wrap_double; exact Ha |].
  rewrite Hmw, (RequestOTP_valid cfg req p otp w1 Hbody Hfmt).
  destruct (GenerateOTP_below cfg p w1 n x)
    as (code & w2 & Hgen & Hnow2 & Hrf2 & Hc2); try assumption;
    [| lia |].
  { rewrite Hredis1.
    rewrite !lookup_insert_ne
      by (apply not_eq_sym;
          first [apply counter_key_not_phone_key
                | apply counter_key_not_ip_key]; exact Hfmt).
    exact Hcnt. }
  pose proof (GenerateOTP_other cfg p w1 (ip_key req)
                (otp_key_not_ip_key p req)
                (counter_key_not_ip_key p req Hfmt)) as Hoip.
  pose proof (GenerateOTP_other cfg p w1 (phone_key p)
                (otp_key_not_phone_key p p)
                (counter_key_not_phone_key p p Hfmt)) as Hoph.
  rewrite Hgen in *. cbn [fst snd] in *.
  eexists. split; [reflexivity |]. split; [reflexivity |].
  split; [cbn [now log]; congruence |].
  unfold counters_at. cbn [redis redis_faults log].
  split; [exact Hrf2 |].
  rewrite Hoip, Hoph, Hc2, Hredis1.
  rewrite lookup_insert_ne by (apply not_eq_sym, ip_key_not_phone_key).
  rewrite !lookup_insert_eq. repeat split; reflexivity.
Qed.

Lemma route_denied (w : World) (a n x : Z) :
  counters_at req p w a n x -> now w < x ->
  0 <= a < limit * 2 -> limit <= n -> in_int64 n ->
  exists w',
    request_otp_route cfg req w = (too_many_for_phone, w')
    /\ now w' = now w
    /\ counters_at req p w' (a + 1) n x.
Proof.
  intros (Hrf & Hip & Hph & Hcnt) Hx Ha Hn Hin.
  unfold request_otp_route. fold limit window.
  destruct (OTPRateLimit_denied limit window req p otp w Hbody
              (invalid_iranian_format_nonempty p Hfmt) Hrf a n x x)
    as (w1 & Hmw & Hnow1 & Hrf1 & Hredis1);
    try assumption; [rewrite wrap_double; exact Ha |].
  rewrite Hmw. eexists. split; [reflexivity |]. split; [exact Hnow1 |].
  unfold counters_at. split; [exact Hrf1 |]. rewrite Hredis1.
  rewrite lookup_insert_eq.
  rewrite !lookup_insert_ne
    by first [apply ip_key_not_phone_key
             | apply not_eq_sym, counter_key_not_ip_key; exact Hfmt].
  repeat split; assumption.
Qed.

(** Counters that have expired are as good as absent. *)
Lemma counters_expired (w : World) (a n x : Z) :
  counters_at req p w a n x -> x <= now w -> counters_absent req p w.
Proof.
  intros (_ & Hip & Hph & Hcnt) Hx.
  repeat split; eapply lookup_live_expired; eassumption.
Qed.

Lemma route_seq_below (ds : list Z) :
  forall (w : World) (n x : Z),
    counters_at req p w n n x ->
    Forall (fun d => 0 <= d) ds ->
    now w + sum_delays ds < x ->
    0 <= n -> n + Z.of_nat (length ds) <= limit ->
    let rs := fst (request_otp_seq cfg req ds w) in
    let w' := snd (request_otp_seq cfg req ds w) in
    forallb accepted rs = true /\ length rs = length ds
    /\ now w' = now w + sum_delays ds
    /\ counters_at req p w' (n + Z.of_nat (length ds))
         (n + Z.of_nat (length ds)) x.
Proof.
  induction ds as [| d ds IH]; intros w n x Hc Hds Hx Hn Hlim.
  - cbn. rewrite !Z.add_0_r.
    split; [reflexivity |]. split; [reflexivity |].
    split; [reflexivity | exact Hc].
  - cbn [request_otp_seq]. inversion Hds as [| d' ds' Hd Hds']; subst.
    cbn [sum_delays fold_right] in Hx. fold (sum_delays ds) in Hx.
    assert (Hsum : 0 <= sum_delays ds).
    { clear -Hds'. induction Hds' as [| y l Hy _ IHl]; cbn; [lia |].
      fold (sum_delays l). lia. }
    cbn [length] in Hlim. rewrite Nat2Z.inj_succ in Hlim.
    destruct (route_below (elapse d w) n n x)
      as (w1 & Hroute & Hacc & Hnow1 & Hc1);
      [exact Hc | cbn [now elapse]; lia | lia | lia |].
    rewrite Hroute. cbn [now elapse] in Hnow1.
    specialize (IH w1 (n + 1) x Hc1 Hds').
    destruct (request_otp_seq cfg req ds w1) as [rs w2].
    cbn [fst snd] in *.
    destruct IH as (Hall & Hlen & Hnow2 & Hc2); try lia.
    split; [cbn [forallb]; rewrite Hacc; exact Hall |].
    split; [cbn [length]; congruence |].
    split; [rewrite Hnow2, Hnow1; cbn [sum_delays fold_right];
            fold (sum_delays ds); lia |].
    cbn [length]. rewrite Nat2Z.inj_succ.
    replace (n + Z.succ (Z.of_nat (length ds)))
      with (n + 1 + Z.of_nat (length ds)) by lia.
    exact Hc2.
Qed.

(** X8.  The boundary of the window on the whole route: from an address
    and for an identity without live counters, [limit] requests in
    sequence are answered 200, the next one within the window is answered
    429 by the phone-number scope of the middleware, and a request made
    once the window has elapsed is answered 200 again, all three counters
    being set anew to 1. *)
Lemma route_rate_limit_window (w : World) (ds : list Z) (d_over d_next : Z) :
  redis_faults w = [] -> counters_absent req p w ->
  Z.of_nat (length ds) = limit - 1 ->
  Forall (fun d => 0 <= d) ds -> 0 <= d_over ->
  sum_delays ds + d_over < window ->
  window <= sum_delays ds + d_over + d_next ->
  let first := request_otp_seq cfg req (0 :: ds) w in
  let over := request_otp_route cfg req (elapse d_over (snd first)) in
  let next := request_otp_route cfg req (elapse d_next (snd over)) in
  Z.of_nat (length (fst first)) = limit
  /\ forallb accepted (fst first) = true
  /\ fst over = too_many_for_phone
  /\ accepted (fst next) = true
  /\ counters_at req p (snd next) 1 1 (now (snd next) + window).
Proof.
  intros Hrf Habs Hcount Hds Hover Hin Hout.
  cbn [request_otp_seq].
  destruct (route_fresh (elapse 0 w)) as (w1 & Hroute & Hacc & Hnow1 & Hc1);
    [exact Hrf | |].
  { destruct Habs as (H1 & H2 & H3).
    unfold counters_absent, Redis.lookup_live in *. cbn [redis now elapse].
    rewrite Z.add_0_r. repeat split; assumption. }
  rewrite Hroute. cbn [now elapse] in Hnow1, Hc1.
  rewrite Z.add_0_r in Hnow1, Hc1.
  pose proof (route_seq_below ds w1 1 (now w + window) Hc1 Hds) as Hseq.
  destruct (request_otp_seq cfg req ds w1) as [rs w2].
  cbn [fst snd] in Hseq |- *.
  destruct Hseq as (Hall & Hlen & Hnow2 & Hc2); try lia.
  replace (1 + Z.of_nat (length ds)) with limit in Hc2 by lia.
  destruct (route_denied (elapse d_over w2) limit limit (now w + window))
    as (w3 & Hden & Hnow3 & Hc3);
    [exact Hc2 | cbn [now elapse]; lia | lia | lia
    | unfold in_int64, min_int64, max_int64 in *; lia |].
  rewrite Hden. cbn [fst snd].
  cbn [now elapse] in Hnow3.
  destruct (route_fresh (elapse d_next w3))
    as (w4 & Hroute4 & Hacc4 & Hnow4 & Hc4).
  { destruct Hc3 as (H & _). exact H. }
  { apply (counters_expired _ (limit + 1) limit (now w + window));
      [exact Hc3 | cbn [now elapse]; lia]. }
  rewrite Hroute4. cbn [fst snd].
  split; [cbn [length]; rewrite Hlen; lia |].
  split; [cbn [forallb]; rewrite Hacc; exact Hall |].
  split; [reflexivity |]. split; [exact Hacc4 |].
  rewrite Hnow4. exact Hc4.
Qed.

End Route.

Example route_rate_limit_window_sample :
  let req := otp_request sample_phone in
  let first :=
    request_otp_seq sample_config req [0; Second; Second] empty_world in
  let over := request_otp_route sample_config req (elapse Second (snd first)) in
  let next :=
    request_otp_route sample_config req (elapse (600 * Second) (snd over)) in
  List.map status (fst first) = [StatusOK; StatusOK; StatusOK]
  /\ fst over = too_many_for_phone
  /\ status (fst next) = StatusOK.
Proof. vm_compute. repeat split; reflexivity. Qed.

(** * Further properties of the code *)

(** ** Integer power *)

Lemma wrap64_mul_l (a b : Z) : wrap64 (wrap64 a * b) = wrap64 (a * b).
Proof.
  unfold wrap64. f_equal.
  rewrite (Z.mod_eq (a + 2 ^ 63) (2 ^ 64)) by lia.
  replace ((a + 2 ^ 63 - 2 ^ 64 * ((a + 2 ^ 63) / 2 ^ 64) - 2 ^ 63) * b
           + 2 ^ 63)
    with (a * b + 2 ^ 63 + (- ((a + 2 ^ 63) / 2 ^ 64) * b) * 2 ^ 64)
    by ring.
  apply Z_mod_plus_full.
Qed.

Lemma wrap64_idem (a : Z) : wrap64 (wrap64 a) = wrap64 a.
Proof. apply wrap64_small, wrap64_range. Qed.

Lemma powInt_loop_wraps (x : Z) (k : nat) :
  forall r : Z,
    wrap64 (powInt_loop k x r) = wrap64 (r * x ^ Z.of_nat k).
Proof.
  induction k as [| k IH]; intros r.
  - cbn [powInt_loop]. change (x ^ Z.of_nat 0) with 1. f_equal. lia.
  - cbn [powInt_loop]. rewrite IH, wrap64_mul_l.
    rewrite Nat2Z.inj_succ, Z.pow_succ_r by lia. f_equal. ring.
Qed.

Lemma powInt_loop_in_range (x : Z) (k : nat) :
  forall r : Z, in_int64 r -> in_int64 (powInt_loop k x r).
Proof.
  induction k as [| k IH]; intros r Hr; cbn [powInt_loop].
  - exact Hr.
  - apply IH, wrap64_range.
Qed.

(** X1.  [powInt x y] is [x] to the power [y] reduced to a signed 64-bit
    integer (two's complement wrap-around), and 1 when the exponent is
    zero or negative: the loop body then never runs. *)
Theorem powInt_wraps (x y : Z) :
  powInt x y = if y <=? 0 then 1 else wrap64 (x ^ y).
Proof.
  unfold powInt. destruct (y <=? 0) eqn:Hy.
  - apply Z.leb_le in Hy.
    replace (Z.to_nat y) with 0%nat by lia. reflexivity.
  - apply Z.leb_gt in Hy.
    rewrite <- (wrap64_small (powInt_loop (Z.to_nat y) x 1)).
    + rewrite powInt_loop_wraps, Z2Nat.id by lia. f_equal. lia.
    + apply powInt_loop_in_range.
      unfold in_int64, min_int64, max_int64. lia.
Qed.

(** ** The challenge in the store *)

Lemma expiry_for_live (w : World) (k v : string) (x : Z) :
  Redis.live_at (now w) (Entry v (Redis.expiry_for w k x)) = true.
Proof.
  unfold Redis.live_at, Redis.expiry_for. cbn [e_exp].
  destruct (0 <? x) eqn:Hx.
  - apply Z.ltb_lt in Hx. apply Z.ltb_lt. lia.
  - destruct (x =? -1); [| reflexivity].
    unfold Redis.lookup_live.
    destruct (redis w !! k) as [e |]; [| reflexivity].
    unfold Redis.live_at.
    destruct (e_exp e) as [t |] eqn:He; [| rewrite He; reflexivity].
    destruct (now w <? t) eqn:Ht; [rewrite He; exact Ht | reflexivity].
Qed.

(** X3.  Store and fetch: with a working store and a positive time to
    live, [StoreOTP] succeeds, whatever was stored for the phone number
    before; [GetOTP] then returns the stored code as long as less than the
    time to live has passed, and "OTP not found or expired" from the
    instant the time to live has passed. *)
Theorem StoreOTP_then_GetOTP
    (p otp : string) (ttl d : Z) (w : World) :
  next_fault (redis_faults w) = None ->
  next_fault (tl (redis_faults w)) = None ->
  0 < ttl ->
  let w1 := snd (RedisOTPRepository.StoreOTP p otp ttl w) in
  fst (RedisOTPRepository.StoreOTP p otp ttl w) = Ok tt
  /\ (d < ttl -> fst (RedisOTPRepository.GetOTP p (elapse d w1)) = Ok otp)
  /\ (ttl <= d ->
      fst (RedisOTPRepository.GetOTP p (elapse d w1))
      = Err "OTP not found or expired").
Proof.
  intros H1 H2 Httl. cbv zeta.
  unfold RedisOTPRepository.StoreOTP. rewrite Set_ok by exact H1.
  cbn [fst snd]. split; [reflexivity |].
  assert (Hexp : Redis.expiry_for w (RedisOTPRepository.otpKeyPrefix +:+ p) ttl
                 = Some (now w + ttl)).
  { unfold Redis.expiry_for.
    assert ((0 <? ttl) = true) as -> by (apply Z.ltb_lt; lia). reflexivity. }
  rewrite Hexp.
  split; intros Hd; rewrite GetOTP_ok by exact H2; unfold stored_code.
  - erewrite lookup_live_Some;
      [reflexivity | cbn [redis elapse with_redis]; apply lookup_insert_eq
      | cbn [now elapse with_redis redis_done with_redis_faults log]; lia].
  - erewrite lookup_live_expired;
      [reflexivity | cbn [redis elapse with_redis]; apply lookup_insert_eq
      | cbn [now elapse with_redis redis_done with_redis_faults log]; lia].
Qed.

Lemma StoreOTP_then_GetOTP_witness :
  let w1 :=
    snd (RedisOTPRepository.StoreOTP sample_phone "424242" (120 * Second)
           world_with_challenge) in
  fst (RedisOTPRepository.GetOTP sample_phone (elapse (119 * Second) w1))
  = Ok "424242"
  /\ fst (RedisOTPRepository.GetOTP sample_phone (elapse (120 * Second) w1))
     = Err "OTP not found or expired".
Proof.
  split.
  - apply (StoreOTP_then_GetOTP sample_phone "424242" (120 * Second)
             (119 * Second) world_with_challenge);
      vm_compute; reflexivity.
  - apply (StoreOTP_then_GetOTP sample_phone "424242" (120 * Second)
             (120 * Second) world_with_challenge);
      vm_compute; congruence.
Defined.

(** X4.  Consuming is idempotent: with a working store [DeleteOTP]
    returns no error whether or not a challenge is stored; afterwards no
    challenge is stored, and a second [DeleteOTP] returns no error either
    and leaves the store as it is. *)
Theorem DeleteOTP_idempotent (p : string) (w : World) :
  next_fault (redis_faults w) = None ->
  next_fault (tl (redis_faults w)) = None ->
  let w1 := snd (RedisOTPRepository.DeleteOTP p w) in
  fst (RedisOTPRepository.DeleteOTP p w) = Ok tt
  /\ (forall d : Z, stored_code (elapse d w1) p = None)
  /\ fst (RedisOTPRepository.DeleteOTP p w1) = Ok tt
  /\ redis (snd (RedisOTPRepository.DeleteOTP p w1)) = redis w1.
Proof.
  intros H1 H2. cbv zeta.
  rewrite DeleteOTP_ok by exact H1. cbn [fst snd].
  split; [reflexivity |]. split.
  - intros d. unfold stored_code. erewrite lookup_live_deleted; reflexivity.
  - rewrite DeleteOTP_ok by exact H2. cbn [fst snd redis with_redis].
    split; [reflexivity |]. apply delete_id. apply lookup_delete_eq.
Qed.

Lemma DeleteOTP_idempotent_witness :
  fst (RedisOTPRepository.DeleteOTP sample_phone empty_world) = Ok tt
  /\ fst (RedisOTPRepository.DeleteOTP sample_phone
            (snd (RedisOTPRepository.DeleteOTP sample_phone
                    world_with_challenge))) = Ok tt.
Proof.
  split.
  - apply (DeleteOTP_idempotent sample_phone empty_world); reflexivity.
  - apply (DeleteOTP_idempotent sample_phone world_with_challenge);
      reflexivity.
Defined.

(** ** Issuing a code *)

Lemma Set_now (k v : string) (x : Z) (w : World) :
  now (snd (Redis.Set_ k v x w)) = now w.
Proof.
  unfold Redis.Set_. rewrite start_eq. destruct (next_fault _); reflexivity.
Qed.

Lemma Incr_now (k : string) (w : World) :
  now (snd (Redis.Incr k w)) = now w.
Proof.
  unfold Redis.Incr. rewrite start_eq.
  destruct (next_fault _); [reflexivity |].
  destruct (Redis.lookup_live _ _) as [e |]; [| reflexivity].
  destruct (Redis.int_value _); [| reflexivity].
  destruct (_ <=? _); reflexivity.
Qed.

Lemma IncrementRateLimit_now (p : string) (x : Z) (w : World) :
  now (snd (RedisOTPRepository.IncrementRateLimit p x w)) = now w.
Proof.
  unfold RedisOTPRepository.IncrementRateLimit. fold (counter_key p).
  pose proof (Exists_world (counter_key p) w) as Hw.
  destruct (Redis.Exists (counter_key p) w) as [r w1].
  cbn [snd] in Hw. subst w1.
  destruct r as [n | | msg]; try reflexivity.
  destruct (n =? 0).
  - pose proof (Set_now (counter_key p) "1" x
                  (redis_done (EvExists (counter_key p)) w)) as H.
    destruct (Redis.Set_ _ _ _ _) as [r w1]. cbn [snd] in H.
    destruct r; exact H.
  - pose proof (Incr_now (counter_key p)
                  (redis_done (EvExists (counter_key p)) w)) as H.
    destruct (Redis.Incr _ _) as [r w1]. cbn [snd] in H.
    destruct r; exact H.
Qed.

(** What a successful [GenerateOTP] has stored. *)
Lemma GenerateOTP_Ok_entry (cfg : Config) (p otp : string) (w : World) :
  fst (AuthService.GenerateOTP cfg p w) = Returns (Ok otp) ->
  let w' := snd (AuthService.GenerateOTP cfg p w) in
  now w' = now w
  /\ generateRandomOTP (prng w (now w)) (Length (OTP cfg)) = Some otp
  /\ redis w' !! (RedisOTPRepository.otpKeyPrefix +:+ p)
     = Some (Entry otp
               (Redis.expiry_for w (RedisOTPRepository.otpKeyPrefix +:+ p)
                  (GetOTPExpiration cfg))).
Proof.
  cbv zeta. unfold AuthService.GenerateOTP.
  pose proof (CheckRateLimit_world p (Count (RateLimit (OTP cfg)))
                (GetRateLimitDuration cfg) w) as Hw.
  destruct (RedisOTPRepository.CheckRateLimit p _ _ w) as [r w1].
  cbn [snd] in Hw. subst w1.
  destruct r as [[|] | e]; try discriminate.
  change (prng (redis_done _ w)) with (prng w).
  change (now (redis_done _ w)) with (now w).
  destruct (generateRandomOTP _ _) as [code |]; [| discriminate].
  unfold RedisOTPRepository.StoreOTP, Redis.Set_. rewrite start_eq.
  destruct (next_fault _); [discriminate |].
  match goal with
  | |- context [RedisOTPRepository.IncrementRateLimit p ?x ?w2] =>
      pose proof (IncrementRateLimit_other p x w2
                    (RedisOTPRepository.otpKeyPrefix +:+ p)
                    (not_eq_sym (otp_key_not_counter_key p))) as Hoth;
      pose proof (IncrementRateLimit_now p x w2) as Hnow;
      destruct (RedisOTPRepository.IncrementRateLimit p x w2) as [r2 w3]
  end.
  cbn [snd] in Hoth, Hnow. destruct r2; [| discriminate].
  cbn [fst snd]. intros Heq. injection Heq as <-.
  split; [exact Hnow |]. split; [reflexivity |].
  rewrite Hoth. cbn [redis with_redis]. apply lookup_insert_eq.
Qed.

Lemma GenerateOTP_Ok_stored (cfg : Config) (p otp : string) (w : World) :
  fst (AuthService.GenerateOTP cfg p w) = Returns (Ok otp) ->
  stored_code (snd (AuthService.GenerateOTP cfg p w)) p = Some otp.
Proof.
  intros H. destruct (GenerateOTP_Ok_entry cfg p otp w H) as (Hn & _ & He).
  unfold stored_code, Redis.lookup_live. rewrite He, Hn, expiry_for_live.
  reflexivity.
Qed.

(** X5.  One active challenge: when [GenerateOTP] returns a code, that
    code is what the generator drew for the current instant, and it is the
    challenge now stored for the phone number, whatever was stored
    before. *)
Theorem GenerateOTP_stores_returned_code
    (cfg : Config) (p otp : string) (w : World) :
  fst (AuthService.GenerateOTP cfg p w) = Returns (Ok otp) ->
  generateRandomOTP (prng w (now w)) (Length (OTP cfg)) = Some otp
  /\ stored_code (snd (AuthService.GenerateOTP cfg p w)) p = Some otp.
Proof.
  intros H. split.
  - apply (GenerateOTP_Ok_entry cfg p otp w H).
  - apply GenerateOTP_Ok_stored, H.
Qed.

Lemma GenerateOTP_stores_returned_code_witness :
  stored_code
    (snd (AuthService.GenerateOTP sample_config sample_phone
            world_with_challenge)) sample_phone = Some "100000".
Proof.
  apply (GenerateOTP_stores_returned_code sample_config sample_phone
           "100000" world_with_challenge).
  vm_compute. reflexivity.
Defined.

(** X6.  A refusal issues nothing: when [GenerateOTP] returns "rate limit
    exceeded" it has read the counter and done nothing else; the store,
    and with it a challenge issued earlier, is as before, and the counter
    has not been incremented. *)
Theorem GenerateOTP_refusal_only_reads
    (cfg : Config) (p : string) (w : World) :
  fst (AuthService.GenerateOTP cfg p w) = Returns (Err "rate limit exceeded") ->
  snd (AuthService.GenerateOTP cfg p w) = redis_done (EvGet (counter_key p)) w.
Proof.
  unfold AuthService.GenerateOTP.
  pose proof (CheckRateLimit_world p (Count (RateLimit (OTP cfg)))
                (GetRateLimitDuration cfg) w) as Hw.
  destruct (RedisOTPRepository.CheckRateLimit p _ _ w) as [r w1].
  cbn [snd] in Hw. subst w1.
  destruct r as [[|] | e]; [reflexivity | | reflexivity].
  destruct (generateRandomOTP _ _) as [code |]; [| discriminate].
  destruct (RedisOTPRepository.StoreOTP _ _ _ _) as [r1 w1].
  destruct r1; [| discriminate].
  destruct (RedisOTPRepository.IncrementRateLimit _ _ _) as [r2 w2].
  destruct r2; discriminate.
Qed.

Lemma GenerateOTP_refusal_only_reads_witness :
  let w :=
    with_redis {[ "rate_limit:09123456789" := Entry "3" None ]}
      world_with_challenge in
  snd (AuthService.GenerateOTP sample_config sample_phone w)
  = redis_done (EvGet (counter_key sample_phone)) w.
Proof.
  apply (GenerateOTP_refusal_only_reads sample_config sample_phone).
  vm_compute. reflexivity.
Defined.

(** X17.  A configured count of zero (or less) refuses every request:
    with no live counter, or with a counter that is not negative,
    [GenerateOTP] answers "rate limit exceeded". *)
Theorem GenerateOTP_zero_count_refuses
    (cfg : Config) (p : string) (w : World) :
  Count (RateLimit (OTP cfg)) <= 0 ->
  next_fault (redis_faults w) = None ->
  (Redis.lookup_live w (counter_key p) = None
   \/ exists (e : entry) (n : Z),
        Redis.lookup_live w (counter_key p) = Some e
        /\ Strconv.Atoi (e_val e) = Some n /\ 0 <= n) ->
  fst (AuthService.GenerateOTP cfg p w) = Returns (Err "rate limit exceeded").
Proof.
  intros Hcount Hnf Hcounter.
  unfold AuthService.GenerateOTP, RedisOTPRepository.CheckRateLimit.
  fold (counter_key p). rewrite Get_ok by exact Hnf.
  destruct Hcounter as [-> | (e & n & -> & Hn & Hpos)].
  - cbn [Redis.Int].
    assert ((Count (RateLimit (OTP cfg)) <=? 0) = true) as ->
        by (apply Z.leb_le; lia).
    reflexivity.
  - cbn [Redis.Int]. rewrite Hn.
    assert ((Count (RateLimit (OTP cfg)) <=? n) = true) as ->
        by (apply Z.leb_le; lia).
    reflexivity.
Qed.

Lemma GenerateOTP_zero_count_refuses_witness :
  fst (AuthService.GenerateOTP
         {| JWT := JWT sample_config;
            OTP := {| Expiration := 120; Length := 6;
                      RateLimit := {| Count := 0; Time := 10 |} |} |}
         sample_phone empty_world)
  = Returns (Err "rate limit exceeded").
Proof.
  apply GenerateOTP_zero_count_refuses;
    [vm_compute; discriminate | reflexivity | left; reflexivity].
Defined.

(** X7.  Issue, then verify: a code returned by [GenerateOTP] with a
    positive expiration verifies (a token and a user are returned, store,
    directory and signer working) as long as less than the expiration has
    passed, and is answered "OTP not found or expired" from the instant the
    expiration has passed, although it is the right code. *)
Theorem issued_code_verifies_until_expiry
    (cfg : Config) (p otp : string) (w : World) (d : Z) :
  fst (AuthService.GenerateOTP cfg p w) = Returns (Ok otp) ->
  0 < GetOTPExpiration cfg ->
  let w1 := snd (AuthService.GenerateOTP cfg p w) in
  (d < GetOTPExpiration cfg ->
   redis_faults w1 = [] -> db_faults w1 = [] -> sign_faults w1 = [] ->
   can_resolve w1 p = true ->
   exists token user,
     fst (AuthService.VerifyOTP cfg p otp (elapse d w1)) = Ok (token, user))
  /\ (GetOTPExpiration cfg <= d ->
      next_fault (redis_faults w1) = None ->
      fst (AuthService.VerifyOTP cfg p otp (elapse d w1))
      = Err "error retrieving OTP: OTP not found or expired").
Proof.
  intros Hgen Hexp. cbv zeta.
  destruct (GenerateOTP_Ok_entry cfg p otp w Hgen) as (Hn & _ & He).
  assert (Hx : Redis.expiry_for w (RedisOTPRepository.otpKeyPrefix +:+ p)
                 (GetOTPExpiration cfg)
               = Some (now w + GetOTPExpiration cfg)).
  { unfold Redis.expiry_for.
    assert ((0 <? GetOTPExpiration cfg) = true) as ->
        by (apply Z.ltb_lt; lia).
    reflexivity. }
  rewrite Hx in He. split.
  - intros Hd Hrf Hdb Hsg Hres.
    rewrite VerifyOTP_match.
    + apply VerifyOTP_login_ok; assumption.
    + cbn [redis_faults elapse]. rewrite Hrf. reflexivity.
    + cbn [redis_faults elapse]. rewrite Hrf. reflexivity.
    + unfold stored_code. erewrite lookup_live_Some;
        [reflexivity | exact He | cbn [now elapse]; lia].
  - intros Hd Hnf. rewrite VerifyOTP_absent; [reflexivity | exact Hnf |].
    unfold stored_code. erewrite lookup_live_expired;
      [reflexivity | exact He | cbn [now elapse]; lia].
Qed.

Lemma issued_code_verifies_until_expiry_witness :
  let w1 :=
    snd (AuthService.GenerateOTP sample_config sample_phone empty_world) in
  (exists token user,
     fst (AuthService.VerifyOTP sample_config sample_phone "100000"
            (elapse (119 * Second) w1)) = Ok (token, user))
  /\ fst (AuthService.VerifyOTP sample_config sample_phone "100000"
            (elapse (120 * Second) w1))
     = Err "error retrieving OTP: OTP not found or expired".
Proof.
  split.
  - apply (issued_code_verifies_until_expiry sample_config sample_phone
             "100000" empty_world (119 * Second));
      vm_compute; reflexivity.
  - apply (issued_code_verifies_until_expiry sample_config sample_phone
             "100000" empty_world (120 * Second));
      vm_compute; congruence.
Defined.

(** ** The directory during verification *)

Lemma select_by_phone_Some (p : string) (us : list User) (u : User) :
  PostgresUserRepository.select_by_phone p us = Some u ->
  PhoneNumber u = p /\ In u us.
Proof.
  unfold PostgresUserRepository.select_by_phone. intros H.
  apply find_some in H as [Hin Heq]. apply String.eqb_eq in Heq. tauto.
Qed.

Lemma select_by_phone_None (p : string) (us : list User) :
  PostgresUserRepository.select_by_phone p us = None ->
  ~ In p (List.map PhoneNumber us).
Proof.
  unfold PostgresUserRepository.select_by_phone. intros H Hin.
  apply in_map_iff in Hin as (u & Hu & Hin).
  pose proof (find_none _ _ H u Hin) as Hf. cbn in Hf.
  rewrite Hu, String.eqb_refl in Hf. discriminate.
Qed.

Lemma select_by_id_None (id : string) (us : list User) :
  PostgresUserRepository.select_by_id id us = None ->
  ~ In id (List.map ID us).
Proof.
  unfold PostgresUserRepository.select_by_id. intros H Hin.
  apply in_map_iff in Hin as (u & Hu & Hin).
  pose proof (find_none _ _ H u Hin) as Hf. cbn in Hf.
  rewrite Hu, String.eqb_refl in Hf. discriminate.
Qed.

(** The table after [Create]: unchanged, or one row more, whose phone
    number and id were not in the table. *)
Lemma Create_users (p : string) (w : World) :
  let w' := snd (PostgresUserRepository.Create p w) in
  users w' = users w
  \/ exists u : User,
       users w' = users w ++ [u] /\ PhoneNumber u = p
       /\ ~ In p (List.map PhoneNumber (users w))
       /\ ~ In (ID u) (List.map ID (users w)).
Proof.
  unfold PostgresUserRepository.Create, PostgresUserRepository.start.
  cbn [db_faults log uuid_drawn]. rewrite pop_fault_eq.
  destruct (next_fault (db_faults w)); [left; reflexivity |].
  destruct (Nat.ltb 20 _); [left; reflexivity |].
  change (users (with_db_faults _ _)) with (users w).
  destruct (PostgresUserRepository.select_by_phone p (users w)) eqn:Hp;
    [left; reflexivity |].
  destruct (PostgresUserRepository.select_by_id _ (users w)) eqn:Hid;
    [left; reflexivity |].
  right. eexists. split; [reflexivity |]. split; [reflexivity |].
  split; [apply select_by_phone_None, Hp | apply select_by_id_None, Hid].
Qed.

Lemma VerifyOTP_login_users (cfg : Config) (p : string) (w : World) :
  let w' := snd (AuthService.VerifyOTP_login cfg p w) in
  users w' = users w
  \/ exists u : User,
       users w' = users w ++ [u] /\ PhoneNumber u = p
       /\ ~ In p (List.map PhoneNumber (users w))
       /\ ~ In (ID u) (List.map ID (users w)).
Proof.
  unfold AuthService.VerifyOTP_login.
  pose proof (FindByPhoneNumber_world p w) as Hf.
  destruct (PostgresUserRepository.FindByPhoneNumber p w) as [r w1].
  cbn [snd] in Hf.
  assert (Hu1 : users w1 = users w) by (subst w1; reflexivity).
  destruct r as [user | e].
  - pose proof (generateJWT_world cfg user w1) as Hj.
    destruct (AuthService.generateJWT cfg user w1) as [r2 w2].
    cbn [snd] in Hj. left.
    destruct r2; cbn [snd]; subst w2; exact Hu1.
  - pose proof (Create_users p w1) as Hc.
    destruct (PostgresUserRepository.Create p w1) as [r2 w2].
    cbn [snd] in Hc. rewrite Hu1 in Hc.
    destruct r2 as [user | e2]; [| exact Hc].
    pose proof (generateJWT_world cfg user w2) as Hj.
    destruct (AuthService.generateJWT cfg user w2) as [r3 w3].
    cbn [snd] in Hj.
    assert (Hu3 : users w3 = users w2) by (subst w3; reflexivity).
    destruct r3; cbn [snd]; rewrite Hu3; exact Hc.
Qed.

Lemma VerifyOTP_users (cfg : Config) (p c : string) (w : World) :
  let w' := snd (AuthService.VerifyOTP cfg p c w) in
  users w' = users w
  \/ exists u : User,
       users w' = users w ++ [u] /\ PhoneNumber u = p
       /\ ~ In p (List.map PhoneNumber (users w))
       /\ ~ In (ID u) (List.map ID (users w)).
Proof.
  unfold AuthService.VerifyOTP, RedisOTPRepository.GetOTP,
    RedisOTPRepository.DeleteOTP.
  pose proof (Get_world (RedisOTPRepository.otpKeyPrefix +:+ p) w) as Hg.
  destruct (Redis.Get _ w) as [r w1]. cbn [snd] in Hg. subst w1.
  destruct r as [s | | msg]; try (left; reflexivity).
  destruct (negb _); [left; reflexivity |].
  unfold Redis.Del. rewrite start_eq.
  destruct (next_fault _); [left; reflexivity |].
  match goal with
  | |- context [AuthService.VerifyOTP_login cfg p ?w1] =>
      exact (VerifyOTP_login_users cfg p w1)
  end.
Qed.

(** X14.  Verification keeps the table of users free of duplicates: if
    no two users share a phone number and no two share an id, the same
    holds after [VerifyOTP], whatever its outcome; at most one user is
    added, and only for the phone number being verified. *)
Theorem VerifyOTP_keeps_users_unique
    (cfg : Config) (p c : string) (w : World) :
  NoDup (List.map PhoneNumber (users w)) ->
  NoDup (List.map ID (users w)) ->
  let w' := snd (AuthService.VerifyOTP cfg p c w) in
  NoDup (List.map PhoneNumber (users w'))
  /\ NoDup (List.map ID (users w'))
  /\ (users w' = users w
      \/ exists u : User, users w' = users w ++ [u] /\ PhoneNumber u = p).
Proof.
  intros Hp Hid. cbv zeta.
  destruct (VerifyOTP_users cfg p c w) as [-> | (u & -> & Hu & Hnp & Hnid)].
  - split; [exact Hp |]. split; [exact Hid | left; reflexivity].
  - rewrite !List.map_app. cbn [List.map]. rewrite Hu.
    split; [| split].
    + apply NoDup_app. split; [exact Hp |]. split.
      * intros x Hx Hx'. apply list_elem_of_In in Hx.
        apply list_elem_of_singleton in Hx'. subst x. contradiction.
      * apply NoDup_singleton.
    + apply NoDup_app. split; [exact Hid |]. split.
      * intros x Hx Hx'. apply list_elem_of_In in Hx.
        apply list_elem_of_singleton in Hx'. subst x. contradiction.
      * apply NoDup_singleton.
    + right. exists u. split; [reflexivity | exact Hu].
Qed.

Lemma VerifyOTP_keeps_users_unique_witness :
  let w' :=
    snd (AuthService.VerifyOTP sample_config sample_phone "123456"
           world_with_challenge) in
  NoDup (List.map PhoneNumber (users w'))
  /\ NoDup (List.map ID (users w'))
  /\ (users w' = users world_with_challenge
      \/ exists u : User,
           users w' = users world_with_challenge ++ [u]
           /\ PhoneNumber u = sample_phone).
Proof.
  apply (VerifyOTP_keeps_users_unique sample_config sample_phone "123456"
           world_with_challenge); vm_compute; constructor.
Defined.

(** X15.  A user that exists is reused: when the code matches and the
    directory has a user with the phone number, [VerifyOTP] deletes the
    challenge, looks the user up and signs; it does not create a user,
    the table is unchanged, and the user it returns is the one of the
    directory. *)
Theorem VerifyOTP_reuses_existing_user
    (cfg : Config) (p c : string) (w : World) (u : User) :
  next_fault (redis_faults w) = None ->
  next_fault (tl (redis_faults w)) = None ->
  next_fault (db_faults w) = None ->
  stored_code w p = Some c ->
  PostgresUserRepository.select_by_phone p (users w) = Some u ->
  let key := RedisOTPRepository.otpKeyPrefix +:+ p in
  let r := fst (AuthService.VerifyOTP cfg p c w) in
  let w' := snd (AuthService.VerifyOTP cfg p c w) in
  PhoneNumber u = p
  /\ users w' = users w
  /\ trace w'
     = trace w ++ [EvGet key; EvDel key; EvFindByPhoneNumber p; EvSign (ID u) p]
  /\ (forall token user, r = Ok (token, user) -> user = u)
  /\ (next_fault (sign_faults w) = None -> exists token, r = Ok (token, u)).
Proof.
  intros H1 H2 Hdb Hs Hu. cbv zeta.
  destruct (select_by_phone_Some p _ u Hu) as [Hphone _].
  split; [exact Hphone |].
  rewrite VerifyOTP_match by assumption.
  unfold AuthService.VerifyOTP_login.
  rewrite FindByPhoneNumber_ok by exact Hdb.
  change (users (after_consume p w)) with (users w). rewrite Hu.
  pose proof (generateJWT_world cfg u
                (db_done (EvFindByPhoneNumber p) (after_consume p w))) as Hj.
  pose proof (generateJWT_ok cfg u
                (db_done (EvFindByPhoneNumber p) (after_consume p w))) as Hok.
  destruct (AuthService.generateJWT cfg u _) as [r2 w2].
  cbn [fst snd] in Hj, Hok. subst w2.
  assert (Hgoal :
    users (with_sign_faults
             (tl (sign_faults (db_done (EvFindByPhoneNumber p)
                                 (after_consume p w))))
             (log (EvSign (ID u) (PhoneNumber u))
                (db_done (EvFindByPhoneNumber p) (after_consume p w))))
    = users w
    /\ trace (with_sign_faults
                (tl (sign_faults (db_done (EvFindByPhoneNumber p)
                                    (after_consume p w))))
                (log (EvSign (ID u) (PhoneNumber u))
                   (db_done (EvFindByPhoneNumber p) (after_consume p w))))
       = trace w
         ++ [EvGet (RedisOTPRepository.otpKeyPrefix +:+ p);
             EvDel (RedisOTPRepository.otpKeyPrefix +:+ p);
             EvFindByPhoneNumber p; EvSign (ID u) p]).
  { split; [reflexivity |]. cbn. rewrite Hphone, <- !app_assoc. reflexivity. }
  destruct Hgoal as [Hg1 Hg2].
  destruct r2 as [token | e]; cbn [fst snd].
  - split; [exact Hg1 |]. split; [exact Hg2 |]. split.
    + intros token' user Heq. injection Heq as _ <-. reflexivity.
    + intros _. exists token. reflexivity.
  - split; [exact Hg1 |]. split; [exact Hg2 |]. split.
    + intros token' user Heq. discriminate Heq.
    + intros Hsg. destruct (Hok Hsg) as (token & Htok). discriminate Htok.
Qed.

Lemma VerifyOTP_reuses_existing_user_witness :
  let u :=
    {| ID := "6ba7b810-9dad-41d1-80b4-00c04fd430c8";
       PhoneNumber := sample_phone; CreatedAt := 0; UpdatedAt := 0 |} in
  let w := with_new_user u world_with_challenge in
  users (snd (AuthService.VerifyOTP sample_config sample_phone "123456" w))
  = [u]
  /\ exists token,
       fst (AuthService.VerifyOTP sample_config sample_phone "123456" w)
       = Ok (token, u).
Proof.
  cbv zeta.
  destruct (VerifyOTP_reuses_existing_user sample_config sample_phone
              "123456"
              (with_new_user
                 {| ID := "6ba7b810-9dad-41d1-80b4-00c04fd430c8";
                    PhoneNumber := sample_phone; CreatedAt := 0;
                    UpdatedAt := 0 |} world_with_challenge)
              {| ID := "6ba7b810-9dad-41d1-80b4-00c04fd430c8";
                 PhoneNumber := sample_phone; CreatedAt := 0;
                 UpdatedAt := 0 |})
    as (_ & Hu & _ & _ & Hok); try (vm_compute; reflexivity).
  split; [exact Hu | apply Hok; reflexivity].
Defined.

(** X18.  A failure of the store during verification is answered 500, not
    401, and ends the request: if the fetch fails nothing else happens;
    if the fetch succeeds, the code matches and the delete fails, no user
    is looked up or created and no token is signed. *)
Theorem verify_store_failure_is_500
    (cfg : Config) (req : Request) (p c msg : string) (w : World) :
  Binding.VerifyOTPRequest (Body req) = Ok (p, c) ->
  AuthHandler.invalid_iranian_format p = false ->
  let key := RedisOTPRepository.otpKeyPrefix +:+ p in
  (next_fault (redis_faults w) = Some msg ->
   verify_otp_route cfg req w
   = (JSON StatusInternalServerError
        (ErrorResponse
           ("Error verifying OTP: error retrieving OTP: "
            +:+ "error retrieving OTP: " +:+ msg)),
      redis_done (EvGet key) w))
  /\ (next_fault (redis_faults w) = None ->
      next_fault (tl (redis_faults w)) = Some msg ->
      stored_code w p = Some c ->
      verify_otp_route cfg req w
      = (JSON StatusInternalServerError
           (ErrorResponse
              ("Error verifying OTP: error deleting OTP: "
               +:+ "error deleting OTP: " +:+ msg)),
         redis_done (EvDel key) (redis_done (EvGet key) w))).
Proof.
  intros Hbind Hfmt. cbv zeta.
  unfold verify_otp_route, AuthHandler.VerifyOTP.
  rewrite Hbind, (invalid_iranian_format_nonempty p Hfmt), Hfmt.
  unfold AuthService.VerifyOTP. split.
  - intros Hf. unfold RedisOTPRepository.GetOTP.
    rewrite Get_fault with (msg := msg) by exact Hf. reflexivity.
  - intros H1 H2 Hs. rewrite GetOTP_ok by exact H1.
    rewrite Hs, String.eqb_refl. cbn [negb].
    unfold RedisOTPRepository.DeleteOTP, Redis.Del.
    rewrite start_eq.
    change (redis_faults (redis_done _ w)) with (tl (redis_faults w)).
    rewrite H2. reflexivity.
Qed.

Lemma verify_store_failure_is_500_witness :
  status
    (fst (verify_otp_route sample_config (verify_request "123456")
            (with_redis_faults [Some "i/o timeout"] world_with_challenge)))
  = StatusInternalServerError
  /\ trace
       (snd (verify_otp_route sample_config (verify_request "123456")
               (with_redis_faults [None; Some "i/o timeout"]
                  world_with_challenge)))
     = [EvGet "otp:09123456789"; EvDel "otp:09123456789"].
Proof.
  destruct (verify_store_failure_is_500 sample_config
              (verify_request "123456") sample_phone "123456" "i/o timeout"
              (with_redis_faults [Some "i/o timeout"] world_with_challenge)
              eq_refl eq_refl) as (Hget & _).
  destruct (verify_store_failure_is_500 sample_config
              (verify_request "123456") sample_phone "123456" "i/o timeout"
              (with_redis_faults [None; Some "i/o timeout"]
                 world_with_challenge)
              eq_refl eq_refl) as (_ & Hdel).
  rewrite (Hget eq_refl).
  rewrite (Hdel eq_refl eq_refl ltac:(vm_compute; reflexivity)).
  split; reflexivity.
Defined.

(** X13.  On the route that verifies a code nothing stands before the
    handler: a request that fails the binding (not JSON, a missing field,
    a code that is not six characters or not numeric) or whose phone
    number fails the shape test is answered 400 and leaves the world as
    it is; no store operation happens. *)
Theorem verify_rejects_malformed_before_store
    (cfg : Config) (req : Request) (w : World) :
  match Binding.VerifyOTPRequest (Body req) with
  | Err _ => True
  | Ok (p, _) => AuthHandler.invalid_iranian_format p = true
  end ->
  snd (verify_otp_route cfg req w) = w
  /\ status (fst (verify_otp_route cfg req w)) = StatusBadRequest.
Proof.
  unfold verify_otp_route, AuthHandler.VerifyOTP.
  destruct (Binding.VerifyOTPRequest (Body req)) as [[p c] | e].
  - intros ->. destruct (String.eqb p ""); split; reflexivity.
  - intros _. split; reflexivity.
Qed.

Lemma verify_rejects_malformed_before_store_witness :
  let req :=
    {| ClientIP := "192.0.2.1"; Body := BodyJSON sample_phone "12345";
       Authorization := AuthEmpty |} in
  snd (verify_otp_route sample_config req world_with_challenge)
  = world_with_challenge
  /\ status (fst (verify_otp_route sample_config req world_with_challenge))
     = StatusBadRequest.
Proof.
  apply (verify_rejects_malformed_before_store sample_config
           {| ClientIP := "192.0.2.1"; Body := BodyJSON sample_phone "12345";
              Authorization := AuthEmpty |} world_with_challenge).
  vm_compute. exact I.
Defined.

(** ** More on the middleware and the route of the request for a code *)

Lemma OTPRateLimit_phone_not_address_denial
    (limit window : Z) (b : bool) (phoneKey : string) (w : World) :
  fst (RateLimitMiddleware.OTPRateLimit_phone limit window b phoneKey w)
  <> Abort (JSON StatusTooManyRequests (ErrorResponse "Rate limit exceeded")).
Proof.
  unfold RateLimitMiddleware.OTPRateLimit_phone.
  destruct b; [| discriminate].
  destruct (Redis.Get phoneKey w) as [r w1].
  destruct (Redis.Int r) as [phoneCount | | msg].
  - destruct (limit <=? phoneCount); [discriminate |].
    destruct (Redis.Incr _ _). discriminate.
  - destruct (Redis.Set_ _ _ _ _). discriminate.
  - discriminate.
Qed.

(** X9.  The address scope comes first and stops the request: when the
    middleware answers 429 "Rate limit exceeded", the address counter is
    live and has reached twice the limit; the middleware has read that
    counter and done nothing else, so the address counter is not
    incremented and the phone-number counter is neither read nor
    written. *)
Theorem address_denial_stops_at_first_read
    (limit window : Z) (req : Request) (w : World) :
  fst (RateLimitMiddleware.OTPRateLimit limit window req w)
  = Abort (JSON StatusTooManyRequests (ErrorResponse "Rate limit exceeded")) ->
  snd (RateLimitMiddleware.OTPRateLimit limit window req w)
  = redis_done (EvGet (ip_key req)) w
  /\ exists (e : entry) (ipCount : Z),
       Redis.lookup_live w (ip_key req) = Some e
       /\ Strconv.Atoi (e_val e) = Some ipCount
       /\ wrap64 (limit * 2) <= ipCount.
Proof.
  unfold RateLimitMiddleware.OTPRateLimit. fold (ip_key req).
  destruct (Body req) as [| | p otp]; [discriminate | |].
  2: destruct (negb (String.eqb p "")).
  all: cbv iota beta.
  all: unfold Redis.Get; rewrite start_eq;
    destruct (next_fault (redis_faults w)); [discriminate |];
    change (Redis.lookup_live (redis_done (EvGet (ip_key req)) w) (ip_key req))
      with (Redis.lookup_live w (ip_key req));
    destruct (Redis.lookup_live w (ip_key req)) as [e |];
    cbn [Redis.Int].
  all: try (destruct (Redis.Set_ _ _ _ _) as [? w2]; intros H;
            exfalso; exact (OTPRateLimit_phone_not_address_denial _ _ _ _ _ H)).
  all: destruct (Strconv.Atoi (e_val e)) as [ipCount |] eqn:Hatoi;
    [| discriminate].
  all: destruct (wrap64 (limit * 2) <=? ipCount) eqn:Hcmp;
    [ intros _; split; [reflexivity |];
      exists e, ipCount; split; [reflexivity |];
      split; [exact Hatoi | apply Z.leb_le; exact Hcmp]
    | destruct (Redis.Incr _ _) as [? w2]; intros H;
      exfalso; exact (OTPRateLimit_phone_not_address_denial _ _ _ _ _ H) ].
Qed.

Lemma address_denial_stops_at_first_read_witness :
  let w :=
    with_redis {[ "rate_limit:otp:ip:192.0.2.1" := Entry "6" None ]}
      empty_world in
  snd (RateLimitMiddleware.OTPRateLimit 3 (600 * Second)
         (otp_request sample_phone) w)
  = redis_done (EvGet (ip_key (otp_request sample_phone))) w.
Proof.
  apply (address_denial_stops_at_first_read 3 (600 * Second)
           (otp_request sample_phone)).
  vm_compute. reflexivity.
Defined.

Lemma OTPRateLimit_abort_status
    (limit window : Z) (req : Request) (w : World) (r : Response) :
  fst (RateLimitMiddleware.OTPRateLimit limit window req w) = Abort r ->
  status r <> StatusOK.
Proof.
  unfold RateLimitMiddleware.OTPRateLimit,
    RateLimitMiddleware.OTPRateLimit_phone.
  destruct (Body req) as [| | p otp].
  - intros H. injection H as <-. discriminate.
  - destruct (Redis.Get _ w) as [r0 w1].
    destruct (Redis.Int r0) as [ipCount | | msg].
    + destruct (_ <=? _); [intros H; injection H as <-; discriminate |].
      destruct (Redis.Incr _ _). discriminate.
    + destruct (Redis.Set_ _ _ _ _). discriminate.
    + intros H; injection H as <-; discriminate.
  - destruct (negb _).
    all: destruct (Redis.Get _ w) as [r0 w1].
    all: destruct (Redis.Int r0) as [ipCount | | msg];
      [ destruct (_ <=? _); [intros H; injection H as <-; discriminate |];
        destruct (Redis.Incr _ _) as [? w2]
      | destruct (Redis.Set_ _ _ _ _) as [? w2]
      | intros H; injection H as <-; discriminate ].
    all: try discriminate.
    all: destruct (Redis.Get _ w2) as [reply1 w3];
      destruct (Redis.Int reply1) as [phoneCount | | msg'];
      [ destruct (_ <=? _); [intros H; injection H as <-; discriminate |];
        destruct (Redis.Incr _ _); discriminate
      | destruct (Redis.Set_ _ _ _ _); discriminate
      | intros H; injection H as <-; discriminate ].
Qed.

(** X16.  The code goes to the log, not to the response: when the route
    answers 200, the body named a well-shaped phone number, the response
    carries only the fixed message, and the last thing done was to print a
    code for that phone number, which is the challenge now stored for
    it. *)
Theorem accepted_request_prints_stored_code
    (cfg : Config) (req : Request) (w : World) :
  status (fst (request_otp_route cfg req w)) = StatusOK ->
  exists (p c otp : string) (before : list Event),
    Body req = BodyJSON p c
    /\ AuthHandler.invalid_iranian_format p = false
    /\ fst (request_otp_route cfg req w)
       = JSON StatusOK
           (RequestOTPResponse
              "OTP sent successfully. Check server logs for the code.")
    /\ trace (snd (request_otp_route cfg req w))
       = before ++ [EvPrintOTP p otp]
    /\ stored_code (snd (request_otp_route cfg req w)) p = Some otp.
Proof.
  unfold request_otp_route.
  pose proof (OTPRateLimit_abort_status (Count (RateLimit (OTP cfg)))
                (GetRateLimitDuration cfg) req w) as Hab.
  destruct (RateLimitMiddleware.OTPRateLimit _ _ req w) as [[keys | r] w1].
  2:{ cbn [fst]. intros H. exfalso. exact (Hab r eq_refl H). }
  clear Hab. unfold AuthHandler.RequestOTP.
  destruct (Body req) as [| | p c] eqn:Hbody;
    cbn [Binding.RequestOTPRequest]; try discriminate.
  destruct (String.eqb p ""); [discriminate |].
  cbv iota. destruct (String.eqb p ""); [discriminate |].
  destruct (AuthHandler.invalid_iranian_format p) eqn:Hfmt; [discriminate |].
  pose proof (fun otp => GenerateOTP_Ok_stored cfg p otp w1) as Hst.
  destruct (AuthService.GenerateOTP cfg p w1) as [[[otp | e] |] w2].
  - intros _. exists p, c, otp, (trace w2).
    split; [reflexivity |]. split; [exact Hfmt |]. split; [reflexivity |].
    split; [reflexivity |]. apply (Hst otp). reflexivity.
  - destruct (String.eqb e "rate limit exceeded"); discriminate.
  - discriminate.
Qed.

Lemma accepted_request_prints_stored_code_witness :
  exists (otp : string) (before : list Event),
    trace (snd (request_otp_route sample_config (otp_request sample_phone)
                  empty_world)) = before ++ [EvPrintOTP sample_phone otp]
    /\ stored_code
         (snd (request_otp_route sample_config (otp_request sample_phone)
                 empty_world)) sample_phone = Some otp.
Proof.
  destruct (accepted_request_prints_stored_code sample_config
              (otp_request sample_phone) empty_world)
    as (p & c & otp & before & Hbody & _ & _ & Ht & Hs);
    [vm_compute; reflexivity |].
  injection Hbody as <- _. exists otp, before. split; assumption.
Defined.

Lemma generateRandomOTP_shape_witness :
  exists otp d,
    generateRandomOTP 123456789 6 = Some otp
    /\ String.length otp = Z.to_nat 6
    /\ Strconv.all_digits otp = true
    /\ 1 <= d < 10
    /\ Strconv.first_char otp = Some (Strconv.digit_char d).
Proof. apply (generateRandomOTP_shape 123456789 6). lia. Defined.

Lemma route_rate_limit_window_witness :
  let req := otp_request sample_phone in
  let first :=
    request_otp_seq sample_config req [0; Second; Second] empty_world in
  let over := request_otp_route sample_config req (elapse Second (snd first)) in
  let next :=
    request_otp_route sample_config req (elapse (600 * Second) (snd over)) in
  Z.of_nat (length (fst first)) = 3
  /\ forallb accepted (fst first) = true
  /\ fst over = too_many_for_phone
  /\ accepted (fst next) = true
  /\ counters_at req sample_phone (snd next) 1 1
       (now (snd next) + GetRateLimitDuration sample_config).
Proof.
  apply (route_rate_limit_window sample_config (otp_request sample_phone)
           sample_phone "" eq_refl eq_refl
           ltac:(vm_compute; discriminate) ltac:(vm_compute; discriminate)
           ltac:(reflexivity)
           ltac:(vm_compute; split; discriminate)
           empty_world [Second; Second] Second (600 * Second));
    try (vm_compute; intuition congruence).
  repeat constructor; discriminate.
Defined.

(** ** The limit by address alone *)

Section AddressLimit.

Variables (limit window : Z) (req : Request).
Hypothesis Hwindow : 0 < window.
Hypothesis Hmax : limit <= max_int64.

(** The first request of a window is let through without a comparison
    with the limit, and opens the window. *)
Lemma RateLimit_fresh (w : World) :
  redis_faults w = [] ->
  Redis.lookup_live w (address_key req) = None ->
  exists w',
    RateLimitMiddleware.RateLimit limit window req w = (Next [], w')
    /\ now w' = now w /\ redis_faults w' = []
    /\ redis w' !! address_key req
       = Some (Entry (Strconv.FormatInt 1) (Some (now w + window))).
Proof.
  intros Hrf Habs. unfold RateLimitMiddleware.RateLimit.
  fold (address_key req).
  rewrite Get_ok by (rewrite Hrf; reflexivity). rewrite Habs.
  cbn [Redis.Int]. rewrite Set_ok by (cbn; rewrite Hrf; reflexivity).
  eexists. split; [reflexivity |]. split; [reflexivity |].
  split; [cbn; rewrite Hrf; reflexivity |].
  cbn [redis with_redis]. rewrite lookup_insert_eq.
  unfold Redis.expiry_for.
  assert ((0 <? window) = true) as -> by (apply Z.ltb_lt; exact Hwindow).
  reflexivity.
Qed.

Lemma RateLimit_below (w : World) (n x : Z) :
  redis_faults w = [] ->
  redis w !! address_key req = Some (Entry (Strconv.FormatInt n) (Some x)) ->
  now w < x -> 0 <= n < limit ->
  exists w',
    RateLimitMiddleware.RateLimit limit window req w = (Next [], w')
    /\ now w' = now w /\ redis_faults w' = []
    /\ redis w' !! address_key req
       = Some (Entry (Strconv.FormatInt (n + 1)) (Some x)).
Proof.
  intros Hrf Hc Hx Hn.
  assert (Hin : in_int64 n)
    by (unfold in_int64, min_int64, max_int64 in *; lia).
  unfold RateLimitMiddleware.RateLimit. fold (address_key req).
  rewrite Get_ok by (rewrite Hrf; reflexivity).
  rewrite (lookup_live_Some w _ _ x Hc Hx).
  cbn [Redis.Int e_val]. rewrite Atoi_FormatInt by exact Hin.
  assert ((limit <=? n) = false) as -> by (apply Z.leb_gt; lia).
  erewrite Incr_ok;
    [| cbn; rewrite Hrf; reflexivity
     | eapply lookup_live_Some; [exact Hc | exact Hx]
     | cbn [e_val]; apply int_value_FormatInt; exact Hin
     | lia ].
  eexists. split; [reflexivity |]. split; [reflexivity |].
  split; [cbn; rewrite Hrf; reflexivity |].
  cbn [redis with_redis e_exp]. apply lookup_insert_eq.
Qed.

Lemma RateLimit_at_limit (w : World) (n x : Z) :
  redis_faults w = [] ->
  redis w !! address_key req = Some (Entry (Strconv.FormatInt n) (Some x)) ->
  now w < x -> limit <= n -> in_int64 n ->
  RateLimitMiddleware.RateLimit limit window req w
  = (Abort (JSON StatusTooManyRequests (ErrorResponse "Rate limit exceeded")),
     redis_done (EvGet (address_key req)) w).
Proof.
  intros Hrf Hc Hx Hn Hin.
  unfold RateLimitMiddleware.RateLimit. fold (address_key req).
  rewrite Get_ok by (rewrite Hrf; reflexivity).
  rewrite (lookup_live_Some w _ _ x Hc Hx).
  cbn [Redis.Int e_val]. rewrite Atoi_FormatInt by exact Hin.
  assert ((limit <=? n) = true) as -> by (apply Z.leb_le; lia).
  reflexivity.
Qed.

Lemma RateLimit_seq_below (ds : list Z) :
  forall (w : World) (n x : Z),
    redis_faults w = [] ->
    redis w !! address_key req
    = Some (Entry (Strconv.FormatInt n) (Some x)) ->
    Forall (fun d => 0 <= d) ds ->
    now w + sum_delays ds < x ->
    0 <= n -> (ds <> [] -> n + Z.of_nat (length ds) <= limit) ->
    let fs := fst (RateLimit_seq limit window req ds w) in
    let w' := snd (RateLimit_seq limit window req ds w) in
    forallb passes fs = true /\ length fs = length ds
    /\ redis_faults w' = [] /\ now w' = now w + sum_delays ds
    /\ redis w' !! address_key req
       = Some (Entry (Strconv.FormatInt (n + Z.of_nat (length ds)))
                 (Some x)).
Proof.
  induction ds as [| d ds IH]; intros w n x Hrf Hc Hds Hx Hn Hlim.
  - cbn. rewrite !Z.add_0_r. repeat split; assumption.
  - cbn [RateLimit_seq]. inversion Hds as [| d' ds' Hd Hds']; subst.
    cbn [sum_delays fold_right] in Hx. fold (sum_delays ds) in Hx.
    assert (Hsum : 0 <= sum_delays ds).
    { clear -Hds'. induction Hds' as [| y l Hy _ IHl]; cbn; [lia |].
      fold (sum_delays l). lia. }
    specialize (Hlim ltac:(discriminate)).
    cbn [length] in Hlim. rewrite Nat2Z.inj_succ in Hlim.
    destruct (RateLimit_below (elapse d w) n x)
      as (w1 & Hgen & Hnow & Hrf1 & Hc1);
      try assumption; [cbn [now elapse]; lia | lia |].
    rewrite Hgen.
    specialize (IH w1 (n + 1) x Hrf1 Hc1 Hds').
    destruct (RateLimit_seq limit window req ds w1) as [fs w2].
    cbn [fst snd] in *.
    destruct IH as (Hall & Hlenfs & Hrf2 & Hnow2 & Hc2); try lia.
    { rewrite Hnow. cbn [now elapse]. lia. }
    repeat split.
    + exact Hall.
    + cbn [length]. congruence.
    + exact Hrf2.
    + rewrite Hnow2, Hnow. cbn [now elapse sum_delays fold_right].
      fold (sum_delays ds). lia.
    + rewrite Hc2. do 3 f_equal. cbn [length]. lia.
Qed.

(** X10.  [RateLimit] by address: without a live counter the first
    request is let through whatever the limit is, so that
    [max 1 limit] requests in sequence are let through in one window; the
    next request in the window is answered 429 and is not counted; and
    once the window has elapsed a request is let through again and the
    counter starts anew at 1. *)
Theorem RateLimit_window
    (w : World) (ds : list Z) (d_over d_next : Z) :
  redis_faults w = [] ->
  Redis.lookup_live w (address_key req) = None ->
  Z.of_nat (length ds) = Z.max 1 limit - 1 ->
  Forall (fun d => 0 <= d) ds -> 0 <= d_over ->
  sum_delays ds + d_over < window ->
  window <= sum_delays ds + d_over + d_next ->
  let first := RateLimit_seq limit window req (0 :: ds) w in
  let over :=
    RateLimitMiddleware.RateLimit limit window req
      (elapse d_over (snd first)) in
  let next :=
    RateLimitMiddleware.RateLimit limit window req
      (elapse d_next (snd over)) in
  Z.of_nat (length (fst first)) = Z.max 1 limit
  /\ forallb passes (fst first) = true
  /\ fst over
     = Abort (JSON StatusTooManyRequests (ErrorResponse "Rate limit exceeded"))
  /\ redis (snd over) = redis (snd first)
  /\ passes (fst next) = true
  /\ redis (snd next) !! address_key req
     = Some (Entry "1" (Some (now (snd next) + window))).
Proof.
  intros Hrf Hfresh Hcount Hds Hover Hin Hout.
  cbn [RateLimit_seq].
  destruct (RateLimit_fresh (elapse 0 w))
    as (w1 & Hgen & Hnow1 & Hrf1 & Hc1); [exact Hrf | |].
  { unfold Redis.lookup_live in *. cbn [redis now elapse].
    rewrite Z.add_0_r. exact Hfresh. }
  cbn [now elapse] in Hnow1, Hc1. rewrite Z.add_0_r in Hnow1, Hc1.
  rewrite Hgen.
  pose proof (RateLimit_seq_below ds w1 1 (now w + window) Hrf1 Hc1 Hds)
    as Hseq.
  destruct (RateLimit_seq limit window req ds w1) as [fs w2].
  cbn [fst snd] in Hseq |- *.
  destruct Hseq as (Hall & Hlenfs & Hrf2 & Hnow2 & Hc2); try lia.
  { intros Hne. destruct ds; [contradiction |]. cbn [length] in *. lia. }
  rewrite (RateLimit_at_limit (elapse d_over w2) (1 + Z.of_nat (length ds))
             (now w + window));
    [| exact Hrf2 | exact Hc2 | cbn [now elapse]; lia | lia
     | unfold in_int64, min_int64, max_int64 in *; lia ].
  cbn [fst snd].
  destruct (RateLimit_fresh
              (elapse d_next
                 (redis_done (EvGet (address_key req)) (elapse d_over w2))))
    as (w3 & Hgen' & Hnow3 & Hrf3 & Hc3).
  { cbn. rewrite Hrf2. reflexivity. }
  { eapply lookup_live_expired; [exact Hc2 |].
    cbn [now elapse redis_done with_redis_faults log]. lia. }
  rewrite Hgen'. cbn [fst snd passes].
  split; [cbn [length]; rewrite Hlenfs; lia |].
  split; [exact Hall |]. split; [reflexivity |]. split; [reflexivity |].
  split; [reflexivity |]. rewrite Hc3, Hnow3. reflexivity.
Qed.

End AddressLimit.

Lemma RateLimit_window_witness :
  let req := otp_request sample_phone in
  let first := RateLimit_seq 0 (60 * Second) req [0] empty_world in
  let over :=
    RateLimitMiddleware.RateLimit 0 (60 * Second) req
      (elapse Second (snd first)) in
  List.map passes (fst first) = [true]
  /\ fst over
     = Abort (JSON StatusTooManyRequests (ErrorResponse "Rate limit exceeded")).
Proof.
  cbv zeta.
  destruct (RateLimit_window 0 (60 * Second) (otp_request sample_phone)
              ltac:(reflexivity) ltac:(vm_compute; discriminate)
              empty_world [] Second (60 * Second)
              eq_refl ltac:(vm_compute; reflexivity) eq_refl
              (Forall_nil_2 _) ltac:(vm_compute; discriminate)
              ltac:(vm_compute; reflexivity) ltac:(vm_compute; discriminate))
    as (_ & _ & Hov & _).
  split; [vm_compute; reflexivity | exact Hov].
Defined.

(** ** Sessions *)

Lemma GetSigningMethod_hmac_inv (alg name : string) :
  Jwt.GetSigningMethod alg = Some (Jwt.SigningMethodHMAC name) ->
  name = alg /\ Jwt.one_of alg ["HS256"; "HS384"; "HS512"] = true.
Proof.
  unfold Jwt.GetSigningMethod.
  destruct (Jwt.one_of alg ["HS256"; "HS384"; "HS512"]).
  - intros H. injection H as <-. split; reflexivity.
  - repeat match goal with
           | |- context [if ?b then _ else _] => destruct b
           end; discriminate.
Qed.

Lemma validate_claims_Ok_exp (t_now : Z) (cl : gmap string ClaimValue) :
  Jwt.validate_claims t_now cl = Ok tt ->
  forall v, cl !! "exp" = Some v ->
    exists exp, v = CNum exp /\ t_now < exp * Second.
Proof.
  unfold Jwt.validate_claims. intros H v Hv. rewrite Hv in H.
  destruct v as [s | exp]; [discriminate |].
  destruct (t_now <? exp * Second) eqn:Hlt; [| discriminate].
  exists exp. split; [reflexivity | apply Z.ltb_lt; exact Hlt].
Qed.

(** X11.  What [AuthRequired] lets through: when it calls the next
    handler, the header carried a bearer token of the HMAC family whose
    signature is the MAC of its own header and claims under the configured
    secret, whose [exp] claim, if there is one, is a number of seconds that
    the clock has not reached, and whose [user_id] and [phone_number]
    claims are strings, the first one a UUID; exactly these two values are
    put into the context. *)
Theorem AuthRequired_lets_through_only_valid_tokens
    (cfg : Config) (req : Request) (w : World)
    (keys : list (string * string)) :
  JWTAuthMiddleware.AuthRequired cfg req w = Next keys ->
  exists (t : Token) (uid phone : string),
    Authorization req = AuthBearer (Some t)
    /\ Jwt.one_of (header_alg t) ["HS256"; "HS384"; "HS512"] = true
    /\ signature t
       = Jwt.sign (header_alg t) (Secret (JWT cfg)) (header_alg t) (claims t)
    /\ (forall v, claims t !! "exp" = Some v ->
          exists exp, v = CNum exp /\ now w < exp * Second)
    /\ claims t !! "user_id" = Some (CStr uid)
    /\ Uuid.Parse uid = true
    /\ claims t !! "phone_number" = Some (CStr phone)
    /\ keys = [("user_id", uid); ("phone_number", phone)].
Proof.
  unfold JWTAuthMiddleware.AuthRequired, JWTAuthMiddleware.unauthorized.
  destruct (Authorization req) as [| | [t |]]; try discriminate.
  unfold Jwt.Parse.
  destruct (Jwt.GetSigningMethod (header_alg t)) as [m |] eqn:Hm;
    [| discriminate].
  destruct m as [name | | | | |]; cbn [JWTAuthMiddleware.keyFunc];
    try discriminate.
  apply GetSigningMethod_hmac_inv in Hm as [-> Hfam].
  cbn [Jwt.Verify].
  destruct (bool_decide _) eqn:Hsig; [| discriminate].
  apply bool_decide_eq_true_1 in Hsig.
  destruct (Jwt.validate_claims (now w) (claims t)) as [[] | e] eqn:Hval;
    [| discriminate].
  destruct (claims t !! "user_id") as [[uid | n] |] eqn:Huid;
    try discriminate.
  destruct (Uuid.Parse uid) eqn:Hparse; [| discriminate].
  destruct (claims t !! "phone_number") as [[phone | n] |] eqn:Hphone;
    try discriminate.
  intros H. injection H as <-.
  exists t, uid, phone. repeat split; try assumption; try reflexivity.
  apply (validate_claims_Ok_exp _ _ Hval).
Qed.

Lemma AuthRequired_lets_through_only_valid_tokens_witness :
  exists (t : Token) (uid phone : string),
    Authorization (bearer_request hs384_token) = AuthBearer (Some t)
    /\ Jwt.one_of (header_alg t) ["HS256"; "HS384"; "HS512"] = true
    /\ signature t
       = Jwt.sign (header_alg t) (Secret (JWT sample_config)) (header_alg t)
           (claims t)
    /\ (forall v, claims t !! "exp" = Some v ->
          exists exp, v = CNum exp /\ now empty_world < exp * Second)
    /\ claims t !! "user_id" = Some (CStr uid)
    /\ Uuid.Parse uid = true
    /\ claims t !! "phone_number" = Some (CStr phone)
    /\ [("user_id", "6ba7b810-9dad-41d1-80b4-00c04fd430c8");
        ("phone_number", sample_phone)]
       = [("user_id", uid); ("phone_number", phone)].
Proof.
  apply (AuthRequired_lets_through_only_valid_tokens sample_config
           (bearer_request hs384_token) empty_world).
  vm_compute. reflexivity.
Defined.

Lemma Unix_bounds (t : Z) :
  AuthService.Unix t * Second <= t < AuthService.Unix t * Second + Second.
Proof.
  unfold AuthService.Unix, Second.
  pose proof (Z.div_mod t 1000000000 ltac:(lia)).
  pose proof (Z.mod_pos_bound t 1000000000 ltac:(lia)). lia.
Qed.

(** X12.  Round trip of a session: the token that [generateJWT] returns
    for a user whose id is a UUID is let through by [AuthRequired], with
    the user's id and phone number in the context, at every instant that
    is at least one second before the end of the configured validity
    (counted from the issue), and is answered 401 "token is expired" from
    the end of the validity on. *)
Theorem minted_token_accepted_until_expiry
    (cfg : Config) (user : User) (w : World) (token : Token)
    (req : Request) (w' : World) :
  fst (AuthService.generateJWT cfg user w) = Ok token ->
  Uuid.Parse (ID user) = true ->
  Authorization req = AuthBearer (Some token) ->
  let validity := wrap64 (ExpirationHours (JWT cfg) * Hour) in
  (now w' + Second <= now w + validity ->
   JWTAuthMiddleware.AuthRequired cfg req w'
   = Next [("user_id", ID user); ("phone_number", PhoneNumber user)])
  /\ (now w + validity <= now w' ->
      JWTAuthMiddleware.AuthRequired cfg req w'
      = JWTAuthMiddleware.unauthorized
          "Invalid token: token has invalid claims: token is expired").
Proof.
  intros Hgen Hid Hauth. cbv zeta.
  unfold AuthService.generateJWT in Hgen. cbn [sign_faults log] in Hgen.
  rewrite pop_fault_eq in Hgen.
  destruct (next_fault (sign_faults w)); [discriminate |].
  cbn [fst] in Hgen. injection Hgen as <-.
  unfold JWTAuthMiddleware.AuthRequired. rewrite Hauth.
  unfold Jwt.Parse, Jwt.SignedString. cbn [header_alg claims signature].
  change (Jwt.GetSigningMethod "HS256")
    with (Some (Jwt.SigningMethodHMAC "HS256")).
  cbn [JWTAuthMiddleware.keyFunc Jwt.Verify header_alg claims signature].
  rewrite bool_decide_eq_true_2 by reflexivity.
  unfold Jwt.validate_claims.
  rewrite !(lookup_insert_ne _ "user_id") by discriminate.
  rewrite !(lookup_insert_ne _ "phone_number") by discriminate.
  rewrite lookup_insert_eq, lookup_insert_ne, lookup_empty by discriminate.
  set (validity := wrap64 (ExpirationHours (JWT cfg) * Hour)).
  pose proof (Unix_bounds (now w + validity)) as Hunix.
  split; intros Hd.
  - assert ((now w' <? AuthService.Unix (now w + validity) * Second) = true)
      as -> by (apply Z.ltb_lt; lia).
    cbn [claims]. rewrite lookup_insert_eq, Hid.
    rewrite lookup_insert_ne, lookup_insert_eq by discriminate.
    reflexivity.
  - assert ((now w' <? AuthService.Unix (now w + validity) * Second) = false)
      as -> by (apply Z.ltb_ge; lia).
    reflexivity.
Qed.

Lemma minted_token_accepted_until_expiry_witness :
  let user :=
    {| ID := "6ba7b810-9dad-41d1-80b4-00c04fd430c8";
       PhoneNumber := sample_phone; CreatedAt := 0; UpdatedAt := 0 |} in
  let token :=
    Jwt.SignedString "HS256" "secret"
      (<["user_id" := CStr (ID user)]>
         (<["phone_number" := CStr sample_phone]>
            (<["exp" := CNum 86400]> ∅))) in
  JWTAuthMiddleware.AuthRequired sample_config (bearer_request token)
    (elapse (23 * Hour) empty_world)
  = Next [("user_id", ID user); ("phone_number", sample_phone)]
  /\ JWTAuthMiddleware.AuthRequired sample_config (bearer_request token)
       (elapse (24 * Hour) empty_world)
     = JWTAuthMiddleware.unauthorized
         "Invalid token: token has invalid claims: token is expired".
Proof.
  intros user token.
  assert (Hgen : fst (AuthService.generateJWT sample_config user empty_world)
                 = Ok token) by (vm_compute; reflexivity).
  assert (Hid : Uuid.Parse (ID user) = true) by (vm_compute; reflexivity).
  split.
  - apply (minted_token_accepted_until_expiry sample_config user empty_world
             token (bearer_request token) (elapse (23 * Hour) empty_world)
             Hgen Hid eq_refl).
    vm_compute. discriminate.
  - apply (minted_token_accepted_until_expiry sample_config user empty_world
             token (bearer_request token) (elapse (24 * Hour) empty_world)
             Hgen Hid eq_refl).
    vm_compute. discriminate.
Defined.

(** ** More on issuing and verifying *)

(** X20.  Only the latest code counts: once [GenerateOTP] has returned a
    code, verifying any other code, an earlier one included, fails with
    "invalid OTP". *)
Theorem reissue_invalidates_other_codes
    (cfg : Config) (p otp other : string) (w : World) (d : Z) :
  fst (AuthService.GenerateOTP cfg p w) = Returns (Ok otp) ->
  other <> otp ->
  let w1 := snd (AuthService.GenerateOTP cfg p w) in
  next_fault (redis_faults w1) = None ->
  stored_code (elapse d w1) p = Some otp ->
  fst (AuthService.VerifyOTP cfg p other (elapse d w1)) = Err "invalid OTP".
Proof.
  intros Hgen Hne. cbv zeta. intros Hnf Hlive.
  rewrite (VerifyOTP_mismatch cfg p other otp);
    [reflexivity | exact Hnf | exact Hlive | congruence].
Qed.

Lemma reissue_invalidates_other_codes_witness :
  fst (AuthService.VerifyOTP sample_config sample_phone "123456"
         (elapse Second
            (snd (AuthService.GenerateOTP sample_config sample_phone
                    world_with_challenge))))
  = Err "invalid OTP".
Proof.
  apply (reissue_invalidates_other_codes sample_config sample_phone
           "100000" "123456" world_with_challenge Second);
    vm_compute; congruence.
Defined.

(** Sequential attempts to verify on the route; each attempt is the time
    that passes before it and the code submitted. *)
Lemma verify_wrong_once
    (cfg : Config) (p c s : string) (x : option Z) (w : World) :
  redis_faults w = [] ->
  redis w !! (RedisOTPRepository.otpKeyPrefix +:+ p) = Some (Entry s x) ->
  Redis.live_at (now w) (Entry s x) = true ->
  c <> s ->
  Binding.VerifyOTPRequest (BodyJSON p c) = Ok (p, c) ->
  AuthHandler.invalid_iranian_format p = false ->
  forall req, Body req = BodyJSON p c ->
    fst (verify_otp_route cfg req w) = invalid_or_expired
    /\ redis (snd (verify_otp_route cfg req w)) = redis w
    /\ now (snd (verify_otp_route cfg req w)) = now w
    /\ redis_faults (snd (verify_otp_route cfg req w)) = [].
Proof.
  intros Hrf He Hlive Hne Hbind Hfmt req Hbody.
  unfold verify_otp_route, AuthHandler.VerifyOTP.
  rewrite Hbody, Hbind, (invalid_iranian_format_nonempty p Hfmt), Hfmt.
  rewrite (VerifyOTP_mismatch cfg p c s).
  - cbn [fst snd]. repeat split; try reflexivity.
    cbn. rewrite Hrf. reflexivity.
  - rewrite Hrf. reflexivity.
  - unfold stored_code, Redis.lookup_live. rewrite He, Hlive. reflexivity.
  - congruence.
Qed.

(** ** Answers the handlers never give *)

Lemma VerifyOTPRequest_Ok_phone (b : RequestBody) (p c : string) :
  Binding.VerifyOTPRequest b = Ok (p, c) -> String.eqb p "" = false.
Proof.
  destruct b as [| |phone otp]; cbn; try discriminate.
  destruct (String.eqb phone "") eqn:Hp.
  - cbn. discriminate.
  - destruct (String.eqb otp ""); [cbn; discriminate|].
    destruct (negb (Nat.eqb (Strconv.rune_count otp) 6)); [cbn; discriminate|].
    destruct (negb (Binding.numeric otp)); cbn; [discriminate|].
    intros H. injection H as <- _. exact Hp.
Qed.

Lemma VerifyOTPRequest_Err_not_iranianMobile (b : RequestBody) (e : string) :
  Binding.VerifyOTPRequest b = Err e ->
  String.eqb e
    ("Key: 'VerifyOTPRequest.PhoneNumber' Error:Field validation "
     +:+ "for 'PhoneNumber' failed on the 'iranianMobile' tag") = false.
Proof.
  destruct b as [| |phone otp]; cbn.
  - intros H. injection H as <-. vm_compute. reflexivity.
  - intros H. injection H as <-. vm_compute. reflexivity.
  - destruct (String.eqb phone "");
      destruct (String.eqb otp "");
      try destruct (negb (Nat.eqb (Strconv.rune_count otp) 6));
      try destruct (negb (Binding.numeric otp));
      cbn; intros H; try discriminate H;
      injection H as <-; vm_compute; reflexivity.
Qed.

Lemma VerifyOTP_handler_dead_messages
    (cfg : Config) (req : Request) (w : World) :
  payload (fst (verify_otp_route cfg req w))
    <> ErrorResponse iranianMobile_message
  /\ payload (fst (verify_otp_route cfg req w))
    <> ErrorResponse empty_phone_message.
Proof.
  unfold verify_otp_route, AuthHandler.VerifyOTP.
  destruct (Binding.VerifyOTPRequest (Body req)) as [[p c]|e] eqn:Hb.
  - rewrite (VerifyOTPRequest_Ok_phone _ _ _ Hb).
    destruct (AuthHandler.invalid_iranian_format p).
    + split; vm_compute; discriminate.
    + destruct (AuthService.VerifyOTP cfg p c w) as [[[token user]|e] w1].
      * split; cbn; discriminate.
      * destruct (String.eqb e "invalid OTP"
                  || String.eqb e
                       "error retrieving OTP: OTP not found or expired")%bool;
          split; cbn; discriminate.
  - rewrite (VerifyOTPRequest_Err_not_iranianMobile _ _ Hb).
    repeat match goal with
           | |- context [if String.eqb e ?s then _ else _] =>
               destruct (String.eqb e s)
           end; split; vm_compute; discriminate.
Qed.

Lemma RequestOTP_handler_dead_message
    (cfg : Config) (req : Request) (w : World) :
  payload (fst (AuthHandler.RequestOTP cfg req w))
    <> ErrorResponse empty_phone_message.
Proof.
  unfold AuthHandler.RequestOTP.
  destruct (Body req) as [| |phone otp]; cbn [Binding.RequestOTPRequest];
    [vm_compute; discriminate | vm_compute; discriminate |].
  destruct (String.eqb phone "") eqn:Hp.
  - vm_compute. discriminate.
  - rewrite Hp. destruct (AuthHandler.invalid_iranian_format phone).
    + vm_compute. discriminate.
    + destruct (AuthService.GenerateOTP cfg phone w) as [[[otp'|e]|] w1].
      * cbn. discriminate.
      * destruct (String.eqb e "rate limit exceeded"); cbn; discriminate.
      * cbn. discriminate.
Qed.

(** X19.  Dead branches of the two handlers.  The request type of the
    verification carries no [iranianMobile] tag, so the message written for
    that tag is never sent; and binding has already refused an empty phone
    number, so neither handler ever sends "Phone number cannot be empty". *)
Theorem handlers_never_send_dead_messages
    (cfg : Config) (req : Request) (w : World) :
  payload (fst (verify_otp_route cfg req w))
    <> ErrorResponse iranianMobile_message
  /\ payload (fst (verify_otp_route cfg req w))
    <> ErrorResponse empty_phone_message
  /\ payload (fst (AuthHandler.RequestOTP cfg req w))
    <> ErrorResponse empty_phone_message.
Proof.
  destruct (VerifyOTP_handler_dead_messages cfg req w) as [H1 H2].
  split; [exact H1 | split; [exact H2 |]].
  apply RequestOTP_handler_dead_message.
Qed.

(** ** The keys of the store *)

Lemma OTPRateLimit_phone_other
    (limit window : Z) (b : bool) (k : string) (w : World) (k' : string) :
  k <> k' ->
  redis (snd (RateLimitMiddleware.OTPRateLimit_phone limit window b k w)) !! k'
  = redis w !! k'.
Proof.
  intros Hne. unfold RateLimitMiddleware.OTPRateLimit_phone.
  destruct b; [| reflexivity].
  pose proof (Get_world k w) as Hw.
  destruct (Redis.Get k w) as [r w1]. cbn [snd] in Hw. subst w1.
  destruct (Redis.Int r) as [n | | msg]; try reflexivity.
  - destruct (limit <=? n); [reflexivity |].
    pose proof (Incr_other k (redis_done (EvGet k) w) k' Hne) as H.
    destruct (Redis.Incr _ _) as [r1 w1]. exact H.
  - pose proof (Set_other k "1" window (redis_done (EvGet k) w) k' Hne) as H.
    destruct (Redis.Set_ _ _ _ _) as [r1 w1]. exact H.
Qed.

Lemma OTPRateLimit_other
    (limit window : Z) (req : Request) (w : World) (k' : string) :
  ip_key req <> k' ->
  (forall p, phone_key p <> k') ->
  redis (snd (RateLimitMiddleware.OTPRateLimit limit window req w)) !! k'
  = redis w !! k'.
Proof.
  intros Hip Hph. unfold RateLimitMiddleware.OTPRateLimit.
  fold (ip_key req).
  assert (Hgen : forall b k,
             (b = true -> k <> k') ->
             redis (snd (let '(r, w0) := Redis.Get (ip_key req) w in
                         match Redis.Int r with
                         | Redis.Fault _ =>
                             (Abort (JSON StatusInternalServerError
                                (ErrorResponse "Error checking rate limit")),
                              w0)
                         | Redis.Nil =>
                             let '(_, w1) :=
                               Redis.Set_ (ip_key req) "1" window w0 in
                             RateLimitMiddleware.OTPRateLimit_phone
                               limit window b k w1
                         | Redis.Val ipCount =>
                             if wrap64 (limit * 2) <=? ipCount then
                               (Abort (JSON StatusTooManyRequests
                                  (ErrorResponse "Rate limit exceeded")), w0)
                             else
                               let '(_, w1) := Redis.Incr (ip_key req) w0 in
                               RateLimitMiddleware.OTPRateLimit_phone
                                 limit window b k w1
                         end)) !! k' = redis w !! k').
  { intros b k Hk.
    assert (Hphone : forall w1,
               redis (snd (RateLimitMiddleware.OTPRateLimit_phone
                             limit window b k w1)) !! k' = redis w1 !! k').
    { intros w1. destruct b.
      - apply OTPRateLimit_phone_other. apply Hk. reflexivity.
      - reflexivity. }
    pose proof (Get_world (ip_key req) w) as Hw.
    destruct (Redis.Get (ip_key req) w) as [r w1]. cbn [snd] in Hw. subst w1.
    destruct (Redis.Int r) as [n | | msg]; try reflexivity.
    - destruct (wrap64 (limit * 2) <=? n); [reflexivity |].
      pose proof (Incr_other (ip_key req)
                    (redis_done (EvGet (ip_key req)) w) k' Hip) as H.
      destruct (Redis.Incr _ _) as [r1 w1]. cbn [snd] in H.
      rewrite Hphone. exact H.
    - pose proof (Set_other (ip_key req) "1" window
                    (redis_done (EvGet (ip_key req)) w) k' Hip) as H.
      destruct (Redis.Set_ _ _ _ _) as [r1 w1]. cbn [snd] in H.
      rewrite Hphone. exact H. }
  destruct (Body req) as [| | p c].
  - reflexivity.
  - apply (Hgen false ""). discriminate.
  - destruct (negb (String.eqb p "")).
    + apply (Hgen true ("rate_limit:otp:phone:" +:+ p)).
      intros _. apply (Hph p).
    + apply (Hgen false ""). discriminate.
Qed.

(** X21.  The middleware never touches a challenge: whatever the request
    and whatever the store does, every key ["otp:<phone>"] holds after
    [OTPRateLimit] what it held before. *)
Theorem OTPRateLimit_leaves_challenges
    (limit window : Z) (req : Request) (w : World) (p : string) :
  redis (snd (RateLimitMiddleware.OTPRateLimit limit window req w))
    !! (RedisOTPRepository.otpKeyPrefix +:+ p)
  = redis w !! (RedisOTPRepository.otpKeyPrefix +:+ p).
Proof.
  apply OTPRateLimit_other.
  - intros H. exact (otp_key_not_ip_key p req (eq_sym H)).
  - intros p' H. exact (otp_key_not_phone_key p p' (eq_sym H)).
Qed.

(** X23.  For a phone number of one of the three accepted shapes, the
    counter of the service and the two counters of the middleware are
    different keys: [GenerateOTP] changes no counter of the middleware, and
    the middleware does not change the counter of the service. *)
Theorem service_and_middleware_counters_disjoint
    (cfg : Config) (p : string) (w : World) :
  AuthHandler.invalid_iranian_format p = false ->
  (forall req,
     redis (snd (AuthService.GenerateOTP cfg p w)) !! ip_key req
     = redis w !! ip_key req)
  /\ (forall p',
     redis (snd (AuthService.GenerateOTP cfg p w)) !! phone_key p'
     = redis w !! phone_key p')
  /\ (forall limit window req,
     redis (snd (RateLimitMiddleware.OTPRateLimit limit window req w))
       !! counter_key p
     = redis w !! counter_key p).
Proof.
  intros Hfmt. split; [| split].
  - intros req. apply GenerateOTP_other.
    + apply otp_key_not_ip_key.
    + apply counter_key_not_ip_key. exact Hfmt.
  - intros p'. apply GenerateOTP_other.
    + apply otp_key_not_phone_key.
    + apply counter_key_not_phone_key. exact Hfmt.
  - intros limit window req. apply OTPRateLimit_other.
    + intros H. exact (counter_key_not_ip_key p req Hfmt (eq_sym H)).
    + intros p' H. exact (counter_key_not_phone_key p p' Hfmt (eq_sym H)).
Qed.

Lemma service_and_middleware_counters_disjoint_witness :
  redis (snd (AuthService.GenerateOTP sample_config sample_phone empty_world))
    !! ip_key (otp_request sample_phone)
  = redis empty_world !! ip_key (otp_request sample_phone).
Proof.
  apply (service_and_middleware_counters_disjoint
           sample_config sample_phone empty_world).
  vm_compute. reflexivity.
Defined.

Lemma verify_otp_seq_wrong (cfg : Config) (ip p s : string) (x : option Z) :
  AuthHandler.invalid_iranian_format p = false ->
  forall (attempts : list (Z * string)) (w : World),
    redis_faults w = [] ->
    redis w !! (RedisOTPRepository.otpKeyPrefix +:+ p) = Some (Entry s x) ->
    match x with
    | Some t => now w + sum_delays (map fst attempts) < t
    | None => True
    end ->
    Forall (wrong_guess p s) attempts ->
    let '(rs, w') := verify_otp_seq cfg ip p attempts w in
    rs = map (fun _ => invalid_or_expired) attempts
    /\ redis w' = redis w
    /\ redis_faults w' = []
    /\ now w' = now w + sum_delays (map fst attempts).
Proof.
  intros Hfmt attempts.
  induction attempts as [| [d c] rest IH]; intros w Hrf He Hx Hall.
  - cbn. repeat split; try assumption. lia.
  - apply Forall_cons_1 in Hall. destruct Hall as [(Hd & Hc & Hb) Hrest].
    cbn [fst snd] in Hd, Hc, Hb.
    assert (Hsum : 0 <= sum_delays (map fst rest)).
    { clear -Hrest. induction Hrest as [| a l (Ha & _) _ IHl]; cbn; [lia |].
      fold (sum_delays (map fst l)). lia. }
    cbn [map fst sum_delays fold_right] in Hx.
    fold (sum_delays (map fst rest)) in Hx.
    cbn [verify_otp_seq].
    set (req := {| ClientIP := ip; Body := BodyJSON p c;
                   Authorization := AuthEmpty |}).
    assert (Hlive : Redis.live_at (now (elapse d w)) (Entry s x) = true).
    { unfold Redis.live_at. cbn [e_exp now elapse]. destruct x as [t |];
        [apply Z.ltb_lt; lia | reflexivity]. }
    destruct (verify_wrong_once cfg p c s x (elapse d w) Hrf He Hlive Hc Hb
                Hfmt req eq_refl) as (Hr & Hredis & Hnow & Hrf1).
    destruct (verify_otp_route cfg req (elapse d w)) as [r w1].
    cbn [fst snd] in Hr, Hredis, Hnow, Hrf1.
    cbn [redis now elapse] in Hredis, Hnow.
    assert (He1 : redis w1 !! (RedisOTPRepository.otpKeyPrefix +:+ p)
                  = Some (Entry s x)) by (rewrite Hredis; exact He).
    assert (Hx1 : match x with
                  | Some t => now w1 + sum_delays (map fst rest) < t
                  | None => True
                  end) by (destruct x; [rewrite Hnow; lia | exact I]).
    specialize (IH w1 Hrf1 He1 Hx1 Hrest).
    destruct (verify_otp_seq cfg ip p rest w1) as [rs w2].
    destruct IH as (Hrs & Hredis2 & Hrf2 & Hnow2).
    cbn [map fst sum_delays fold_right].
    fold (sum_delays (map fst rest)).
    repeat split.
    + rewrite Hr, Hrs. reflexivity.
    + rewrite Hredis2. exact Hredis.
    + exact Hrf2.
    + rewrite Hnow2, Hnow. lia.
Qed.

(** X22.  Wrong guesses are not counted.  The route of the verification
    has no rate limit and [VerifyOTP] keeps no count of failures: while the
    challenge lives and the store works, any number of well-formed wrong
    codes are each answered 401 "Invalid or expired OTP", and afterwards
    the store is unchanged and the challenge is still the live one. *)
Theorem wrong_guesses_are_not_counted
    (cfg : Config) (ip p s : string) (x : option Z)
    (attempts : list (Z * string)) (w : World) :
  AuthHandler.invalid_iranian_format p = false ->
  redis_faults w = [] ->
  redis w !! (RedisOTPRepository.otpKeyPrefix +:+ p) = Some (Entry s x) ->
  match x with
  | Some t => now w + sum_delays (map fst attempts) < t
  | None => True
  end ->
  Forall (wrong_guess p s) attempts ->
  fst (verify_otp_seq cfg ip p attempts w)
  = map (fun _ => invalid_or_expired) attempts
  /\ stored_code (snd (verify_otp_seq cfg ip p attempts w)) p = Some s
  /\ redis (snd (verify_otp_seq cfg ip p attempts w)) = redis w.
Proof.
  intros Hfmt Hrf He Hx Hall.
  pose proof (verify_otp_seq_wrong cfg ip p s x Hfmt attempts w Hrf He Hx Hall)
    as H.
  destruct (verify_otp_seq cfg ip p attempts w) as [rs w'].
  destruct H as (Hrs & Hredis & _ & Hnow). cbn [fst snd].
  split; [exact Hrs | split; [| exact Hredis]].
  unfold stored_code, Redis.lookup_live. rewrite Hredis, He.
  unfold Redis.live_at. cbn [e_exp]. rewrite Hnow.
  destruct x as [t |]; [| reflexivity].
  replace (_ <? t) with true by (symmetry; apply Z.ltb_lt; lia).
  reflexivity.
Qed.

Lemma wrong_guesses_are_not_counted_witness :
  fst (verify_otp_seq sample_config "10.0.0.1" sample_phone
         [(Second, "000000"); (Second, "000001"); (Second, "000002")]
         world_with_challenge)
  = [invalid_or_expired; invalid_or_expired; invalid_or_expired]
  /\ stored_code
       (snd (verify_otp_seq sample_config "10.0.0.1" sample_phone
               [(Second, "000000"); (Second, "000001"); (Second, "000002")]
               world_with_challenge)) sample_phone
     = Some "123456"
  /\ redis
       (snd (verify_otp_seq sample_config "10.0.0.1" sample_phone
               [(Second, "000000"); (Second, "000001"); (Second, "000002")]
               world_with_challenge))
     = redis world_with_challenge.
Proof.
  apply (wrong_guesses_are_not_counted sample_config "10.0.0.1" sample_phone
           "123456" (Some (120 * Second))
           [(Second, "000000"); (Second, "000001"); (Second, "000002")]
           world_with_challenge).
  - vm_compute. reflexivity.
  - reflexivity.
  - vm_compute. reflexivity.
  - vm_compute. reflexivity.
  - repeat constructor; cbn; try lia; try discriminate.
Defined.

(** ** The model at work *)

(** The bounds of the draw for six digits, and what a code length of 20
    does to the 64-bit product. *)
Example generateRandomOTP_lowest :
  generateRandomOTP 0 6 = Some "100000".
Proof. vm_compute. reflexivity. Qed.

Example generateRandomOTP_highest :
  generateRandomOTP 800000 6 = Some "900000".
Proof. vm_compute. reflexivity. Qed.

Example generateRandomOTP_length_20 :
  generateRandomOTP 0 20 = Some "-8446744073709551616".
Proof. vm_compute. reflexivity. Qed.

(** The scenario of the documentation: a code is requested for
    09123456789, verified within its 120 seconds, which creates the user
    and returns a token, and verified a second time. *)
Example end_to_end :
  let req := otp_request sample_phone in
  let '(r1, w1) := request_otp_route sample_config req empty_world in
  let code := default "" (stored_code w1 sample_phone) in
  let '(r2, w2) :=
    verify_otp_route sample_config (verify_request code)
      (elapse (30 * Second) w1) in
  let '(r3, _) := verify_otp_route sample_config (verify_request code) w2 in
  status r1 = StatusOK
  /\ String.length code = 6%nat
  /\ status r2 = StatusOK
  /\ List.map PhoneNumber (users w2) = [sample_phone]
  /\ r3 = invalid_or_expired.
Proof. vm_compute. repeat split; reflexivity. Qed.
